(** * hello-canton: the dashboard's ledger client and its contract fetch

    A shallow embedding of the browser side of the repository:
    [frontend/src/services/damlApi.js] (the [DamlApi] singleton), the
    dashboard component of [frontend/src/App.js], its revision with the
    Clear Cache button and the token form, and the earlier client that logs
    in through [/auth/login].

    The client is asynchronous code over a browser: every method is written
    here as a resumption ([Prog]) whose only interaction points are the ones
    of the source -- [fetch], reads and writes of the singleton's fields, of
    [localStorage] and of the component state, and [Date.now].  A resumption
    is run either alone against a gateway ([run]) or, for the three parallel
    queries of [Promise.all], interleaved with its siblings ([Parallel]).

    Part I holds the definitions, Part II the properties. *)

From Stdlib Require Import ZArith String Ascii List Bool Lia.
From stdpp Require Import base option list gmap strings pretty.
Import ListNotations.
Local Open Scope string_scope.
Local Open Scope Z_scope.

Set Warnings "-register-all".

(* ===================================================================== *)
(** ** JavaScript values                                                  *)
(* ===================================================================== *)

(** The values the gateway's JSON bodies parse to.  Numbers are the
    integers JavaScript holds exactly and prints in plain decimal (up to
    2^53 in magnitude); fractions and larger magnitudes are not among the
    values.  An object is the list of its own properties. *)
Inductive JSON : Type :=
| JNull
| JBool (b : bool)
| JNum (n : Z)
| JStr (s : string)
| JArr (items : list JSON)
| JObj (fields : list (string * JSON)).

(** A JavaScript value as the client sees one: [None] is [undefined]. *)
Definition JsVal : Type := option JSON.
Definition undefined : JsVal := None.
Definition null : JsVal := Some JNull.

(** The own properties of an object, in order. *)
Definition Obj : Type := list (string * JSON).

(** [new Error(msg)], [TypeError], [SyntaxError], a rejected [fetch]: the
    client only ever reads [err.message]. *)
Record Error : Type := mkError { message : string }.

(** A computation that may throw. *)
Definition Exc (A : Type) : Type := Error + A.

(** A [TypeError] raised by the engine; [what] is its message. *)
Definition TypeError (what : string) : Error := mkError what.

Module Js.

(** [!!v] *)
Definition truthy (v : JsVal) : bool :=
  match v with
  | None => false
  | Some JNull => false
  | Some (JBool b) => b
  | Some (JNum n) => negb (n =? 0)
  | Some (JStr s) => negb (String.eqb s "")
  | Some (JArr _) => true
  | Some (JObj _) => true
  end.

(** [!!s] for a value that is a string or [null] ([localStorage.getItem],
    [this.token]). *)
Definition truthyStr (v : option string) : bool :=
  match v with
  | Some s => negb (String.eqb s "")
  | None => false
  end.

(** [arr.join(sep)] on strings already rendered. *)
Fixpoint join (sep : string) (l : list string) : string :=
  match l with
  | [] => ""
  | [x] => x
  | x :: rest => x ++ sep ++ join sep rest
  end.

(** [String(v)], as a template literal and [localStorage.setItem] apply it. *)
Fixpoint toString (j : JSON) : string :=
  match j with
  | JNull => "null"
  | JBool true => "true"
  | JBool false => "false"
  | JNum n => pretty n
  | JStr s => s
  | JArr items =>
      join ","
        ((fix each (l : list JSON) : list string :=
            match l with
            | [] => []
            | JNull :: rest => "" :: each rest
            | x :: rest => toString x :: each rest
            end) items)
  | JObj _ => "[object Object]"
  end.

Definition toStringVal (v : JsVal) : string :=
  match v with
  | None => "undefined"
  | Some j => toString j
  end.

(** [String(s)] for a string or [null]. *)
Definition toStringNullable (v : option string) : string :=
  match v with
  | None => "null"
  | Some s => s
  end.

(** Own-property lookup in a parsed object. *)
Fixpoint lookup (key : string) (o : Obj) : JsVal :=
  match o with
  | [] => None
  | (k, v) :: rest => if String.eqb k key then Some v else lookup key rest
  end.

(** [v.key] for the property names the client reads ([result],
    [templateId], [displayName], [identifier]): none of them exists on a
    primitive or an array, and reading any property of [null] throws. *)
Definition getProp (v : JSON) (key : string) : Exc JsVal :=
  match v with
  | JNull =>
      inl (TypeError ("Cannot read properties of null (reading '" ++ key ++ "')"))
  | JObj fields => inr (lookup key fields)
  | _ => inr None
  end.

(** [v || []] *)
Definition orEmptyArray (v : JsVal) : JSON :=
  match v with
  | Some j => if truthy v then j else JArr []
  | None => JArr []
  end.

(** [v || ''] *)
Definition orEmptyString (v : JsVal) : JSON :=
  match v with
  | Some j => if truthy v then j else JStr ""
  | None => JStr ""
  end.

(** The characters of a string, as one-character strings. *)
Fixpoint chars (s : string) : list JSON :=
  match s with
  | EmptyString => []
  | String c rest => JStr (String c EmptyString) :: chars rest
  end.

(** [for (const x of v)], where the source names the value [name]: arrays
    and strings are iterable, nothing else that JSON can produce is. *)
Definition iterate (name : string) (v : JSON) : Exc (list JSON) :=
  match v with
  | JArr items => inr items
  | JStr s => inr (chars s)
  | _ => inl (TypeError (name ++ " is not iterable"))
  end.

(** [v.length]: an array and a string have their own, an object has the
    property of that name if it holds one, a number or a boolean has
    none. *)
Definition lengthOf (v : JSON) : Exc JsVal :=
  match v with
  | JNull => inl (TypeError "Cannot read properties of null (reading 'length')")
  | JArr items => inr (Some (JNum (Z.of_nat (length items))))
  | JStr s => inr (Some (JNum (Z.of_nat (String.length s))))
  | JObj fields => inr (lookup "length" fields)
  | _ => inr None
  end.

(** [v[i]] for an integer [i]: an element of an array, a character of a
    string, the property named by the digits of [i] of an object. *)
Definition item (v : JSON) (i : Z) : Exc JsVal :=
  match v with
  | JNull =>
      inl (TypeError ("Cannot read properties of null (reading '" ++ pretty i ++ "')"))
  | JArr items => inr (if i <? 0 then None else items !! Z.to_nat i)
  | JStr s => inr (if i <? 0 then None else chars s !! Z.to_nat i)
  | JObj fields => inr (lookup (pretty i) fields)
  | _ => inr None
  end.

(** [haystack.includes(needle)] on strings. *)
Fixpoint includes (haystack needle : string) : bool :=
  String.prefix needle haystack
  || match haystack with
     | EmptyString => false
     | String _ rest => includes rest needle
     end.

Definition startsWith (s pre : string) : bool := String.prefix pre s.

Definition endsWith (s suf : string) : bool :=
  String.prefix (String.rev suf) (String.rev s).

(** [s.split(sep)] for a one-character separator. *)
Fixpoint split (sep : ascii) (s : string) : list string :=
  match s with
  | EmptyString => [""]
  | String c rest =>
      if Ascii.eqb c sep then "" :: split sep rest
      else match split sep rest with
           | [] => [String c EmptyString]
           | hd :: tl => String c hd :: tl
           end
  end.

(** [s.replace(/=/g, '')] *)
Fixpoint stripPadding (s : string) : string :=
  match s with
  | EmptyString => EmptyString
  | String c rest =>
      if Ascii.eqb c "="%char then stripPadding rest
      else String c (stripPadding rest)
  end.

End Js.

(* ===================================================================== *)
(** ** The browser: requests, responses, storage                          *)
(* ===================================================================== *)

(** What the client hands to [fetch].  [body] is the value given to
    [JSON.stringify]. *)
Record Request : Type := mkRequest {
  url : string;
  method : string;
  headers : list (string * string);
  body : option JSON;
}.

(** What the client reads of a [Response]: [response.ok], and the two ways
    of consuming the body, either of which may reject.  [response.json()]
    yields whatever JSON value the body holds: an object, but also [null],
    a string, a number or an array. *)
Record Response : Type := mkResponse {
  ok : bool;
  text : Exc string;
  json : Exc JSON;
}.

(** The platform functions the repository calls but does not define.
    [Number_ofString] is the number a string converts to in arithmetic,
    [None] standing for [NaN]. *)
Class Host : Type := {
  REACT_APP_API_URL : option string;   (* process.env.REACT_APP_API_URL *)
  toLowerCase : string -> string;      (* String.prototype.toLowerCase *)
  btoa : string -> string;
  JSON_stringify : JSON -> string;
  Number_ofString : string -> option Z;
}.

(* ===================================================================== *)
(** ** Asynchronous code as resumptions                                   *)
(* ===================================================================== *)

Inductive Outcome (A : Type) : Type :=
| Returned (a : A)
| Thrown (e : Error).
Arguments Returned {A} a.
Arguments Thrown {A} e.

(** An [async] function body over a mutable state [S].  [Fetch] is
    [await fetch(req)]: the request leaves, and the body resumes with the
    response or the rejection. *)
Inductive Prog (S A : Type) : Type :=
| Ret (a : A)
| Throw (e : Error)
| Fetch (req : Request) (k : Exc Response -> Prog S A)
| Read (k : S -> Prog S A)
| Update (f : S -> S) (k : Prog S A)
| DateNow (k : Z -> Prog S A).
Arguments Ret {S A} a.
Arguments Throw {S A} e.
Arguments Fetch {S A} req k.
Arguments Read {S A} k.
Arguments Update {S A} f k.
Arguments DateNow {S A} k.

Fixpoint bind {S A B} (m : Prog S A) (f : A -> Prog S B) : Prog S B :=
  match m with
  | Ret a => f a
  | Throw e => Throw e
  | Fetch req k => Fetch req (fun r => bind (k r) f)
  | Read k => Read (fun s => bind (k s) f)
  | Update g k => Update g (bind k f)
  | DateNow k => DateNow (fun t => bind (k t) f)
  end.

(** [try { m } catch (e) { h e }] *)
Fixpoint tryCatch {S A} (m : Prog S A) (h : Error -> Prog S A) : Prog S A :=
  match m with
  | Ret a => Ret a
  | Throw e => h e
  | Fetch req k => Fetch req (fun r => tryCatch (k r) h)
  | Read k => Read (fun s => tryCatch (k s) h)
  | Update g k => Update g (tryCatch k h)
  | DateNow k => DateNow (fun t => tryCatch (k t) h)
  end.

#[global] Instance Prog_ret {S} : MRet (Prog S) := fun A a => Ret a.
#[global] Instance Prog_bind {S} : MBind (Prog S) := fun A B f m => bind m f.

(** A synchronous step that may throw. *)
Definition lift {S A} (x : Exc A) : Prog S A :=
  match x with
  | inl e => Throw e
  | inr a => Ret a
  end.

Definition fetch {S} (req : Request) : Prog S Response := Fetch req lift.
Definition read {S A} (f : S -> A) : Prog S A := Read (fun s => Ret (f s)).
Definition update {S} (f : S -> S) : Prog S unit := Update f (Ret tt).

(** Code written against a part [S] of a larger state [T]. *)
Fixpoint embed {S T A} (get : T -> S) (set : S -> T -> T) (p : Prog S A) : Prog T A :=
  match p with
  | Ret a => Ret a
  | Throw e => Throw e
  | Fetch req k => Fetch req (fun r => embed get set (k r))
  | Read k => Read (fun t => embed get set (k (get t)))
  | Update f k => Update (fun t => set (f (get t)) t) (embed get set k)
  | DateNow k => DateNow (fun z => embed get set (k z))
  end.

(** The gateway and the clock.  The answer to a request may depend on
    everything sent before it. *)
Record Env : Type := mkEnv {
  server : list Request -> Request -> Exc Response;
  clock : Z;
}.

(** One call run to completion with nothing else in flight: the outcome, the
    final state, and the requests sent, oldest first. *)
Fixpoint run {S A} (env : Env) (p : Prog S A) (s : S) (sent : list Request)
  : Outcome A * S * list Request :=
  match p with
  | Ret a => (Returned a, s, sent)
  | Throw e => (Thrown e, s, sent)
  | Fetch req k => run env (k (server env sent req)) s (sent ++ [req])%list
  | Read k => run env (k s) s sent
  | Update f k => run env k (f s) sent
  | DateNow k => run env (k (clock env)) s sent
  end.

(* ===================================================================== *)
(** ** frontend/src/services/damlApi.js                                   *)
(* ===================================================================== *)

(** The singleton's fields together with the browser's [localStorage]. *)
Record Session : Type := mkSession {
  token : option string;
  userId : option string;
  partyIdentifier : JsVal;
  localStorage : gmap string string;
}.

Module Storage.
Definition getItem (key : string) : Prog Session (option string) :=
  read (fun s => localStorage s !! key).

Definition setItem (key value : string) : Prog Session unit :=
  update (fun s => mkSession (token s) (userId s) (partyIdentifier s)
                     (<[key := value]> (localStorage s))).

Definition removeItem (key : string) : Prog Session unit :=
  update (fun s => mkSession (token s) (userId s) (partyIdentifier s)
                     (delete key (localStorage s))).
End Storage.

(** [s] after [localStorage.setItem(key, value)]. *)
Definition withItem (key value : string) (s : Session) : Session :=
  mkSession (token s) (userId s) (partyIdentifier s) (<[key := value]> (localStorage s)).

(** [s] after [localStorage.removeItem(key)]. *)
Definition withoutItem (key : string) (s : Session) : Session :=
  mkSession (token s) (userId s) (partyIdentifier s) (delete key (localStorage s)).

Module DamlApi.
Section WithHost.
Context `{Host}.

(** [process.env.REACT_APP_API_URL || '/v1'] *)
Definition API_BASE_URL : string :=
  if Js.truthyStr REACT_APP_API_URL
  then Js.toStringNullable REACT_APP_API_URL
  else "/v1".

Definition NotAuthenticated : Error := mkError "Not authenticated".

(** The [Authorization] header, as each request builds it from
    [this.token] at the moment it is sent. *)
Definition bearer (tok : string) : string * string :=
  ("Authorization", "Bearer " ++ tok).

Definition authorization : Prog Session (string * string) :=
  read (fun s => bearer (Js.toStringNullable (token s))).

Definition contentType : string * string := ("Content-Type", "application/json").

(** An object literal handed to [JSON.stringify]: a property whose value
    is [undefined] is left out. *)
Fixpoint object (fields : list (string * JsVal)) : Obj :=
  match fields with
  | [] => []
  | (k, Some v) :: rest => (k, v) :: object rest
  | (_, None) :: rest => object rest
  end.

(** An array literal handed to [JSON.stringify]: [undefined] becomes
    [null]. *)
Definition element (v : JsVal) : JSON :=
  match v with
  | Some j => j
  | None => JNull
  end.

Definition createSimpleJWT (userId : string) (partyIdentifier : JsVal)
  : Prog Session string :=
  let header :=
    Js.stripPadding
      (btoa (JSON_stringify (JObj [("alg", JStr "none"); ("typ", JStr "JWT")]))) in
  DateNow (fun now =>
    let payload :=
      Js.stripPadding
        (btoa (JSON_stringify (JObj
           [("userId", JStr userId);
            ("ledgerId", JStr "sandbox");
            ("applicationId", JStr "ex-seeding-script");
            ("actAs", JArr [element partyIdentifier]);
            ("readAs", JArr [element partyIdentifier]);
            ("exp", JNum (now / 1000 + 86400))]))) in
    Ret (header ++ "." ++ payload ++ ".")).

(** The constructor reads the three session entries back. *)
Definition constructor (storage : gmap string string) : Session :=
  {| token := storage !! "daml_token";
     userId := storage !! "daml_user_id";
     partyIdentifier :=
       match storage !! "daml_party_identifier" with
       | Some s => Some (JStr s)
       | None => null
       end;
     localStorage := storage |}.

(** [v?.toLowerCase()], where the source writes [v] as [what]. *)
Definition optLowerCase (what : string) (v : JsVal) : Exc (option string) :=
  match v with
  | None => inr None
  | Some JNull => inr None
  | Some (JStr s) => inr (Some (toLowerCase s))
  | Some _ => inl (TypeError (what ++ "?.toLowerCase is not a function"))
  end.

(** The callback of [parties.find] in [login]:
    [p.displayName?.toLowerCase() === userId.toLowerCase() ||
     p.identifier?.toLowerCase().startsWith(userId.toLowerCase())]. *)
Definition matchesUser (userId : string) (p : JSON) : Exc bool :=
  match Js.getProp p "displayName" with
  | inl e => inl e
  | inr displayName =>
      match optLowerCase "p.displayName" displayName with
      | inl e => inl e
      | inr lowered =>
          if match lowered with
             | Some l => String.eqb l (toLowerCase userId)
             | None => false
             end
          then inr true
          else
            match Js.getProp p "identifier" with
            | inl e => inl e
            | inr identifier =>
                match optLowerCase "p.identifier" identifier with
                | inl e => inl e
                | inr (Some l) => inr (Js.startsWith l (toLowerCase userId))
                | inr None => inr false
                end
            end
      end
  end.

Fixpoint findFirst (pred : JSON -> Exc bool) (items : list JSON) : Exc JsVal :=
  match items with
  | [] => inr undefined
  | x :: rest =>
      match pred x with
      | inl e => inl e
      | inr true => inr (Some x)
      | inr false => findFirst pred rest
      end
  end.

(** [v.find(pred)]: only an array has [find]. *)
Definition find (pred : JSON -> Exc bool) (v : JSON) : Exc JsVal :=
  match v with
  | JArr items => findFirst pred items
  | _ => inl (TypeError "parties.find is not a function")
  end.

(** [v.identifier] where [v] may be [undefined]. *)
Definition getPropVal (v : JsVal) (key : string) : Exc JsVal :=
  match v with
  | Some j => Js.getProp j key
  | None =>
      inl (TypeError ("Cannot read properties of undefined (reading '" ++ key ++ "')"))
  end.

Definition storeSession (newToken userIdArg : string) (identifier : JsVal)
  : Prog Session unit :=
  update (fun s => mkSession (Some newToken) (userId s) (partyIdentifier s) (localStorage s));;
  update (fun s => mkSession (token s) (Some userIdArg) (partyIdentifier s) (localStorage s));;
  update (fun s => mkSession (token s) (userId s) identifier (localStorage s));;
  tok ← read token;
  Storage.setItem "daml_token" (Js.toStringNullable tok);;
  uid ← read userId;
  Storage.setItem "daml_user_id" (Js.toStringNullable uid);;
  pid ← read partyIdentifier;
  Storage.setItem "daml_party_identifier" (Js.toStringVal pid).

(** Both requests of [login]: a [GET] of the party list under a bearer. *)
Definition partiesRequest (bearerValue : string) : Request :=
  {| url := API_BASE_URL ++ "/parties";
     method := "GET";
     headers := [bearer bearerValue];
     body := None |}.

Definition login (userId : string) : Prog Session string :=
  tryCatch
    (partiesResponse ← fetch (partiesRequest userId);
     if negb (ok partiesResponse)
     then Throw (mkError "Failed to fetch parties. Make sure the JSON API is running.")
     else
       partiesData ← lift (json partiesResponse);
       result ← lift (Js.getProp partiesData "result");
       let parties := Js.orEmptyArray result in
       userParty ← lift (find (matchesUser userId) parties);
       if negb (Js.truthy userParty)
       then Throw (mkError ("Party not found for userId: " ++ userId))
       else
         identifier ← lift (getPropVal userParty "identifier");
         newToken ← createSimpleJWT userId identifier;
         testResponse ← fetch (partiesRequest newToken);
         if negb (ok testResponse)
         then
           error ← lift (text testResponse);
           Throw (mkError ("Authentication failed: " ++ error))
         else
           storeSession newToken userId identifier;;
           stored ← read token;
           Ret (Js.toStringNullable stored))
    (fun error => Throw error).

Definition logout : Prog Session unit :=
  update (fun s => mkSession None (userId s) (partyIdentifier s) (localStorage s));;
  update (fun s => mkSession (token s) None (partyIdentifier s) (localStorage s));;
  update (fun s => mkSession (token s) (userId s) null (localStorage s));;
  Storage.removeItem "daml_token";;
  Storage.removeItem "daml_user_id";;
  Storage.removeItem "daml_party_identifier".

Definition getPackages : Prog Session JSON :=
  tok ← read token;
  if negb (Js.truthyStr tok) then Throw NotAuthenticated
  else
    auth ← authorization;
    response ← fetch {| url := API_BASE_URL ++ "/packages";
                        method := "GET";
                        headers := [auth];
                        body := None |};
    if negb (ok response)
    then
      error ← lift (text response);
      Throw (mkError ("Failed to fetch packages: " ++ error))
    else lift (json response).

(** The body of every [/query] request. *)
Definition queryBody (templateIds : list string) : option JSON :=
  Some (JObj [("templateIds", JArr (JStr <$> templateIds))]).

Definition queryRequest (auth : string * string) (templateIds : list string) : Request :=
  {| url := API_BASE_URL ++ "/query";
     method := "POST";
     headers := [contentType; auth];
     body := queryBody templateIds |}.

(** [contract.templateId.split(':')]: only a string has [split]. *)
Definition splitTemplateId (templateId : JSON) : Exc (list string) :=
  match templateId with
  | JStr s => inr (Js.split ":"%char s)
  | _ => inl (TypeError "contract.templateId.split is not a function")
  end.

(** The first loop of [findPackageId]; [Some] is its [return]. *)
Fixpoint scanContracts (contracts : list JSON) : Prog Session (option JsVal) :=
  match contracts with
  | [] => Ret None
  | contract :: rest =>
      templateId ← lift (Js.getProp contract "templateId");
      if Js.truthy templateId
      then
        parts ← lift (splitTemplateId (element templateId));
        match parts with
        | [packageId; entity; _] =>
            if String.eqb entity "SimpleToken"
            then
              Storage.setItem "daml_package_id" packageId;;
              Ret (Some (Some (JStr packageId)))
            else scanContracts rest
        | _ => scanContracts rest
        end
      else scanContracts rest
  end.

Definition isResolutionText (msg : string) : bool :=
  Js.includes msg "Cannot resolve" || Js.includes msg "unknownTemplateIds".

Definition simpleTokenTemplate (packageId : string) : string :=
  packageId ++ ":SimpleToken:SimpleToken".

(** The second loop of [findPackageId]. *)
Fixpoint probePackages (packageIds : list JSON) : Prog Session JsVal :=
  match packageIds with
  | [] => Ret null
  | packageId :: rest =>
      hit ← tryCatch
              (auth ← authorization;
               testResponse ← fetch (queryRequest auth
                                       [simpleTokenTemplate (Js.toString packageId)]);
               responseText ← lift (text testResponse);
               if ok testResponse || negb (isResolutionText responseText)
               then
                 Storage.setItem "daml_package_id" (Js.toString packageId);;
                 Ret (Some packageId)
               else Ret None)
              (fun err => Ret None);
      match hit with
      | Some found => Ret (Some found)
      | None => probePackages rest
      end
  end.

Definition findPackageId : Prog Session JsVal :=
  cached ← Storage.getItem "daml_package_id";
  if Js.truthyStr cached then Ret (JStr <$> cached)
  else
    tryCatch
      (auth ← authorization;
       allContractsResponse ← fetch (queryRequest auth []);
       found ← (if ok allContractsResponse
                then
                  allContracts ← lift (json allContractsResponse);
                  result ← lift (Js.getProp allContracts "result");
                  let contracts := Js.orEmptyArray result in
                  items ← lift (Js.iterate "contracts" contracts);
                  scanContracts items
                else Ret None);
       match found with
       | Some packageId => Ret packageId
       | None =>
           packagesData ← getPackages;
           result ← lift (Js.getProp packagesData "result");
           let packageIds := Js.orEmptyArray result in
           items ← lift (Js.iterate "packageIds" packageIds);
           probePackages items
       end)
      (fun error => Ret null).

(** The callback of the fallback [filter] in [queryContracts]:
    [templateId.includes(name)] on [c.templateId || ''].  A string tests
    for the substring, an array for the element, nothing else has
    [includes]. *)
Definition valueIncludes (v : JSON) (name : string) : Exc bool :=
  match v with
  | JStr s => inr (Js.includes s name)
  | JArr items =>
      inr (existsb (fun x => match x with
                             | JStr s => String.eqb s name
                             | _ => false
                             end) items)
  | _ => inl (TypeError "templateId.includes is not a function")
  end.

(** [a || b] where both sides may throw and [b] is only evaluated when
    [a] is false. *)
Definition orElse (a b : Exc bool) : Exc bool :=
  match a with
  | inl e => inl e
  | inr true => inr true
  | inr false => b
  end.

Definition isKnownTemplate (c : JSON) : Exc bool :=
  match Js.getProp c "templateId" with
  | inl e => inl e
  | inr t =>
      let templateId := Js.orEmptyString t in
      orElse (valueIncludes templateId "SimpleToken")
        (orElse (valueIncludes templateId "Escrow")
           (valueIncludes templateId "CollateralLock"))
  end.

Fixpoint filterItems (pred : JSON -> Exc bool) (items : list JSON) : Exc (list JSON) :=
  match items with
  | [] => inr []
  | x :: rest =>
      match pred x with
      | inl e => inl e
      | inr keep =>
          match filterItems pred rest with
          | inl e => inl e
          | inr kept => inr (if keep then x :: kept else kept)
          end
      end
  end.

(** [v.filter(pred)], where the source writes [v] as [what]: only an array
    has [filter]. *)
Definition filter (what : string) (pred : JSON -> Exc bool) (v : JSON)
  : Exc (list JSON) :=
  match v with
  | JArr items => filterItems pred items
  | _ => inl (TypeError (what ++ ".filter is not a function"))
  end.

(** [{ result: [] }] *)
Definition emptyResult : JSON := JObj [("result", JArr [])].

(** [!templateIds || templateIds.length === 0] *)
Definition noTemplateIds (templateIds : option (list string)) : bool :=
  match templateIds with
  | None => true
  | Some [] => true
  | Some (_ :: _) => false
  end.

Definition isTemplateFormatText (error : string) : bool :=
  Js.includes error "templateIds" || Js.includes error "Package ID"
  || Js.includes error "Cannot resolve".

Definition queryContracts (templateIds : option (list string)) : Prog Session JSON :=
  tok ← read token;
  if negb (Js.truthyStr tok) then Throw NotAuthenticated
  else
    finalTemplateIds ←
      (if noTemplateIds templateIds
       then
         packageId ← findPackageId;
         if Js.truthy packageId
         then Ret [Js.toStringVal packageId ++ ":SimpleToken:SimpleToken";
                   Js.toStringVal packageId ++ ":Escrow:Escrow";
                   Js.toStringVal packageId ++ ":CollateralLock:CollateralLock"]
         else Ret []
       else Ret (default [] templateIds));
    auth ← authorization;
    response ← fetch (queryRequest auth finalTemplateIds);
    if negb (ok response)
    then
      error ← lift (text response);
      if isTemplateFormatText error
      then
        auth' ← authorization;
        fallbackResponse ← fetch (queryRequest auth' []);
        if ok fallbackResponse
        then
          allContracts ← lift (json fallbackResponse);
          result ← lift (Js.getProp allContracts "result");
          kept ← lift (filter "(allContracts.result || [])" isKnownTemplate
                         (Js.orEmptyArray result));
          Ret (JObj [("result", JArr kept)])
        else Ret emptyResult
      else Throw (mkError ("Query failed: " ++ error))
    else lift (json response).

Definition createRequest (auth : string * string) (templateId : string) (payload : JSON)
  : Request :=
  {| url := API_BASE_URL ++ "/create";
     method := "POST";
     headers := [contentType; auth];
     body := Some (JObj [("templateId", JStr templateId); ("payload", payload)]) |}.

Definition createContract (templateId : string) (payload : JSON) : Prog Session JSON :=
  tok ← read token;
  if negb (Js.truthyStr tok) then Throw NotAuthenticated
  else
    auth ← authorization;
    response ← fetch (createRequest auth templateId payload);
    if negb (ok response)
    then
      error ← lift (text response);
      Throw (mkError ("Create failed: " ++ error))
    else lift (json response).

(** [amount.toString()] *)
Definition amountToString (amount : JsVal) : Exc string :=
  match amount with
  | None => inl (TypeError "Cannot read properties of undefined (reading 'toString')")
  | Some JNull => inl (TypeError "Cannot read properties of null (reading 'toString')")
  | Some j => inr (Js.toString j)
  end.

(** [{ issuer, owner, amount: amount.toString() }] *)
Definition tokenPayload (issuer owner amount : JsVal) : Exc JSON :=
  match amountToString amount with
  | inl e => inl e
  | inr rendered =>
      inr (JObj (object [("issuer", issuer); ("owner", owner);
                         ("amount", Some (JStr rendered))]))
  end.

(** [errorMsg.includes('Cannot resolve') || errorMsg.includes('unknownTemplateIds')]
    on [err.message || '']. *)
Definition isResolutionError (err : Error) : bool := isResolutionText (message err).

(** [Number(v)], as the subtraction in [packageIds.length - 1] converts
    its operand; [None] is [NaN]. *)
Definition toNumber (v : JsVal) : option Z :=
  match v with
  | None => None
  | Some JNull => Some 0
  | Some (JBool b) => Some (if b then 1 else 0)
  | Some (JNum n) => Some n
  | Some j => Number_ofString (Js.toString j)
  end.

(** The values [i] takes in
    [for (let i = packageIds.length - 1; i >= 0; i--)], given the length
    read. *)
Definition countdown (len : JsVal) : list Z :=
  match toNumber len with
  | Some n => Z.of_nat <$> rev (seq 0 (Z.to_nat n))
  | None => []
  end.

(** [pkgId.substring(0, 16)], evaluated for the log line. *)
Definition substring16 (pkgId : JsVal) : Exc string :=
  match pkgId with
  | Some (JStr s) => inr (String.substring 0 16 s)
  | Some JNull => inl (TypeError "Cannot read properties of null (reading 'substring')")
  | None => inl (TypeError "Cannot read properties of undefined (reading 'substring')")
  | Some _ => inl (TypeError "pkgId.substring is not a function")
  end.

(** The error thrown after the loop; [len] is [packageIds.length]. *)
Definition triedAll (len : JsVal) : Error :=
  mkError ("Tried all " ++ Js.toStringVal len
           ++ " packages but none contained SimpleToken template. "
           ++ "The DAR file might not be uploaded correctly. "
           ++ "Try running: daml ledger upload-dar --host localhost --port 6865 .daml/dist/hello-canton-0.0.1.dar").

(** The loop of [createSimpleToken], over the values of [i] in the order it
    takes them; [None] is falling out of the loop. *)
Fixpoint tryPackages (issuer owner amount : JsVal) (packageIds : JSON) (indices : list Z)
  : Prog Session (option JSON) :=
  match indices with
  | [] => Ret None
  | i :: rest =>
      pkgId ← lift (Js.item packageIds i);
      attempt ← tryCatch
                  (let templateId := simpleTokenTemplate (Js.toStringVal pkgId) in
                   payload ← lift (tokenPayload issuer owner amount);
                   result ← createContract templateId payload;
                   Storage.setItem "daml_package_id" (Js.toStringVal pkgId);;
                   _ ← lift (substring16 pkgId);
                   Ret (Some result))
                  (fun err =>
                     if isResolutionError err then Ret None else Throw err);
      match attempt with
      | Some result => Ret (Some result)
      | None => tryPackages issuer owner amount packageIds rest
      end
  end.

(** The block under [if (!packageId)] of [createSimpleToken]: the package
    list is fetched and tried from its last element to its first. *)
Definition tryAllPackages (issuer owner amount : JsVal) : Prog Session JSON :=
  packagesData ← getPackages;
  result ← lift (Js.getProp packagesData "result");
  let packageIds := Js.orEmptyArray result in
  len ← lift (Js.lengthOf packageIds);
  found ← tryPackages issuer owner amount packageIds (countdown len);
  match found with
  | Some result => Ret result
  | None => Throw (triedAll len)
  end.

Definition createSimpleToken (issuer owner amount : JsVal) : Prog Session JSON :=
  tok ← read token;
  if negb (Js.truthyStr tok) then Throw NotAuthenticated
  else
    packageId ← findPackageId;
    first ← (if Js.truthy packageId
             then
               tryCatch
                 (let templateId := simpleTokenTemplate (Js.toStringVal packageId) in
                  payload ← lift (tokenPayload issuer owner amount);
                  result ← createContract templateId payload;
                  Ret (Some result))
                 (fun err =>
                    if isResolutionError err
                    then Storage.removeItem "daml_package_id";; Ret None
                    else Throw err)
             else Ret None);
    match first with
    | Some result => Ret result
    | None => tryAllPackages issuer owner amount
    end.

Definition exerciseChoice (contractId choice : string) (argument : JsVal)
  : Prog Session JSON :=
  tok ← read token;
  if negb (Js.truthyStr tok) then Throw NotAuthenticated
  else
    auth ← authorization;
    response ← fetch {| url := API_BASE_URL ++ "/exercise";
                        method := "POST";
                        headers := [contentType; auth];
                        body := Some (JObj (object [("contractId", Some (JStr contractId));
                                                    ("choice", Some (JStr choice));
                                                    ("argument", argument)])) |};
    if negb (ok response)
    then
      error ← lift (text response);
      Throw (mkError ("Exercise failed: " ++ error))
    else lift (json response).

Definition isAuthenticated : Prog Session bool := read (fun s => Js.truthyStr (token s)).
Definition getUserId : Prog Session (option string) := read userId.

End WithHost.
End DamlApi.

(* ===================================================================== *)
(** ** The dashboard component                                            *)
(* ===================================================================== *)

(** The component state of [App] that the fetch routines touch. *)
Record View : Type := mkView {
  user : option string;
  loading : bool;
  error : option string;
  simpleTokens : JSON;
  escrows : JSON;
  collateralLocks : JSON;
}.

Record State : Type := mkState {
  session : Session;
  view : View;
}.

(** The three contract collections, which is what the list views render. *)
Definition collections (v : View) : JSON * JSON * JSON :=
  (simpleTokens v, escrows v, collateralLocks v).

Module Component.
(** A call into the [damlApi] singleton from the component. *)
Definition api {A} (p : Prog Session A) : Prog State A :=
  embed session (fun se st => mkState se (view st)) p.

Definition setView (f : View -> View) : Prog State unit :=
  update (fun st => mkState (session st) (f (view st))).

Definition setLoading (b : bool) : Prog State unit :=
  setView (fun v => mkView (user v) b (error v)
                      (simpleTokens v) (escrows v) (collateralLocks v)).

Definition setError (e : option string) : Prog State unit :=
  setView (fun v => mkView (user v) (loading v) e
                      (simpleTokens v) (escrows v) (collateralLocks v)).

Definition setSimpleTokens (c : JSON) : Prog State unit :=
  setView (fun v => mkView (user v) (loading v) (error v)
                      c (escrows v) (collateralLocks v)).

Definition setEscrows (c : JSON) : Prog State unit :=
  setView (fun v => mkView (user v) (loading v) (error v)
                      (simpleTokens v) c (collateralLocks v)).

Definition setCollateralLocks (c : JSON) : Prog State unit :=
  setView (fun v => mkView (user v) (loading v) (error v)
                      (simpleTokens v) (escrows v) c).

(** [useState] initial values. *)
Definition initialView : View := mkView None false None (JArr []) (JArr []) (JArr []).

Definition setUser (u : option string) : Prog State unit :=
  setView (fun v => mkView u (loading v) (error v)
                      (simpleTokens v) (escrows v) (collateralLocks v)).
End Component.

(** An [async] function that runs up to [await Promise.all(tasks)]: either
    it has returned before reaching it, or it has created the tasks and
    waits with the rest of its body. *)
Inductive Suspended (S : Type) : Type :=
| Finished
| AwaitAll (tasks : list (Prog S JSON)) (k : Exc (list JSON) -> Prog S unit).
Arguments Finished {S}.
Arguments AwaitAll {S} tasks k.

(** [frontend/src/App.js]: three queries in parallel. *)
Module App.
Section WithHost.
Context `{Host}.
Import Component.

(** [.catch(() => ({ result: [] }))] *)
Definition orEmpty (query : Prog State JSON) : Prog State JSON :=
  tryCatch query (fun _ => Ret DamlApi.emptyResult).

(** The three calls, in array order. *)
Definition calls : list (Prog State JSON) :=
  [ api (DamlApi.queryContracts (Some ["SimpleToken:SimpleToken"]));
    api (DamlApi.queryContracts (Some ["Escrow:Escrow"]));
    api (DamlApi.queryContracts (Some ["CollateralLock:CollateralLock"])) ].

(** The array handed to [Promise.all]: each call with its [.catch]. *)
Definition queries : list (Prog State JSON) := orEmpty <$> calls.

(** The destructuring assignment and the three setters. *)
Definition showResults (results : list JSON) : Prog State unit :=
  let tokensResult := results !! 0%nat in
  let escrowsResult := results !! 1%nat in
  let locksResult := results !! 2%nat in
  tokens ← lift (DamlApi.getPropVal tokensResult "result");
  setSimpleTokens (Js.orEmptyArray tokens);;
  escrows ← lift (DamlApi.getPropVal escrowsResult "result");
  setEscrows (Js.orEmptyArray escrows);;
  locks ← lift (DamlApi.getPropVal locksResult "result");
  setCollateralLocks (Js.orEmptyArray locks).

(** The rest of the body, once [Promise.all] has settled. *)
Definition resume (settled : Exc (list JSON)) : Prog State unit :=
  tryCatch (results ← lift settled; showResults results)
           (fun err => setError (Some (message err)));;
  setLoading false.

Definition fetchAllContracts : Prog State (Suspended State) :=
  authed ← api DamlApi.isAuthenticated;
  if negb authed then Ret Finished
  else
    setLoading true;;
    setError None;;
    Ret (AwaitAll queries resume).

(** The effect run when the component mounts; the fetch it starts is not
    awaited. *)
Definition mount : Prog State (Suspended State) :=
  authed ← api DamlApi.isAuthenticated;
  if (authed : bool)
  then (uid ← api DamlApi.getUserId;
        setUser uid;;
        fetchAllContracts)
  else Ret Finished.

(** The Logout button. *)
Definition logout : Prog State unit :=
  api DamlApi.logout;;
  setUser None;;
  setSimpleTokens (JArr []);;
  setEscrows (JArr []);;
  setCollateralLocks (JArr []);;
  setError None.
End WithHost.
End App.

(** The revision of the component with the Clear Cache button and the
    token form: one query, split by template name on the client. *)
Module AppRevised.
Section WithHost.
Context `{Host}.
Import Component.

(** [templateId.endsWith(suffix)]: only a string has [endsWith]. *)
Definition valueEndsWith (v : JSON) (suffix : string) : Exc bool :=
  match v with
  | JStr s => inr (Js.endsWith s suffix)
  | _ => inl (TypeError "templateId.endsWith is not a function")
  end.

(** The callback of each of the three [filter] calls. *)
Definition isTemplate (name : string) (c : JSON) : Exc bool :=
  match Js.getProp c "templateId" with
  | inl e => inl e
  | inr t =>
      let templateId := Js.orEmptyString t in
      DamlApi.orElse (DamlApi.valueIncludes templateId name)
                     (valueEndsWith templateId (":" ++ name))
  end.

(** The three [filter] calls over the one list, in source order. *)
Definition splitByTemplate (allContracts : JSON)
  : Exc (list JSON * list JSON * list JSON) :=
  match DamlApi.filter "allContracts" (isTemplate "SimpleToken:SimpleToken") allContracts with
  | inl e => inl e
  | inr tokens =>
      match DamlApi.filter "allContracts" (isTemplate "Escrow:Escrow") allContracts with
      | inl e => inl e
      | inr escrows =>
          match DamlApi.filter "allContracts" (isTemplate "CollateralLock:CollateralLock")
                  allContracts with
          | inl e => inl e
          | inr locks => inr (tokens, escrows, locks)
          end
      end
  end.

(** [.catch(() => ({ result: [] }))] on the one query. *)
Definition queryAll : Prog Session JSON :=
  tryCatch (DamlApi.queryContracts (Some [])) (fun _ => Ret DamlApi.emptyResult).

Definition fetchAllContracts : Prog State unit :=
  authed ← api DamlApi.isAuthenticated;
  if negb authed then Ret tt
  else
    setLoading true;;
    setError None;;
    tryCatch
      (allContractsResult ← api queryAll;
       result ← lift (Js.getProp allContractsResult "result");
       let allContracts := Js.orEmptyArray result in
       '(tokens, escrows, locks) ← lift (splitByTemplate allContracts);
       setSimpleTokens (Js.orEmptyArray (Some (JArr tokens)));;
       setEscrows (Js.orEmptyArray (Some (JArr escrows)));;
       setCollateralLocks (Js.orEmptyArray (Some (JArr locks))))
      (fun err => setError (Some (message err)));;
    setLoading false.

(** The Refresh button. *)
Definition refresh : Prog State unit := fetchAllContracts.

(** The Clear Cache button. *)
Definition clearCache : Prog State unit :=
  api (Storage.removeItem "daml_package_id");;
  fetchAllContracts.

(** The login buttons: [try { ... } catch (err) { ... } finally { ... }]. *)
Definition login (userId : string) : Prog State unit :=
  setLoading true;;
  setError None;;
  tryCatch
    (api (DamlApi.login userId);;
     setUser (Some userId);;
     fetchAllContracts)
    (fun err => setError (Some (message err)));;
  setLoading false.

(** The Logout button. *)
Definition logout : Prog State unit :=
  api DamlApi.logout;;
  setUser None;;
  setSimpleTokens (JArr []);;
  setEscrows (JArr []);;
  setCollateralLocks (JArr []);;
  setError None.

(** The component state with the token form: whether the form is shown,
    and the [createTokenForm] fields [owner] and [amount]. *)
Record Dashboard : Type := mkDashboard {
  app : State;
  showCreateToken : bool;
  createTokenForm : string * string;
}.

(** Code of the component that does not touch the form. *)
Definition inApp {A} (p : Prog State A) : Prog Dashboard A :=
  embed app (fun st d => mkDashboard st (showCreateToken d) (createTokenForm d)) p.

Definition setShowCreateToken (b : bool) : Prog Dashboard unit :=
  update (fun d => mkDashboard (app d) b (createTokenForm d)).

Definition setCreateTokenForm (form : string * string) : Prog Dashboard unit :=
  update (fun d => mkDashboard (app d) (showCreateToken d) form).

(** The Create Token / Cancel button of the controls. *)
Definition toggleCreateToken : Prog Dashboard unit :=
  shown ← read showCreateToken;
  setShowCreateToken (negb shown).

(** The message shown for a failed create: a hint is added to two of
    them. *)
Definition submitError (err : Error) : string :=
  let errorMsg := message err in
  if Js.includes errorMsg "Could not find the correct package ID"
     || Js.includes errorMsg "DAR file is not uploaded"
  then errorMsg ++ " Try running `daml start` in your terminal to upload the DAR file."
  else errorMsg.

(** The form's [onSubmit], called with [formData.issuer], [formData.owner]
    and [formData.amount]. *)
Definition onSubmit (issuer owner amount : JsVal) : Prog Dashboard unit :=
  inApp (setLoading true);;
  inApp (setError None);;
  tryCatch
    (inApp (api (DamlApi.createSimpleToken issuer owner amount));;
     setShowCreateToken false;;
     setCreateTokenForm ("", "");;
     inApp fetchAllContracts)
    (fun err => inApp (setError (Some (submitError err))));;
  inApp (setLoading false).

(** The form's [onCancel]. *)
Definition onCancel : Prog Dashboard unit :=
  setShowCreateToken false;;
  setCreateTokenForm ("", "").
End WithHost.
End AppRevised.

(* ===================================================================== *)
(** ** The token form of the revised component                            *)
(* ===================================================================== *)

Module TokenForm.

(** The state of [CreateTokenForm], with the [localStorage] its effect
    reads. *)
Record Form : Type := mkForm {
  storage : gmap string string;
  owner : string;
  amount : string;
  submitting : bool;
  parties : JSON;
  loadingParties : bool;
}.

(** [useState] initial values. *)
Definition initial (stored : gmap string string) : Form :=
  mkForm stored "" "" false (JArr []) true.

Definition setParties (p : JSON) : Prog Form unit :=
  update (fun f => mkForm (storage f) (owner f) (amount f) (submitting f) p
                     (loadingParties f)).

Definition setLoadingParties (b : bool) : Prog Form unit :=
  update (fun f => mkForm (storage f) (owner f) (amount f) (submitting f) (parties f) b).

Definition setSubmitting (b : bool) : Prog Form unit :=
  update (fun f => mkForm (storage f) (owner f) (amount f) b (parties f)
                     (loadingParties f)).

(** The request of the mount effect: the path is a literal, the method is
    [fetch]'s default, and the token is the stored one. *)
Definition partiesRequest (stored : option string) : Request :=
  {| url := "/v1/parties";
     method := "GET";
     headers := [("Authorization", "Bearer " ++ Js.toStringNullable stored)];
     body := None |}.

Definition fetchParties : Prog Form unit :=
  tryCatch
    (stored ← read (fun f => storage f !! "daml_token");
     response ← fetch (partiesRequest stored);
     if ok response
     then
       data ← lift (json response);
       result ← lift (Js.getProp data "result");
       setParties (Js.orEmptyArray result)
     else Ret tt)
    (fun _ => Ret tt);;
  setLoadingParties false.

Section Submit.
(** The dashboard the form is rendered in, next to the form itself. *)
Context {S : Type}.
Variable parseFloat : string -> JsVal.
Variable onSubmit : JsVal -> JsVal -> JsVal -> Prog S unit.

Definition inForm {A} (p : Prog Form A) : Prog (S * Form) A :=
  embed snd (fun f st => (st.1, f)) p.

Definition inDashboard {A} (p : Prog S A) : Prog (S * Form) A :=
  embed fst (fun d st => (d, st.2)) p.

(** [handleSubmit]; the result is the text it alerts, if it does. *)
Definition handleSubmit (partyIdentifier : JsVal) : Prog (S * Form) (option string) :=
  formOwner ← inForm (read owner);
  formAmount ← inForm (read amount);
  if String.eqb formOwner "" || String.eqb formAmount ""
  then Ret (Some "Please fill in all fields")
  else
    inForm (setSubmitting true);;
    tryCatch
      (inDashboard (onSubmit partyIdentifier (Some (JStr formOwner))
                      (parseFloat formAmount)))
      (fun _ => Ret tt);;
    inForm (setSubmitting false);;
    Ret None.
End Submit.

End TokenForm.

(* ===================================================================== *)
(** ** The earlier client: a login endpoint and a fixed gateway           *)
(* ===================================================================== *)

Module Legacy.

Definition API_BASE_URL : string := "http://localhost:7575/v1".

(** The singleton's fields with [localStorage].  The token is whatever the
    login answer carried. *)
Record Session : Type := mkSession {
  token : JsVal;
  userId : option string;
  localStorage : gmap string string;
}.

Definition constructor (stored : gmap string string) : Session :=
  {| token := match stored !! "daml_token" with
              | Some t => Some (JStr t)
              | None => null
              end;
     userId := stored !! "daml_user_id";
     localStorage := stored |}.

Definition setItem (key value : string) : Prog Session unit :=
  update (fun s => mkSession (token s) (userId s) (<[key := value]> (localStorage s))).

Definition removeItem (key : string) : Prog Session unit :=
  update (fun s => mkSession (token s) (userId s) (delete key (localStorage s))).

Definition contentType : string * string := ("Content-Type", "application/json").

Definition loginRequest (userIdArg : string) : Request :=
  {| url := API_BASE_URL ++ "/auth/login";
     method := "POST";
     headers := [contentType];
     body := Some (JObj [("userId", JStr userIdArg)]) |}.

Definition login (userIdArg : string) : Prog Session JsVal :=
  tryCatch
    (response ← fetch (loginRequest userIdArg);
     if negb (ok response)
     then
       error ← lift (text response);
       Throw (mkError ("Login failed: " ++ error))
     else
       data ← lift (json response);
       received ← lift (Js.getProp data "token");
       update (fun s => mkSession received (userId s) (localStorage s));;
       update (fun s => mkSession (token s) (Some userIdArg) (localStorage s));;
       tok ← read token;
       setItem "daml_token" (Js.toStringVal tok);;
       uid ← read userId;
       setItem "daml_user_id" (Js.toStringNullable uid);;
       read token)
    (fun error => Throw error).

Definition logout : Prog Session unit :=
  update (fun s => mkSession null (userId s) (localStorage s));;
  update (fun s => mkSession (token s) None (localStorage s));;
  removeItem "daml_token";;
  removeItem "daml_user_id".

Definition NotAuthenticated : Error := mkError "Not authenticated".

(** One request under the bearer, and the answer read the same way in all
    three operations. *)
Definition request (path : string) (tok : JsVal) (fields : list (string * JsVal))
  : Request :=
  {| url := API_BASE_URL ++ path;
     method := "POST";
     headers := [contentType; ("Authorization", "Bearer " ++ Js.toStringVal tok)];
     body := Some (JObj (DamlApi.object fields)) |}.

Definition queryContracts (templateIds : JsVal) : Prog Session JSON :=
  tok ← read token;
  if negb (Js.truthy tok) then Throw NotAuthenticated
  else
    tok' ← read token;
    response ← fetch (request "/query" tok' [("templateIds", templateIds)]);
    if negb (ok response)
    then
      error ← lift (text response);
      Throw (mkError ("Query failed: " ++ error))
    else lift (json response).

Definition createContract (templateId payload : JsVal) : Prog Session JSON :=
  tok ← read token;
  if negb (Js.truthy tok) then Throw NotAuthenticated
  else
    tok' ← read token;
    response ← fetch (request "/create" tok'
                        [("templateId", templateId); ("payload", payload)]);
    if negb (ok response)
    then
      error ← lift (text response);
      Throw (mkError ("Create failed: " ++ error))
    else lift (json response).

Definition exerciseChoice (contractId choice argument : JsVal) : Prog Session JSON :=
  tok ← read token;
  if negb (Js.truthy tok) then Throw NotAuthenticated
  else
    tok' ← read token;
    response ← fetch (request "/exercise" tok'
                        [("contractId", contractId); ("choice", choice);
                         ("argument", argument)]);
    if negb (ok response)
    then
      error ← lift (text response);
      Throw (mkError ("Exercise failed: " ++ error))
    else lift (json response).

Definition isAuthenticated : Prog Session bool := read (fun s => Js.truthy (token s)).
Definition getUserId : Prog Session (option string) := read userId.

End Legacy.

(* ===================================================================== *)
(** ** Promise.all: tasks in flight together                              *)
(* ===================================================================== *)

Module Parallel.

(** A task between two turns of the event loop: waiting for the answer to
    the request it has sent, or settled. *)
Inductive Slot (S A : Type) : Type :=
| Waiting (k : Exc Response -> Prog S A)
| Settled (o : Outcome A).
Arguments Waiting {S A} k.
Arguments Settled {S A} o.

Definition isSettled {S A} (slot : Slot S A) : bool :=
  match slot with
  | Settled _ => true
  | Waiting _ => false
  end.

(** The requests sent, oldest first, each with the task that sent it. *)
Definition Log : Type := list (nat * Request).

(** A task runs without interruption up to its next [await fetch]. *)
Fixpoint advance {S A} (now : Z) (who : nat) (p : Prog S A) (s : S) (sent : Log)
  : Slot S A * S * Log :=
  match p with
  | Ret a => (Settled (Returned a), s, sent)
  | Throw e => (Settled (Thrown e), s, sent)
  | Fetch req k => (Waiting k, s, (sent ++ [(who, req)])%list)
  | Read k => advance now who (k s) s sent
  | Update f k => advance now who k (f s) sent
  | DateNow k => advance now who (k now) s sent
  end.

(** The tasks of one [Promise.all], the state they share and what they
    have sent. *)
Record Pool (S : Type) : Type := mkPool {
  state : S;
  sent : Log;
  slots : list (Slot S JSON);
}.
Arguments mkPool {S} state sent slots.
Arguments state {S} p.
Arguments sent {S} p.
Arguments slots {S} p.

(** Creating the tasks: each runs to its first [await], in array order. *)
Fixpoint spawn {S} (now : Z) (tasks : list (Prog S JSON)) (pool : Pool S) : Pool S :=
  match tasks with
  | [] => pool
  | task :: rest =>
      let '(slot, s, log) := advance now (length (slots pool)) task (state pool) (sent pool) in
      spawn now rest (mkPool s log (slots pool ++ [slot]))
  end.

(** The answer to the request of task [who] arrives. *)
Definition deliver {S} (now : Z) (who : nat) (r : Exc Response) (pool : Pool S) : Pool S :=
  match slots pool !! who with
  | Some (Waiting k) =>
      let '(slot, s, log) := advance now who (k r) (state pool) (sent pool) in
      mkPool s log (<[who := slot]> (slots pool))
  | _ => pool
  end.

Definition Event : Type := nat * Exc Response.

Definition Pool_run {S} (now : Z) (events : list Event) (pool : Pool S) : Pool S :=
  fold_left (fun p ev => deliver now ev.1 ev.2 p) events pool.

(** The function that awaits the tasks: still waiting with the rest of its
    body, or resumed. *)
Inductive Main (S : Type) : Type :=
| Gathering (k : Exc (list JSON) -> Prog S unit)
| Resumed (slot : Slot S unit).
Arguments Gathering {S} k.
Arguments Resumed {S} slot.

Record Config (S : Type) : Type := mkConfig {
  pool : Pool S;
  main : Main S;
}.
Arguments mkConfig {S} pool main.
Arguments pool {S} c.
Arguments main {S} c.

(** The first rejection among the tasks, if any. *)
Fixpoint firstRejection {S} (l : list (Slot S JSON)) : option Error :=
  match l with
  | [] => None
  | Settled (Thrown e) :: _ => Some e
  | _ :: rest => firstRejection rest
  end.

(** The results when every task has resolved. *)
Fixpoint allResolved {S} (l : list (Slot S JSON)) : option (list JSON) :=
  match l with
  | [] => Some []
  | Settled (Returned r) :: rest => cons r <$> allResolved rest
  | _ => None
  end.

(** [Promise.all] settles: it rejects with the first rejection, resolves
    once every task has resolved, and the awaiting function then resumes
    before anything else is delivered. *)
Definition gather {S} (now : Z) (c : Config S) : Config S :=
  match main c with
  | Gathering k =>
      let resume (settled : Exc (list JSON)) :=
        let '(slot, s, log) :=
          advance now (length (slots (pool c))) (k settled)
                  (state (pool c)) (sent (pool c)) in
        mkConfig (mkPool s log (slots (pool c))) (Resumed slot) in
      match firstRejection (slots (pool c)) with
      | Some e => resume (inl e)
      | None =>
          match allResolved (slots (pool c)) with
          | Some results => resume (inr results)
          | None => c
          end
      end
  | Resumed _ => c
  end.

(** The call itself: the function body up to [Promise.all].  The bodies
    started here ([fetchAllContracts], the mount effect) neither throw nor
    fetch before they reach it; one that returns early has nothing to wait
    for. *)
Definition start {S} (now : Z) (f : Prog S (Suspended S)) (s : S) : Config S :=
  match advance now 0 f s [] with
  | (Settled (Returned (AwaitAll tasks k)), s', log) =>
      gather now (mkConfig (spawn now tasks (mkPool s' log [])) (Gathering k))
  | (_, s', log) =>
      mkConfig (mkPool s' log []) (Resumed (Settled (Returned tt)))
  end.

Definition step {S} (now : Z) (c : Config S) (ev : Event) : Config S :=
  if decide (ev.1 = length (slots (pool c)))
  then
    match main c with
    | Resumed (Waiting k) =>
        let '(slot, s, log) :=
          advance now ev.1 (k ev.2) (state (pool c)) (sent (pool c)) in
        mkConfig (mkPool s log (slots (pool c))) (Resumed slot)
    | _ => c
    end
  else gather now (mkConfig (deliver now ev.1 ev.2 (pool c)) (main c)).

Definition run_events {S} (now : Z) (events : list Event) (c : Config S) : Config S :=
  fold_left (step now) events c.

(** Some task is still pending. *)
Definition pending {S} (c : Config S) : bool :=
  negb (forallb isSettled (slots (pool c))).

End Parallel.

(** A task that never rejects and leaves the component state alone. *)
Fixpoint Quiet {A} (p : Prog State A) : Prop :=
  match p with
  | Ret _ => True
  | Throw _ => False
  | Fetch _ k => forall r, Quiet (k r)
  | Read k => forall s, Quiet (k s)
  | Update f k => (forall s, view (f s) = view s) /\ Quiet k
  | DateNow k => forall t, Quiet (k t)
  end.

Definition QuietSlot {A} (slot : Parallel.Slot State A) : Prop :=
  match slot with
  | Parallel.Waiting k => forall r, Quiet (k r)
  | Parallel.Settled (Returned _) => True
  | Parallel.Settled (Thrown _) => False
  end.

(** A task of [App.calls] seen through its [.catch]. *)
Definition caught `{Host} (slot : Parallel.Slot State JSON) : Parallel.Slot State JSON :=
  match slot with
  | Parallel.Waiting k => Parallel.Waiting (fun r => App.orEmpty (k r))
  | Parallel.Settled (Returned r) => Parallel.Settled (Returned r)
  | Parallel.Settled (Thrown _) => Parallel.Settled (Returned DamlApi.emptyResult)
  end.

Definition caughtPool `{Host} (p : Parallel.Pool State) : Parallel.Pool State :=
  Parallel.mkPool (Parallel.state p) (Parallel.sent p) (caught <$> Parallel.slots p).

(** What the dashboard lists for a query: nothing when it rejected, its
    [result] (or nothing, when it has none) when it resolved. *)
Definition shown (o : Outcome JSON) : JSON :=
  match o with
  | Thrown _ => JArr []
  | Returned r =>
      match Js.getProp r "result" with
      | inr result => Js.orEmptyArray result
      | inl _ => JArr []
      end
  end.

(** A query that resolved to [null]: there is no [result] to read. *)
Definition unreadable (o : Outcome JSON) : bool :=
  match o with
  | Returned JNull => true
  | _ => false
  end.

(** The message of the [TypeError] that reading [null.result] throws. *)
Definition nullResult : string := "Cannot read properties of null (reading 'result')".

(** The view once the three queries have settled with [o0], [o1] and [o2]
    and the body has run to its end, [v] being the view when the fetch was
    started: the collections are set in order, each to what its own query
    gave; a query that resolved to [null] ends the updates, the collections
    from its own on keep their contents and the error is shown. *)
Definition settledView (v : View) (o0 o1 o2 : Outcome JSON) : View :=
  if unreadable o0
  then mkView (user v) false (Some nullResult)
         (simpleTokens v) (escrows v) (collateralLocks v)
  else if unreadable o1
  then mkView (user v) false (Some nullResult)
         (shown o0) (escrows v) (collateralLocks v)
  else if unreadable o2
  then mkView (user v) false (Some nullResult)
         (shown o0) (shown o1) (collateralLocks v)
  else mkView (user v) false None (shown o0) (shown o1) (shown o2).

(** The outcome of task [i], once it has settled. *)
Definition outcomeOf (p : Parallel.Pool State) (i : nat) : option (Outcome JSON) :=
  match Parallel.slots p !! i with
  | Some (Parallel.Settled o) => Some o
  | _ => None
  end.

(** The tasks that have settled, by index. *)
Definition settledTasks (c : Parallel.Config State) : list nat :=
  List.filter (fun i => match outcomeOf (Parallel.pool c) i with
                        | Some _ => true
                        | None => false
                        end)
              (seq 0 (length (Parallel.slots (Parallel.pool c)))).

(** Some task is still pending. *)
Definition pendingPool (p : Parallel.Pool State) : bool :=
  negb (forallb Parallel.isSettled (Parallel.slots p)).

(** The component state once [fetchAllContracts] is past its guard:
    [setLoading(true); setError(null)]. *)
Definition fetching (st : State) : State :=
  mkState (session st)
    (mkView (user (view st)) true None
       (simpleTokens (view st)) (escrows (view st)) (collateralLocks (view st))).

(* ===================================================================== *)
(** ** Properties of a call, read off its resumption                      *)
(* ===================================================================== *)

(** Every path of [p], started where [I] holds, keeps [I] and sends only
    requests satisfying [Q]. *)
Fixpoint Safe {S A} (I : S -> Prop) (Q : Request -> Prop) (p : Prog S A) : Prop :=
  match p with
  | Ret _ => True
  | Throw _ => True
  | Fetch req k => Q req /\ forall r, Safe I Q (k r)
  | Read k => forall s, I s -> Safe I Q (k s)
  | Update f k => (forall s, I s -> I (f s)) /\ Safe I Q k
  | DateNow k => forall t, Safe I Q (k t)
  end.

(** Every path of [p], started where [I] holds, sends a request. *)
Fixpoint Sends {S A} (I : S -> Prop) (p : Prog S A) : Prop :=
  match p with
  | Ret _ => False
  | Throw _ => False
  | Fetch _ _ => True
  | Read k => forall s, I s -> Sends I (k s)
  | Update f k => (forall s, I s -> I (f s)) /\ Sends I k
  | DateNow k => forall t, Sends I (k t)
  end.

(** No path of [p] ends in a throw. *)
Fixpoint NoThrow {S A} (p : Prog S A) : Prop :=
  match p with
  | Ret _ => True
  | Throw _ => False
  | Fetch _ k => forall r, NoThrow (k r)
  | Read k => forall s, NoThrow (k s)
  | Update _ k => NoThrow k
  | DateNow k => forall t, NoThrow (k t)
  end.

(** The four entries the client keeps in [localStorage]. *)
Definition sessionKeys : list string :=
  ["daml_token"; "daml_user_id"; "daml_party_identifier"].
Definition packageKey : string := "daml_package_id".

(** No entry under a key of [keys] present in [s0] is missing from [s]. *)
Definition Keeps (keys : list string) (s0 s : Session) : Prop :=
  forall k, In k keys -> is_Some (localStorage s0 !! k) -> is_Some (localStorage s !! k).

(** What a ledger operation leaves alone while it runs: the token it was
    called with and the stored entries under [keys]. *)
Definition Steady (keys : list string) (s0 s : Session) : Prop :=
  token s = token s0 /\ Keeps keys s0 s.

Section Endpoints.
Context `{Host}.

(** The gateway paths the client of [damlApi.js] addresses. *)
Definition gatewayUrls : list string :=
  (fun path => DamlApi.API_BASE_URL ++ path)
    <$> ["/parties"; "/query"; "/create"; "/exercise"; "/packages"].

(** A request of a ledger operation called in session [s0]: it carries
    that session's token as its bearer and goes to the gateway. *)
Definition Authorized (s0 : Session) (req : Request) : Prop :=
  In (DamlApi.bearer (Js.toStringNullable (token s0))) (headers req)
  /\ In (url req) gatewayUrls.
End Endpoints.

(* ===================================================================== *)
(** ** The client's operations, by name                                   *)
(* ===================================================================== *)

(** The ledger operations of [DamlApi]: the methods that begin with the
    [if (!this.token)] guard. *)
Inductive LedgerOp : Type :=
| QueryContracts (templateIds : option (list string))
| CreateContract (templateId : string) (payload : JSON)
| ExerciseChoice (contractId choice : string) (argument : JsVal)
| GetPackages
| CreateSimpleToken (issuer owner amount : JsVal).

Definition perform `{Host} (op : LedgerOp) : Prog Session JSON :=
  match op with
  | QueryContracts templateIds => DamlApi.queryContracts templateIds
  | CreateContract templateId payload => DamlApi.createContract templateId payload
  | ExerciseChoice contractId choice argument =>
      DamlApi.exerciseChoice contractId choice argument
  | GetPackages => DamlApi.getPackages
  | CreateSimpleToken issuer owner amount =>
      DamlApi.createSimpleToken issuer owner amount
  end.


(** The one ledger operation that can throw before it has sent anything
    although a token is held: [createSimpleToken] evaluates
    [amount.toString()] first. *)
Definition throwsBeforeSending (op : LedgerOp) : bool :=
  match op with
  | CreateSimpleToken _ _ amount =>
      match DamlApi.amountToString amount with
      | inl _ => true
      | inr _ => false
      end
  | _ => false
  end.

(* ===================================================================== *)
(** ** The package search of createSimpleToken, as its comments tell it   *)
(* ===================================================================== *)

(** How the search over the candidate packages ends. *)
Inductive Verdict : Type :=
| Found (candidate : string) (result : JSON)
| Failed (e : Error)
| Exhausted.

(** The outcome of one create attempt with [candidate]'s template, made
    when [sent] has been sent: the attempt sends the create request and
    nothing else. *)
Definition attempt `{Host} (env : Env) (s : Session) (payload : JSON)
    (candidate : string) (sent : list Request) : Outcome JSON :=
  (run env (DamlApi.createContract (DamlApi.simpleTokenTemplate candidate) payload)
       s sent).1.1.

Definition attemptRequest `{Host} (s : Session) (payload : JSON) (candidate : string)
  : Request :=
  DamlApi.createRequest (DamlApi.bearer (Js.toStringNullable (token s)))
    (DamlApi.simpleTokenTemplate candidate) payload.

(** Candidates are tried in the order given; the first create that succeeds
    ends the search, a template-resolution error moves on to the next
    candidate, any other error ends the search, and so does running out of
    candidates. *)
Inductive Discovery `{Host} (env : Env) (s : Session) (payload : JSON)
  : list string -> list Request -> Verdict -> list Request -> Prop :=
| discovery_exhausted sent :
    Discovery env s payload [] sent Exhausted sent
| discovery_found candidate rest sent result :
    attempt env s payload candidate sent = Returned result ->
    Discovery env s payload (candidate :: rest) sent (Found candidate result)
      (sent ++ [attemptRequest s payload candidate])
| discovery_failed candidate rest sent e :
    attempt env s payload candidate sent = Thrown e ->
    DamlApi.isResolutionError e = false ->
    Discovery env s payload (candidate :: rest) sent (Failed e)
      (sent ++ [attemptRequest s payload candidate])
| discovery_next candidate rest sent e verdict sent' :
    attempt env s payload candidate sent = Thrown e ->
    DamlApi.isResolutionError e = true ->
    Discovery env s payload rest (sent ++ [attemptRequest s payload candidate])
      verdict sent' ->
    Discovery env s payload (candidate :: rest) sent verdict sent'.

(** What [createSimpleToken] ends with for each verdict of the search over
    [candidates]. *)
Definition conclude `{Host} (s : Session) (candidates : list string) (verdict : Verdict)
  : Outcome JSON * Session :=
  match verdict with
  | Found candidate result => (Returned result, withItem "daml_package_id" candidate s)
  | Failed e => (Thrown e, s)
  | Exhausted =>
      (Thrown (DamlApi.triedAll (Some (JNum (Z.of_nat (length candidates))))), s)
  end.

(** Where the search starts from: the id [findPackageId] gave is absent, or
    the create with it failed with a template-resolution error, which also
    drops the stored id.  [None] when the create with it settled the call. *)
Definition afterFoundId `{Host} (env : Env) (payload : JSON) (packageId : JsVal)
    (s : Session) (sent : list Request) : option (Session * list Request) :=
  if Js.truthy packageId
  then
    match run env (DamlApi.createContract
                     (DamlApi.simpleTokenTemplate (Js.toStringVal packageId)) payload)
              s sent with
    | (Thrown e, s', sent') =>
        if DamlApi.isResolutionError e
        then Some (withoutItem "daml_package_id" s', sent')
        else None
    | (Returned _, _, _) => None
    end
  else Some (s, sent).


(* ===================================================================== *)
(** ** The search of findPackageId, as its comments tell it               *)
(* ===================================================================== *)





(* ===================================================================== *)
(** ** A browser and gateways for worked examples                         *)
(* ===================================================================== *)

Module Scenario.

Definition lowerChar (c : ascii) : ascii :=
  let n := nat_of_ascii c in
  if ((65 <=? n) && (n <=? 90))%nat then ascii_of_nat (n + 32) else c.

Fixpoint lower (s : string) : string :=
  match s with
  | EmptyString => EmptyString
  | String c rest => String (lowerChar c) (lower rest)
  end.

Definition alphabet : list ascii :=
  list_ascii_of_string
    "ABCDEFGHIJKLMNOPQRSTUVWXYZabcdefghijklmnopqrstuvwxyz0123456789+/".

Definition digit64 (n : nat) : ascii := nth n alphabet "A"%char.

Fixpoint base64 (bytes : list nat) : list ascii :=
  match bytes with
  | a :: b :: c :: rest =>
      digit64 (a / 4) :: digit64 ((a mod 4) * 16 + b / 16)
        :: digit64 ((b mod 16) * 4 + c / 64) :: digit64 (c mod 64)
        :: base64 rest
  | [a; b] =>
      [digit64 (a / 4); digit64 ((a mod 4) * 16 + b / 16);
       digit64 ((b mod 16) * 4); "="%char]
  | [a] => [digit64 (a / 4); digit64 ((a mod 4) * 16); "="%char; "="%char]
  | [] => []
  end%nat.

Definition encode64 (s : string) : string :=
  string_of_list_ascii (base64 (nat_of_ascii <$> list_ascii_of_string s)).

Definition doubleQuote : ascii := ascii_of_nat 34.

Fixpoint quoted (s : string) : string :=
  match s with
  | EmptyString => EmptyString
  | String c rest =>
      if Ascii.eqb c doubleQuote then String "\"%char (String c (quoted rest))
      else if Ascii.eqb c "\"%char then String "\"%char (String c (quoted rest))
      else String c (quoted rest)
  end.

Definition quote (s : string) : string :=
  String doubleQuote (quoted s ++ String doubleQuote EmptyString).

(** JSON text for values whose strings hold no control characters. *)
Fixpoint stringify (j : JSON) : string :=
  match j with
  | JNull => "null"
  | JBool true => "true"
  | JBool false => "false"
  | JNum n => pretty n
  | JStr s => quote s
  | JArr items =>
      "[" ++ Js.join ","
               ((fix each (l : list JSON) : list string :=
                   match l with
                   | [] => []
                   | x :: rest => stringify x :: each rest
                   end) items) ++ "]"
  | JObj fields =>
      "{" ++ Js.join ","
               ((fix each (l : list (string * JSON)) : list string :=
                   match l with
                   | [] => []
                   | (k, v) :: rest => (quote k ++ ":" ++ stringify v) :: each rest
                   end) fields) ++ "}"
  end.

Definition digitValue (c : ascii) : option Z :=
  let n := nat_of_ascii c in
  if ((48 <=? n) && (n <=? 57))%nat then Some (Z.of_nat (n - 48)) else None.

Fixpoint digitsValue (acc : Z) (s : string) : option Z :=
  match s with
  | EmptyString => Some acc
  | String c rest =>
      match digitValue c with
      | Some d => digitsValue (10 * acc + d) rest
      | None => None
      end
  end.

(** [Number(s)] for the texts of the examples: the empty string is 0, a run
    of decimal digits, signed or not, is its value, any other text is
    [NaN]. *)
Definition parseInteger (s : string) : option Z :=
  match s with
  | EmptyString => Some 0
  | String "-" (String c rest) => Z.opp <$> digitsValue 0 (String c rest)
  | String "+" (String c rest) => digitsValue 0 (String c rest)
  | _ => digitsValue 0 s
  end.

(** A browser with no [REACT_APP_API_URL] configured. *)
#[global] Instance browser : Host :=
  {| REACT_APP_API_URL := None;
     toLowerCase := lower;
     btoa := encode64;
     JSON_stringify := stringify;
     Number_ofString := parseInteger |}.

Definition respond (status : bool) (bodyText : string) (parsed : Exc JSON) : Exc Response :=
  inr (mkResponse status (inr bodyText) parsed).

Definition notJson : Exc JSON := inl (mkError "Unexpected token in JSON").

(** A gateway that cannot be reached. *)
Definition unreachable : Env :=
  mkEnv (fun _ _ => inl (mkError "Failed to fetch")) 0.

Definition loggedIn (tok : string) (storage : gmap string string) : Session :=
  mkSession (Some tok) (Some "alice") (Some (JStr "alice::1220")) storage.

Definition loggedOut : Session := mkSession None None null ∅.

(** A gateway answer carrying the object [value] as its JSON body. *)
Definition answer (status : bool) (value : Obj) : Exc Response :=
  respond status (stringify (JObj value)) (inr (JObj value)).

(** A gateway answer with status 200 whose body is the JSON text [null]. *)
Definition nullBody : Exc Response := respond true "null" (inr JNull).

(** A gateway answer whose body is plain text, not JSON. *)
Definition refuse (bodyText : string) : Exc Response :=
  respond false bodyText notJson.

Definition isBareQuery (req : Request) : bool :=
  match body req with
  | Some (JObj [(_, JArr [])]) => true
  | _ => false
  end.

(** A gateway that refuses every query with a server error, and lists one
    package. *)
Definition refusesQueries : Env :=
  mkEnv (fun _ req =>
           if String.eqb (url req) "/v1/packages"
           then answer true [("result", JArr [JStr "p1"])]
           else refuse "Internal server error")
        0.


(** A gateway whose package [holder] is the one with the template: a
    create names it or is turned down as unresolvable; queries are
    answered with no contracts. *)
Definition templateIn (packages : list string) (holder : string) : Env :=
  mkEnv (fun _ req =>
           if String.eqb (url req) "/v1/packages"
           then answer true [("result", JArr (JStr <$> packages))]
           else if String.eqb (url req) "/v1/create"
                then match body req with
                     | Some (JObj ((_, JStr templateId) :: _)) =>
                         if String.eqb templateId (holder ++ ":SimpleToken:SimpleToken")
                         then answer true [("result", JObj [("contractId", JStr "#7:0")])]
                         else refuse "Cannot resolve template ID"
                     | _ => refuse "Cannot resolve template ID"
                     end
                else answer true [("result", JArr [])])
        0.

(** A dashboard showing one token from an earlier fetch. *)
Definition showing (se : Session) : State :=
  mkState se
    (mkView (Some "alice") false None
       (JArr [JObj [("contractId", JStr "#1:0");
                    ("templateId", JStr "old:SimpleToken:SimpleToken")]])
       (JArr []) (JArr [])).

Definition alice : JsVal := Some (JStr "alice::1220").
Definition bob : JsVal := Some (JStr "bob::1220").
Definition hundred : JsVal := Some (JNum 100).

(** [{ issuer, owner, amount: amount.toString() }] for the three above. *)
Definition hundredForBob : JSON :=
  JObj [("issuer", JStr "alice::1220"); ("owner", JStr "bob::1220");
        ("amount", JStr "100")].

(** A gateway that turns every create down for a reason of its own. *)
Definition unauthorized : Env :=
  mkEnv (fun _ req =>
           if String.eqb (url req) "/v1/packages"
           then answer true [("result", JArr [JStr "p1"; JStr "p2"])]
           else if String.eqb (url req) "/v1/create"
                then refuse "Unauthorized"
                else answer true [("result", JArr [])])
        0.

(** A gateway whose package list is no list but an object with a [length]
    of its own, and on which no create resolves. *)
Definition lengthOnly (fields : Obj) : Env :=
  mkEnv (fun _ req =>
           if String.eqb (url req) "/v1/packages"
           then answer true [("result", JObj fields)]
           else if String.eqb (url req) "/v1/create"
                then match body req with
                     | Some (JObj ((_, JStr "p1:SimpleToken:SimpleToken") :: _)) =>
                         answer true [("result", JObj [("contractId", JStr "#9:0")])]
                     | _ => refuse "Cannot resolve template ID"
                     end
                else answer true [("result", JArr [])])
        0.

End Scenario.

(** A request addressed to one of the gateway paths. *)
Definition OnGateway `{Host} (req : Request) : Prop := In (url req) gatewayUrls.

(** The URL of the first request a call sends, if it sends any. *)
Definition firstUrl {S A} (env : Env) (p : Prog S A) (s : S) : option string :=
  url <$> head (run env p s []).2.

(** The second request [queryContracts] may send after a refused query:
    the same query with no template ids. *)
Definition IsFallback `{Host} (req : Request) : Prop :=
  body req = DamlApi.queryBody [].

(** A task that, from now on, sends nothing but that fallback. *)
Definition FallbackSlot `{Host} (slot : Parallel.Slot State JSON) : Prop :=
  match slot with
  | Parallel.Waiting k => forall r, Safe (fun _ => True) IsFallback (k r)
  | Parallel.Settled _ => True
  end.

(** The outcomes of a request after which [queryContracts] settles without
    a second request: the network fails, or the gateway answers OK. *)
Definition settlesAtOnce (r : Exc Response) : bool :=
  match r with
  | inl _ => true
  | inr resp => ok resp
  end.

(** A gateway answer with status 200 and a JSON body. *)
Definition okJson (bodyText : string) (parsed : JSON) : Exc Response :=
  inr (mkResponse true (inr bodyText) (inr parsed)).

(** The three requests [App.fetchAllContracts] sends as it is called, each
    with the index of its task. *)
Definition firstThree `{Host} (st : State) : Parallel.Log :=
  [(0%nat, DamlApi.queryRequest
             (DamlApi.bearer (Js.toStringNullable (token (session st))))
             ["SimpleToken:SimpleToken"]);
   (1%nat, DamlApi.queryRequest
             (DamlApi.bearer (Js.toStringNullable (token (session st))))
             ["Escrow:Escrow"]);
   (2%nat, DamlApi.queryRequest
             (DamlApi.bearer (Js.toStringNullable (token (session st))))
             ["CollateralLock:CollateralLock"])].

(** What holds of a call of [App.fetchAllContracts] made in state [st], at
    every point [c] of its run, next to the pool [bare] of the same three
    calls run on the same answers without their [.catch]: the same requests
    have been sent; while a task is pending the body waits and the state is
    the one the calls left; once all have settled the body has resumed and
    run to its end, and the view is the settled one. *)
Definition FetchInvariant `{Host} (st : State)
    (c : Parallel.Config State) (bare : Parallel.Pool State) : Prop :=
  Parallel.slots (Parallel.pool c) = caught <$> Parallel.slots bare
  /\ Parallel.sent (Parallel.pool c) = Parallel.sent bare
  /\ length (Parallel.slots bare) = 3%nat
  /\ Forall QuietSlot (Parallel.slots (Parallel.pool c))
  /\ if Parallel.pending c
     then Parallel.main c = Parallel.Gathering App.resume
          /\ Parallel.state (Parallel.pool c) = Parallel.state bare
          /\ view (Parallel.state bare) = view (fetching st)
     else Parallel.main c = Parallel.Resumed (Parallel.Settled (Returned tt))
          /\ exists o0 o1 o2,
               Parallel.slots bare
               = [Parallel.Settled o0; Parallel.Settled o1; Parallel.Settled o2]
               /\ view (Parallel.state (Parallel.pool c))
                  = settledView (view st) o0 o1 o2.

(* ===================================================================== *)
(** ** The session across calls and reloads                               *)
(* ===================================================================== *)


(** [s] differs from [s0] at most in the entry [daml_package_id]. *)
Definition ChangesOnlyPackageId (s0 s : Session) : Prop :=
  token s = token s0
  /\ userId s = userId s0
  /\ partyIdentifier s = partyIdentifier s0
  /\ forall key, key <> "daml_package_id" -> localStorage s !! key = localStorage s0 !! key.

(** The strings among [items]. *)
Fixpoint strings (items : list JSON) : list string :=
  match items with
  | [] => []
  | JStr t :: rest => t :: strings rest
  | _ :: rest => strings rest
  end.

(** The templates a request names: the [templateId] of a create and the
    [templateIds] of a query. *)
Definition templatesOf (req : Request) : list string :=
  match body req with
  | Some (JObj fields) =>
      match Js.lookup "templateId" fields with
      | Some (JStr t) => [t]
      | _ => []
      end
      ++ match Js.lookup "templateIds" fields with
         | Some (JArr items) => strings items
         | _ => []
         end
  | _ => []
  end.

(** A request [createSimpleToken] may send: a query, the package list, or
    a create, naming no template but the SimpleToken template of some
    package. *)
Definition TokenRequest `{Host} (req : Request) : Prop :=
  In (url req) [DamlApi.API_BASE_URL ++ "/query"; DamlApi.API_BASE_URL ++ "/packages";
                DamlApi.API_BASE_URL ++ "/create"]
  /\ forall t, In t (templatesOf req) -> exists p, t = DamlApi.simpleTokenTemplate p.

(** What an operation that sends one request makes of the answer, where
    [failure] is the prefix of its error message: a rejected [fetch] and a
    body that cannot be read are thrown as they come. *)
Definition answered (failure : string) (r : Exc Response) : Outcome JSON :=
  match r with
  | inl e => Thrown e
  | inr response =>
      if ok response
      then match json response with
           | inl e => Thrown e
           | inr data => Returned data
           end
      else match text response with
           | inl e => Thrown e
           | inr error => Thrown (mkError (failure ++ error))
           end
  end.

(* ===================================================================== *)
(** ** Counting requests                                                  *)
(* ===================================================================== *)

(** [p] sends at most [n] requests on any of its paths. *)
Fixpoint AtMost {S A} (n : nat) (p : Prog S A) : Prop :=
  match p with
  | Ret _ => True
  | Throw _ => True
  | Fetch _ k =>
      match n with
      | O => False
      | Datatypes.S m => forall r, AtMost m (k r)
      end
  | Read k => forall s, AtMost n (k s)
  | Update _ k => AtMost n k
  | DateNow k => forall t, AtMost n (k t)
  end.

(** The requests task [who] has sent, oldest first. *)
Definition requestsOf (who : nat) (log : Parallel.Log) : list Request :=
  snd <$> List.filter (fun entry => Nat.eqb entry.1 who) log.

(** What task [who] of a pool may still send next to what it has sent:
    two requests in all. *)
Definition WithinBudget (X : Parallel.Pool State) (who : nat) : Prop :=
  exists left : nat,
    (length (requestsOf who (Parallel.sent X)) + left <= 2)%nat
    /\ match Parallel.slots X !! who with
       | Some (Parallel.Waiting k) => forall r, AtMost left (k r)
       | _ => True
       end.

(** A length whose rendering is text of the gateway's own choosing: a
    string, or an array, which is rendered by joining its elements. *)
Definition textualLength (len : JsVal) : bool :=
  match len with
  | Some (JStr _) => true
  | Some (JArr _) => true
  | _ => false
  end.

(** Decimal digits only. *)
Fixpoint allDigits (s : string) : bool :=
  match s with
  | EmptyString => true
  | String c rest =>
      (Nat.leb 48 (nat_of_ascii c) && Nat.leb (nat_of_ascii c) 57) && allDigits rest
  end.

(* ===================================================================== *)
(** * Part II: properties                                                 *)
(* ===================================================================== *)


(* ===================================================================== *)
(** ** Running a resumption                                              *)
(* ===================================================================== *)

Lemma run_bind {S A B} env (m : Prog S A) (f : A -> Prog S B) s tr :
  run env (m ≫= f) s tr =
  match run env m s tr with
  | (Returned a, s', tr') => run env (f a) s' tr'
  | (Thrown e, s', tr') => (Thrown e, s', tr')
  end.
Proof.
  change (m ≫= f) with (bind m f).
  revert s tr. induction m as [a|e|req k IH|k IH|g k IH|k IH]; intros s tr; simpl; auto.
Qed.

Lemma run_tryCatch {S A} env (m : Prog S A) h s tr :
  run env (tryCatch m h) s tr =
  match run env m s tr with
  | (Returned a, s', tr') => (Returned a, s', tr')
  | (Thrown e, s', tr') => run env (h e) s' tr'
  end.
Proof.
  revert s tr. induction m as [a|e|req k IH|k IH|g k IH|k IH]; intros s tr; simpl; auto.
Qed.

Lemma mbind_bind {S A B} (m : Prog S A) (f : A -> Prog S B) : m ≫= f = bind m f.
Proof. reflexivity. Qed.

Lemma run_extends {S A} env (p : Prog S A) s tr :
  exists l, (run env p s tr).2 = (tr ++ l)%list.
Proof.
  revert s tr. induction p as [a|e|req k IH|k IH|g k IH|k IH]; simpl; intros s tr; eauto.
  - exists []. by rewrite app_nil_r.
  - exists []. by rewrite app_nil_r.
  - destruct (IH (server env tr req) s (tr ++ [req])%list) as [l ->].
    exists (req :: l). by rewrite <- app_assoc.
Qed.

(* ===================================================================== *)
(** ** Invariants of a call and of what it sends                         *)
(* ===================================================================== *)

Section Logic.
Context {S : Type} (I : S -> Prop) (Q : Request -> Prop).

Lemma Safe_bind {A B} (m : Prog S A) (f : A -> Prog S B) :
  Safe I Q m -> (forall a, Safe I Q (f a)) -> Safe I Q (m ≫= f).
Proof.
  rewrite mbind_bind.
  induction m as [a|e|req k IH|k IH|g k IH|k IH]; simpl; intros Hm Hf; auto.
  - destruct Hm as [Hq Hk]. split; auto.
  - destruct Hm as [Hg Hk]. split; auto.
Qed.

Lemma Safe_tryCatch {A} (m : Prog S A) h :
  Safe I Q m -> (forall e, Safe I Q (h e)) -> Safe I Q (tryCatch m h).
Proof.
  induction m as [a|e|req k IH|k IH|g k IH|k IH]; simpl; intros Hm Hf; auto.
  - destruct Hm as [Hq Hk]. split; auto.
  - destruct Hm as [Hg Hk]. split; auto.
Qed.

Lemma Safe_lift {A} (x : Exc A) : Safe I Q (lift x : Prog S A).
Proof. destruct x; exact Logic.I. Qed.

Lemma Safe_run {A} (p : Prog S A) env s tr :
  Safe I Q p -> I s ->
  exists l, (run env p s tr).2 = (tr ++ l)%list /\ Forall Q l /\ I (run env p s tr).1.2.
Proof.
  revert s tr. induction p as [a|e|req k IH|k IH|g k IH|k IH]; simpl; intros s tr Hp Hs.
  - exists []. rewrite app_nil_r. auto.
  - exists []. rewrite app_nil_r. auto.
  - destruct Hp as [Hq Hk].
    destruct (IH (server env tr req) s (tr ++ [req])%list (Hk _) Hs) as (l & -> & Hl & Hi).
    exists (req :: l). rewrite <- app_assoc. auto.
  - eauto.
  - destruct Hp as [Hg Hk]. eauto.
  - eauto.
Qed.

Lemma Sends_bind_l {A B} (m : Prog S A) (f : A -> Prog S B) :
  Sends I m -> Sends I (m ≫= f).
Proof.
  rewrite mbind_bind.
  induction m as [a|e|req k IH|k IH|g k IH|k IH]; simpl; intros Hm; auto; try tauto.
Qed.

Lemma Sends_bind_r {A B} (m : Prog S A) (f : A -> Prog S B) :
  Safe I Q m -> NoThrow m -> (forall a, Sends I (f a)) -> Sends I (m ≫= f).
Proof.
  rewrite mbind_bind.
  induction m as [a|e|req k IH|k IH|g k IH|k IH]; simpl; intros Hm Hn Hf; auto.
  - destruct Hm; auto.
Qed.

Lemma Sends_tryCatch {A} (m : Prog S A) h :
  Sends I m -> Sends I (tryCatch m h).
Proof.
  induction m as [a|e|req k IH|k IH|g k IH|k IH]; simpl; intros Hm; auto; try tauto.
Qed.

Lemma Sends_run {A} (p : Prog S A) env s tr :
  Sends I p -> I s ->
  exists l, (run env p s tr).2 = (tr ++ l)%list /\ l <> [].
Proof.
  revert s tr. induction p as [a|e|req k IH|k IH|g k IH|k IH]; simpl; intros s tr Hp Hs; try tauto.
  - destruct (run_extends env (k (server env tr req)) s (tr ++ [req])%list) as [l ->].
    exists (req :: l). rewrite <- app_assoc. split; [reflexivity | discriminate].
  - eauto.
  - destruct Hp; eauto.
  - eauto.
Qed.
End Logic.

Lemma NoThrow_tryCatch {S A} (m : Prog S A) h :
  (forall e, NoThrow (h e)) -> NoThrow (tryCatch m h).
Proof.
  induction m as [a|e|req k IH|k IH|g k IH|k IH]; simpl; intros Hh; auto.
Qed.

Lemma NoThrow_bind {S A B} (m : Prog S A) (f : A -> Prog S B) :
  NoThrow m -> (forall a, NoThrow (f a)) -> NoThrow (m ≫= f).
Proof.
  rewrite mbind_bind.
  induction m as [a|e|req k IH|k IH|g k IH|k IH]; simpl; intros Hm Hf; auto; tauto.
Qed.

Lemma NoThrow_run {S A} (p : Prog S A) env s tr :
  NoThrow p -> exists a, (run env p s tr).1.1 = Returned a.
Proof.
  revert s tr. induction p as [a|e|req k IH|k IH|g k IH|k IH]; simpl; intros s tr Hp; eauto; tauto.
Qed.

(* ===================================================================== *)
(** ** The stored entries and the bearer, step by step                   *)
(* ===================================================================== *)

Lemma Keeps_refl keys s : Keeps keys s s.
Proof. intros k _ Hk. exact Hk. Qed.

Lemma Keeps_setItem keys s0 s key value tok uid pid :
  Keeps keys s0 s ->
  Keeps keys s0 (mkSession tok uid pid (<[key := value]> (localStorage s))).
Proof.
  intros Hk k Hin Hsome. cbn.
  destruct (decide (key = k)) as [->|Hne].
  - rewrite lookup_insert_eq. eauto.
  - rewrite lookup_insert_ne by done. auto.
Qed.

Lemma Keeps_removeItem keys s0 s key tok uid pid :
  ~ In key keys ->
  Keeps keys s0 s ->
  Keeps keys s0 (mkSession tok uid pid (delete key (localStorage s))).
Proof.
  intros Hnot Hk k Hin Hsome. cbn.
  rewrite lookup_delete_ne; [auto | congruence].
Qed.

Lemma Keeps_fields keys s0 s tok uid pid :
  Keeps keys s0 s -> Keeps keys s0 (mkSession tok uid pid (localStorage s)).
Proof. intros Hk k Hin Hsome. cbn. auto. Qed.

Lemma Steady_refl keys s : Steady keys s s.
Proof. split; [reflexivity | apply Keeps_refl]. Qed.

Lemma Steady_setItem keys s0 s key value :
  Steady keys s0 s ->
  Steady keys s0 (mkSession (token s) (userId s) (partyIdentifier s)
                    (<[key := value]> (localStorage s))).
Proof. intros [Ht Hk]. split; [exact Ht | by apply Keeps_setItem]. Qed.

Lemma Steady_removeItem keys s0 s key :
  ~ In key keys ->
  Steady keys s0 s ->
  Steady keys s0 (mkSession (token s) (userId s) (partyIdentifier s)
                    (delete key (localStorage s))).
Proof. intros Hn [Ht Hk]. split; [exact Ht | by apply Keeps_removeItem]. Qed.

Lemma packageKey_not_session : ~ In "daml_package_id" sessionKeys.
Proof. unfold sessionKeys. cbn [In]. intuition discriminate. Qed.

Lemma Authorized_intro `{Host} keys s0 s path meth hs b :
  Steady keys s0 s ->
  In path ["/parties"; "/query"; "/create"; "/exercise"; "/packages"] ->
  In (DamlApi.bearer (Js.toStringNullable (token s))) hs ->
  Authorized s0 (mkRequest (DamlApi.API_BASE_URL ++ path) meth hs b).
Proof.
  intros [Ht' _] Hp Hh.
  split; cbn.
  - by rewrite <- Ht'.
  - unfold gatewayUrls. cbn in Hp |- *. intuition (subst; auto).
Qed.

Ltac in_list :=
  cbn [In]; repeat first [left; reflexivity | right]; fail.

Ltac safe_step :=
  first
    [ progress cbn
    | lazymatch goal with
      | |- True => exact Logic.I
      | |- Steady _ _ (mkSession _ _ _ (<[_ := _]> _)) => apply Steady_setItem; assumption
      | |- Steady _ _ (mkSession _ _ _ (delete _ _)) =>
          apply Steady_removeItem; [exact packageKey_not_session | assumption]
      | |- Authorized _ _ =>
          eapply Authorized_intro; [eassumption | in_list | in_list ]
      | |- _ /\ _ => split
      | |- forall _, _ => intro
      | |- Safe _ _ (lift ?x) => apply Safe_lift
      | |- Safe _ _ (if ?b then _ else _) => destruct b eqn:?
      | |- Safe _ _ (match ?x with _ => _ end) => destruct x eqn:?
      end
    | lazymatch goal with |- Safe _ _ _ => solve [auto with safe] end
    | match goal with
      | |- Safe _ _ ?p =>
          match p with
          | context [if ?b then _ else _] =>
              lazymatch b with
              | true => fail
              | false => fail
              | _ => destruct b eqn:?
              end
          | context [lift ?x] =>
              lazymatch x with
              | inl _ => fail
              | inr _ => fail
              | _ => destruct x eqn:?
              end
          | tryCatch _ _ => apply Safe_tryCatch
          | bind _ _ => apply Safe_bind
          | _ ≫= _ => apply Safe_bind
          end
      end ].

Ltac safe := repeat safe_step.

Section ClientInvariant.
Context `{Host}.
Arguments Steady : simpl never.
Arguments Authorized : simpl never.

Lemma getPackages_safe K s0 : Safe (Steady K s0) (Authorized s0) DamlApi.getPackages.
Proof.
  unfold DamlApi.getPackages. safe. 
Qed.

Lemma createContract_safe K s0 a b : Safe (Steady K s0) (Authorized s0) (DamlApi.createContract a b).
Proof.
  unfold DamlApi.createContract. safe.
Qed.

Lemma exerciseChoice_safe K s0  a b c : Safe (Steady K s0) (Authorized s0) (DamlApi.exerciseChoice a b c).
Proof.
  unfold DamlApi.exerciseChoice. safe.
Qed.

Lemma scanContracts_safe K s0  l : Safe (Steady K s0) (Authorized s0)  (DamlApi.scanContracts l).
Proof.
  induction l as [|c l IH]; [exact Logic.I|].
  cbn [DamlApi.scanContracts]. safe; try exact IH. 
Qed.

Lemma probePackages_safe K s0  l : Safe (Steady K s0) (Authorized s0)  (DamlApi.probePackages l).
Proof.
  induction l as [|c l IH]; [exact Logic.I|].
  cbn [DamlApi.probePackages].  safe; try exact IH.
Qed.
End ClientInvariant.

Create HintDb safe.
#[export] Hint Resolve scanContracts_safe probePackages_safe getPackages_safe createContract_safe : safe.

Section ClientInvariant2.
Context `{Host}.
Arguments Steady : simpl never.
Arguments Authorized : simpl never.

Lemma findPackageId_safe K s0 : Safe (Steady K s0) (Authorized s0) DamlApi.findPackageId.
Proof.
  unfold DamlApi.findPackageId. safe.
Qed.

Lemma queryContracts_safe K s0 ids : Safe (Steady K s0) (Authorized s0) (DamlApi.queryContracts ids).
Proof.
  unfold DamlApi.queryContracts. safe.
Qed.
End ClientInvariant2.

#[export] Hint Resolve findPackageId_safe queryContracts_safe exerciseChoice_safe : safe.

Section ClientInvariant3.
Context `{Host}.
Arguments Steady : simpl never.
Arguments Authorized : simpl never.

Lemma tryPackages_safe K s0 issuer owner amount packageIds l :
  Safe (Steady K s0) (Authorized s0)
    (DamlApi.tryPackages issuer owner amount packageIds l).
Proof.
  induction l as [|c l IH]; [exact Logic.I|].
  cbn [DamlApi.tryPackages]. safe; try exact IH.
Qed.

Lemma createSimpleToken_safe s0 issuer owner amount :
  Safe (Steady sessionKeys s0) (Authorized s0) (DamlApi.createSimpleToken issuer owner amount).
Proof.
  pose proof tryPackages_safe.
  unfold DamlApi.createSimpleToken. safe.
Qed.
End ClientInvariant3.

(* ===================================================================== *)
(** ** Ledger operations and the token                                   *)
(* ===================================================================== *)

Section LedgerOperations.
Context `{Host}.
Arguments Steady : simpl never.
Arguments Authorized : simpl never.

Lemma findPackageId_NoThrow : NoThrow DamlApi.findPackageId.
Proof.
  unfold DamlApi.findPackageId. cbn -[tryCatch]. intros s.
  destruct (Js.truthyStr _); [exact Logic.I|].
  apply NoThrow_tryCatch. intros; exact Logic.I.
Qed.

Lemma perform_safe s0 op : Safe (Steady sessionKeys s0) (Authorized s0) (perform op).
Proof.
  destruct op; cbn [perform]; auto using createSimpleToken_safe with safe.
Qed.

Variable s0 : Session.
Hypothesis held : Js.truthyStr (token s0) = true.

Ltac sends_step :=
  first
    [ progress cbn
    | lazymatch goal with
      | |- True => exact Logic.I
      | H : Steady _ s0 ?s |- context [token ?s] => rewrite (proj1 H), ?held
      | |- forall _, _ => intro
      end ].

Lemma getPackages_sends : Sends (Steady sessionKeys s0) DamlApi.getPackages.
Proof. unfold DamlApi.getPackages. repeat sends_step. Qed.

Lemma createContract_sends a b : Sends (Steady sessionKeys s0) (DamlApi.createContract a b).
Proof. unfold DamlApi.createContract. repeat sends_step. Qed.

Lemma exerciseChoice_sends a b c : Sends (Steady sessionKeys s0) (DamlApi.exerciseChoice a b c).
Proof. unfold DamlApi.exerciseChoice. repeat sends_step. Qed.

Lemma queryContracts_sends ids : Sends (Steady sessionKeys s0) (DamlApi.queryContracts ids).
Proof.
  unfold DamlApi.queryContracts. cbn -[DamlApi.findPackageId]. intros s Hs.
  rewrite (proj1 Hs), held. cbn -[DamlApi.findPackageId].
  try rewrite <- mbind_bind.
  apply Sends_bind_r with (Q := Authorized s0).
  - destruct (DamlApi.noTemplateIds ids); [|exact Logic.I].
    apply Safe_bind; [apply findPackageId_safe|]. intros a. destruct (Js.truthy a); exact Logic.I.
  - destruct (DamlApi.noTemplateIds ids); [|exact Logic.I].
    apply NoThrow_bind; [apply findPackageId_NoThrow|]. intros a. destruct (Js.truthy a); exact Logic.I.
  - intros ids'. cbn. intros; exact Logic.I.
Qed.

Lemma createSimpleToken_sends issuer owner amount :
  throwsBeforeSending (CreateSimpleToken issuer owner amount) = false ->
  Sends (Steady sessionKeys s0) (DamlApi.createSimpleToken issuer owner amount).
Proof.
  intros Hamount. cbn in Hamount.
  unfold DamlApi.createSimpleToken. cbn -[DamlApi.findPackageId DamlApi.getPackages DamlApi.createContract]. intros s Hs.
  rewrite (proj1 Hs), held. cbn -[DamlApi.findPackageId DamlApi.getPackages DamlApi.createContract].
  try rewrite <- mbind_bind.
  apply Sends_bind_r with (Q := Authorized s0);
    [apply findPackageId_safe | apply findPackageId_NoThrow |].
  intros packageId. destruct (Js.truthy packageId).
  - apply Sends_bind_l. apply Sends_tryCatch.
    unfold DamlApi.tokenPayload. destruct (DamlApi.amountToString amount); [discriminate|].
    cbn -[DamlApi.createContract]. try rewrite <- mbind_bind.
    apply Sends_bind_l. apply createContract_sends.
  - cbn -[DamlApi.getPackages]. try rewrite <- mbind_bind. apply Sends_bind_l. apply getPackages_sends.
Qed.

Lemma perform_sends op :
  throwsBeforeSending op = false -> Sends (Steady sessionKeys s0) (perform op).
Proof.
  destruct op; intros Hop; cbn [perform];
    auto using queryContracts_sends, createContract_sends, exerciseChoice_sends,
               getPackages_sends, createSimpleToken_sends.
Qed.
End LedgerOperations.

Lemma perform_unauthenticated `{Host} env op s sent :
  Js.truthyStr (token s) = false ->
  run env (perform op) s sent = (Thrown DamlApi.NotAuthenticated, s, sent).
Proof.
  intros Hno. destruct op; cbn; rewrite Hno; reflexivity.
Qed.

(** C6.  Every ledger operation ([queryContracts], [createContract],
    [exerciseChoice], [getPackages], [createSimpleToken]) throws the error
    'Not authenticated' without sending anything and without touching the
    session when no token is held ([this.token] is null or the empty
    string).  When a token is held, every request the operation sends
    carries the header [Authorization: Bearer <token>], and the operation
    does send a request, except for [createSimpleToken] called with an
    amount that has no [toString]. *)
Theorem ledger_operations_need_the_token `{Host}
    (env : Env) (op : LedgerOp) (s : Session) (sent : list Request) :
  let unauthenticated :=
    run env (perform op) s sent = (Thrown (mkError "Not authenticated"), s, sent) in
  match token s with
  | Some tok =>
      if String.eqb tok "" then unauthenticated
      else
        exists reqs,
          (run env (perform op) s sent).2 = (sent ++ reqs)%list
          /\ Forall (fun req => In ("Authorization", "Bearer " ++ tok) (headers req)) reqs
          /\ (throwsBeforeSending op = true \/ reqs <> [])
  | None => unauthenticated
  end.
Proof.
  intros unauthenticated. subst unauthenticated.
  destruct (token s) as [tok|] eqn:Htok.
  - destruct (String.eqb tok "") eqn:Hempty.
    + apply perform_unauthenticated. by rewrite Htok; cbn; rewrite Hempty.
    + assert (held : Js.truthyStr (token s) = true) by (by rewrite Htok; cbn; rewrite Hempty).
      destruct (Safe_run _ _ (perform op) env s sent (perform_safe s op) (Steady_refl _ s))
        as (reqs & Hsent & Hall & _).
      exists reqs. split; [exact Hsent|]. split.
      * eapply Forall_impl; [exact Hall|]. intros req [Hb _].
        rewrite Htok in Hb. exact Hb.
      * destruct (throwsBeforeSending op) eqn:Hthrows; [by left | right].
        destruct (Sends_run _ (perform op) env s sent (perform_sends s held op Hthrows)
                    (Steady_refl _ s)) as (reqs' & Hsent' & Hne).
        rewrite Hsent in Hsent'. apply app_inv_head in Hsent'. by subst.
  - apply perform_unauthenticated. by rewrite Htok.
Qed.

(* ===================================================================== *)
(** ** Logout                                                            *)
(* ===================================================================== *)

Lemma logout_run `{Host} env s sent :
  run env DamlApi.logout s sent =
  (Returned tt,
   mkSession None None null
     (delete "daml_party_identifier"
        (delete "daml_user_id" (delete "daml_token" (localStorage s)))),
   sent).
Proof. reflexivity. Qed.

(** C10.  [logout] returns without sending anything; afterwards the
    token, the user id and the party identifier are null, the entries
    [daml_token], [daml_user_id] and [daml_party_identifier] are gone from
    localStorage, [isAuthenticated] answers false, and every other entry of
    localStorage is what it was; in particular the cached
    [daml_package_id] survives. *)
Theorem logout_clears_the_session_only `{Host}
    (env : Env) (s : Session) (sent : list Request) :
  exists s',
    run env DamlApi.logout s sent = (Returned tt, s', sent)
    /\ token s' = None /\ userId s' = None /\ partyIdentifier s' = null
    /\ localStorage s' !! "daml_token" = None
    /\ localStorage s' !! "daml_user_id" = None
    /\ localStorage s' !! "daml_party_identifier" = None
    /\ run env DamlApi.isAuthenticated s' sent = (Returned false, s', sent)
    /\ (forall key, ~ In key sessionKeys -> localStorage s' !! key = localStorage s !! key)
    /\ localStorage s' !! "daml_package_id" = localStorage s !! "daml_package_id".
Proof.
  eexists. split; [apply logout_run|]. cbn.
  assert (Hframe : forall key, ~ In key sessionKeys ->
            delete "daml_party_identifier"
              (delete "daml_user_id" (delete "daml_token" (localStorage s))) !! key
            = localStorage s !! key).
  { intros key Hkey. unfold sessionKeys in Hkey. cbn [In] in Hkey.
    rewrite !lookup_delete_ne; [reflexivity | intros <-; tauto ..]. }
  split; [reflexivity|]. split; [reflexivity|]. split; [reflexivity|].
  split; [by rewrite lookup_delete_ne, lookup_delete_ne, lookup_delete_eq|].
  split; [by rewrite lookup_delete_ne, lookup_delete_eq|].
  split; [by rewrite lookup_delete_eq|].
  split; [reflexivity|].
  split; [exact Hframe|].
  apply Hframe. exact packageKey_not_session.
Qed.

(* ===================================================================== *)
(** ** The paths addressed                                               *)
(* ===================================================================== *)

Ltac urls_step :=
  first
    [ progress cbn
    | lazymatch goal with
      | |- True => exact Logic.I
      | |- Keeps _ _ (mkSession _ _ _ (<[_ := _]> _)) => apply Keeps_setItem; assumption
      | |- Keeps _ _ (mkSession _ _ _ (localStorage _)) => apply Keeps_fields; assumption
      | |- OnGateway _ => unfold OnGateway, gatewayUrls; cbn [fmap list_fmap url]; in_list
      | |- _ /\ _ => split
      | |- forall _, _ => intro
      | |- Safe _ _ (lift ?x) => apply Safe_lift
      | |- Safe _ _ (if ?b then _ else _) => destruct b eqn:?
      | |- Safe _ _ (match ?x with _ => _ end) => destruct x eqn:?
      end
    | match goal with
      | |- Safe _ _ ?p =>
          match p with
          | context [if ?b then _ else _] =>
              lazymatch b with
              | true => fail
              | false => fail
              | _ => destruct b eqn:?
              end
          | context [lift ?x] =>
              lazymatch x with
              | inl _ => fail
              | inr _ => fail
              | _ => destruct x eqn:?
              end
          end
      end ].

Section Login.
Context `{Host}.
Arguments OnGateway : simpl never.
Arguments Keeps : simpl never.

Lemma login_safe keys s0 userId :
  Safe (Keeps keys s0) OnGateway (DamlApi.login userId).
Proof.
  unfold DamlApi.login. repeat urls_step.
Qed.
End Login.

Lemma Authorized_OnGateway `{Host} s0 req : Authorized s0 req -> OnGateway req.
Proof. intros [_ Hurl]. exact Hurl. Qed.

Lemma Safe_weaken {S A} (I : S -> Prop) (Q Q' : Request -> Prop) (p : Prog S A) :
  (forall req, Q req -> Q' req) -> Safe I Q p -> Safe I Q' p.
Proof.
  intros Hq. induction p as [a|e|req k IH|k IH|g k IH|k IH]; simpl; auto.
  - intros [Hreq Hk]. split; auto.
  - intros [Hg Hk]. split; auto.
Qed.

Lemma run_head_cons {S A} env (p : Prog S A) s req sent :
  head (run env p s (req :: sent)).2 = Some req.
Proof.
  destruct (run_extends env p s (req :: sent)) as [l ->]. reflexivity.
Qed.

(** C7.  Every request the API client sends goes to one of five paths under
    the base URL: [/parties], [/query], [/create], [/exercise] and
    [/packages].  This holds for each ledger operation, for [login] and for
    [findPackageId]; [logout] sends nothing.  Each of the five paths is used:
    [login] starts on [/parties], and with a token held [queryContracts],
    [createContract], [exerciseChoice] and [getPackages] start on [/query],
    [/create], [/exercise] and [/packages]. *)
Theorem client_requests_stay_on_five_paths `{Host}
    (env : Env) (s : Session) (sent : list Request) :
  (forall op, exists reqs,
      (run env (perform op) s sent).2 = (sent ++ reqs)%list /\ Forall OnGateway reqs)
  /\ (forall userId, exists reqs,
      (run env (DamlApi.login userId) s sent).2 = (sent ++ reqs)%list
      /\ Forall OnGateway reqs)
  /\ (exists reqs,
      (run env DamlApi.findPackageId s sent).2 = (sent ++ reqs)%list
      /\ Forall OnGateway reqs)
  /\ (run env DamlApi.logout s sent).2 = sent
  /\ gatewayUrls = [DamlApi.API_BASE_URL ++ "/parties"; DamlApi.API_BASE_URL ++ "/query";
                    DamlApi.API_BASE_URL ++ "/create"; DamlApi.API_BASE_URL ++ "/exercise";
                    DamlApi.API_BASE_URL ++ "/packages"]
  /\ firstUrl env (DamlApi.login "alice") s = Some (DamlApi.API_BASE_URL ++ "/parties")
  /\ (let s1 := mkSession (Some "t") (userId s) (partyIdentifier s) (localStorage s) in
      firstUrl env (DamlApi.queryContracts (Some ["Escrow:Escrow"])) s1
        = Some (DamlApi.API_BASE_URL ++ "/query")
      /\ firstUrl env (DamlApi.createContract "Escrow:Escrow" JNull) s1
        = Some (DamlApi.API_BASE_URL ++ "/create")
      /\ firstUrl env (DamlApi.exerciseChoice "#1:0" "Approve" None) s1
        = Some (DamlApi.API_BASE_URL ++ "/exercise")
      /\ firstUrl env DamlApi.getPackages s1 = Some (DamlApi.API_BASE_URL ++ "/packages")).
Proof.
  split; [|split; [|split; [|split; [|split; [|split]]]]].
  - intros op.
    destruct (Safe_run _ _ (perform op) env s sent
                (Safe_weaken _ _ _ _ (Authorized_OnGateway s) (perform_safe s op))
                (Steady_refl _ s)) as (reqs & Hsent & Hall & _).
    eauto.
  - intros userId.
    destruct (Safe_run _ _ _ env s sent (login_safe [] s userId) (Keeps_refl _ s))
      as (reqs & Hsent & Hall & _).
    eauto.
  - destruct (Safe_run _ _ _ env s sent
                (Safe_weaken _ _ _ _ (Authorized_OnGateway s) (findPackageId_safe [] s))
                (Steady_refl _ s)) as (reqs & Hsent & Hall & _).
    eauto.
  - reflexivity.
  - reflexivity.
  - unfold firstUrl. cbn. by rewrite run_head_cons.
  - unfold firstUrl. cbn. by rewrite !run_head_cons.
Qed.

(** C7, counterexample to the four-path reading.  With the default base URL
    [getPackages] sends its request to [/v1/packages], which is none of
    [/v1/parties], [/v1/query], [/v1/create], [/v1/exercise]. *)
Lemma getPackages_asks_for_v1_packages :
  url <$> (run Scenario.unreachable DamlApi.getPackages (Scenario.loggedIn "t" ∅) []).2
    = ["/v1/packages"]
  /\ ~ In "/v1/packages" ["/v1/parties"; "/v1/query"; "/v1/create"; "/v1/exercise"].
Proof.
  split; [vm_compute; reflexivity|]. cbn [In]. intuition discriminate.
Qed.

(* ===================================================================== *)
(** ** Login, run to its end                                             *)
(* ===================================================================== *)

Ltac exec_step :=
  first
    [ progress cbn
    | match goal with
      | |- context [run _ (if ?b then _ else _)] => destruct b eqn:?
      | |- context [tryCatch (if ?b then _ else _)] => destruct b eqn:?
      | |- context [bind (if ?b then _ else _)] => destruct b eqn:?
      | |- context [(if ?b then _ else _) ≫= _] => destruct b eqn:?
      | |- context [lift ?x] =>
          lazymatch x with
          | inl _ => fail
          | inr _ => fail
          | _ => destruct x eqn:?
          end
      | |- context [run _ (tryCatch _ _)] => rewrite run_tryCatch
      | |- context [run _ (_ ≫= _)] => rewrite run_bind
      | |- context [run _ (bind _ _)] => rewrite <- mbind_bind, run_bind
      end ].

Lemma login_outcome `{Host} env userId s sent :
  match run env (DamlApi.login userId) s sent with
  | (Thrown _, s', _) => s' = s
  | (Returned tok, s', sent') =>
      exists first second party identifier,
        server env sent (DamlApi.partiesRequest userId) = inr first
        /\ ok first = true
        /\ (exists data result,
              json first = inr data
              /\ Js.getProp data "result" = inr result
              /\ DamlApi.find (DamlApi.matchesUser userId)
                   (Js.orEmptyArray result) = inr (Some party))
        /\ Js.getProp party "identifier" = inr identifier
        /\ server env (sent ++ [DamlApi.partiesRequest userId])
             (DamlApi.partiesRequest tok) = inr second
        /\ ok second = true
        /\ sent' = (sent ++ [DamlApi.partiesRequest userId; DamlApi.partiesRequest tok])%list
        /\ s' = mkSession (Some tok) (Some userId) identifier
                  (<["daml_party_identifier" := Js.toStringVal identifier]>
                     (<["daml_user_id" := userId]>
                        (<["daml_token" := tok]> (localStorage s))))
  end.
Proof.
  unfold DamlApi.login. repeat exec_step; try reflexivity.
  all: match goal with
       | Hf : DamlApi.find _ _ = inr ?v, Hp : DamlApi.getPropVal ?v _ = inr _ |- _ =>
           destruct v as [party|]; [cbn in Hp | discriminate]
       end.
  all: do 4 eexists; rewrite <- app_assoc; cbn [app].
  all: repeat match goal with H : negb _ = false |- _ => apply negb_false_iff in H end.
  all: eauto 12.
Qed.


(* ===================================================================== *)
(** ** findPackageId, run to its end                                     *)
(* ===================================================================== *)

Lemma scanContracts_outcome `{Host} env contracts s sent :
  match run env (DamlApi.scanContracts contracts) s sent with
  | (Returned (Some v), s', sent') =>
      exists packageId, v = Some (JStr packageId)
                        /\ s' = withItem "daml_package_id" packageId s /\ sent' = sent
  | (Returned None, s', sent') => s' = s /\ sent' = sent
  | (Thrown _, s', sent') => s' = s /\ sent' = sent
  end.
Proof.
  induction contracts as [|contract rest IH]; [by cbn|].
  cbn [DamlApi.scanContracts]. repeat exec_step; eauto.
  all: repeat match goal with
         | |- context [match ?l with [] => _ | _ :: _ => _ end] => destruct l
         end; repeat exec_step; eauto.
Qed.

Lemma probePackages_outcome `{Host} env packageIds s sent :
  match run env (DamlApi.probePackages packageIds) s sent with
  | (Returned v, s', sent') =>
      (v = null /\ s' = s)
      \/ (exists packageId, In packageId packageIds /\ v = Some packageId
                            /\ s' = withItem "daml_package_id" (Js.toString packageId) s)
  | (Thrown _, _, _) => False
  end.
Proof.
  revert sent. induction packageIds as [|packageId rest IH]; intros sent; [by left|].
  cbn [DamlApi.probePackages]. repeat exec_step; eauto 8.
  all: match goal with
       | |- context [run _ (DamlApi.probePackages _) ?st ?t] =>
           specialize (IH t);
           destruct (run env (DamlApi.probePackages rest) st t) as [[[?|?] ?] ?]
       end; try done; destruct IH as [?|(c & ? & ? & ?)]; eauto 10.
Qed.

Lemma findPackageId_outcome `{Host} env s sent :
  match run env DamlApi.findPackageId s sent with
  | (Returned v, s', sent') =>
      if Js.truthyStr (localStorage s !! "daml_package_id")
      then v = JStr <$> localStorage s !! "daml_package_id" /\ s' = s /\ sent' = sent
      else (v = null /\ s' = s)
           \/ (exists j, v = Some j /\ s' = withItem "daml_package_id" (Js.toString j) s)
  | (Thrown _, _, _) => False
  end.
Proof.
  unfold DamlApi.findPackageId. cbn.
  destruct (Js.truthyStr (localStorage s !! "daml_package_id")) eqn:Hcached; [by cbn|].
  repeat first
    [ exec_step
    | match goal with
      | |- context [run ?e (DamlApi.scanContracts ?l) ?st ?t] =>
          let Hscan := fresh "Hscan" in
          pose proof (scanContracts_outcome e l st t) as Hscan;
          destruct (run e (DamlApi.scanContracts l) st t) as [[[[?|]|?] ?] ?];
          [ destruct Hscan as (? & -> & -> & ->)
          | destruct Hscan as [-> ->]
          | destruct Hscan as [-> ->] ]
      | |- context [run ?e (DamlApi.probePackages ?l) ?st ?t] =>
          let Hprobe := fresh "Hprobe" in
          pose proof (probePackages_outcome e l st t) as Hprobe;
          destruct (run e (DamlApi.probePackages l) st t) as [[[?|?] ?] ?];
          [ destruct Hprobe as [[-> ->]|(? & _ & -> & ->)] | destruct Hprobe ]
      end ]; eauto.
Qed.



Lemma getPackages_state `{Host} env s sent : (run env DamlApi.getPackages s sent).1.2 = s.
Proof.
  unfold DamlApi.getPackages. repeat exec_step; reflexivity.
Qed.




(* ===================================================================== *)
(** ** The package search of createSimpleToken                           *)
(* ===================================================================== *)

Section Search.
Context `{Host}.

Lemma createContract_run env templateId payload s sent :
  Js.truthyStr (token s) = true ->
  run env (DamlApi.createContract templateId payload) s sent
  = ((run env (DamlApi.createContract templateId payload) s sent).1.1, s,
     (sent ++ [DamlApi.createRequest (DamlApi.bearer (Js.toStringNullable (token s)))
                 templateId payload])%list).
Proof.
  intros Hheld. unfold DamlApi.createContract. cbn. rewrite Hheld. cbn.
  repeat exec_step; reflexivity.
Qed.


(** The loop, when the values read at [indices] are the strings
    [candidates]. *)
Lemma tryPackages_discovery env issuer owner amount payload s packageIds indices
    candidates sent :
  Js.truthyStr (token s) = true ->
  DamlApi.tokenPayload issuer owner amount = inr payload ->
  Forall2 (fun i candidate => Js.item packageIds i = inr (Some (JStr candidate)))
    indices candidates ->
  exists verdict sent',
    Discovery env s payload candidates sent verdict sent'
    /\ run env (DamlApi.tryPackages issuer owner amount packageIds indices) s sent
       = match verdict with
         | Found candidate result =>
             (Returned (Some result), withItem "daml_package_id" candidate s, sent')
         | Failed e => (Thrown e, s, sent')
         | Exhausted => (Returned None, s, sent')
         end.
Proof.
  intros Hheld Hpayload Hitems. revert sent.
  induction Hitems as [|i candidate indices candidates Hitem Hrest IH]; intros sent.
  - exists Exhausted, sent. split; [constructor | reflexivity].
  - cbn [DamlApi.tryPackages]. rewrite Hitem. cbn [lift].
    change (Ret (Some (JStr candidate)) ≫= ?f) with (f (Some (JStr candidate))). cbn beta.
    rewrite run_bind, run_tryCatch. rewrite Hpayload. cbn [lift].
    change (Ret payload ≫= ?f) with (f payload). cbn beta.
    rewrite run_bind. cbn [Js.toString Js.toStringVal].
    pose proof (createContract_run env (DamlApi.simpleTokenTemplate candidate) payload s sent Hheld)
      as Hcreate.
    destruct (run env (DamlApi.createContract (DamlApi.simpleTokenTemplate candidate) payload) s sent)
      as [[o s1] sent1] eqn:Hrun.
    cbn in Hcreate. injection Hcreate as -> ->.
    assert (Hattempt : attempt env s payload candidate sent = o)
      by (unfold attempt; by rewrite Hrun).
    destruct o as [result|e].
    + exists (Found candidate result), (sent ++ [attemptRequest s payload candidate])%list.
      split; [by constructor | reflexivity].
    + cbn. destruct (DamlApi.isResolutionError e) eqn:Hres.
      * cbn. destruct (IH (sent ++ [attemptRequest s payload candidate])%list)
          as (verdict & sent' & Hdisc & Hloop).
        exists verdict, sent'. split; [by econstructor|]. exact Hloop.
      * exists (Failed e), (sent ++ [attemptRequest s payload candidate])%list.
        split; [by constructor | reflexivity].
Qed.


Lemma amountToString_error amount e :
  DamlApi.amountToString amount = inl e -> DamlApi.isResolutionError e = false.
Proof.
  destruct amount as [[]|]; cbn; intros Heq; try discriminate;
    injection Heq as <-; vm_compute; reflexivity.
Qed.

Lemma tokenPayload_error issuer owner amount e :
  DamlApi.tokenPayload issuer owner amount = inl e -> DamlApi.isResolutionError e = false.
Proof.
  unfold DamlApi.tokenPayload.
  destruct (DamlApi.amountToString amount) as [e'|rendered] eqn:Hamount; [|discriminate].
  intros Heq. injection Heq as <-. by eapply amountToString_error.
Qed.


Lemma Forall2_rev {A B} (P : A -> B -> Prop) l k :
  Forall2 P l k -> Forall2 P (rev l) (rev k).
Proof.
  induction 1 as [|x y l k Hxy Hlk IH]; [constructor|].
  cbn. apply Forall2_app; [exact IH | by repeat constructor].
Qed.

(** The indices of the loop over an array are those of its elements, last
    to first. *)
Lemma countdown_array (ids : list string) :
  Forall2 (fun i candidate =>
             Js.item (JArr (JStr <$> ids)) i = inr (Some (JStr candidate)))
    (DamlApi.countdown (Some (JNum (Z.of_nat (length ids))))) (rev ids).
Proof.
  unfold DamlApi.countdown. cbn [DamlApi.toNumber]. rewrite Nat2Z.id.
  apply Forall2_fmap_l, Forall2_rev.
  apply Forall2_same_length_lookup_2; [by rewrite length_seq|].
  intros k i candidate Hi Hc. apply lookup_seq in Hi as [-> Hk].
  change (0 + k)%nat with k. unfold compose. cbn [Js.item].
  destruct (Z.of_nat k <? 0) eqn:Hneg; [apply Z.ltb_lt in Hneg; lia|].
  by rewrite Nat2Z.id, list_lookup_fmap, Hc.
Qed.


(** The search over a package list that is an array of strings. *)
Lemma tryAllPackages_discovery env issuer owner amount payload s sent :
  Js.truthyStr (token s) = true ->
  DamlApi.tokenPayload issuer owner amount = inr payload ->
  match run env DamlApi.getPackages s sent with
  | (Thrown e, _, sent1) =>
      run env (DamlApi.tryAllPackages issuer owner amount) s sent = (Thrown e, s, sent1)
  | (Returned packagesData, _, sent1) =>
      forall ids,
        Js.getProp packagesData "result" = inr (Some (JArr (JStr <$> ids))) ->
        exists verdict sent2,
          Discovery env s payload (rev ids) sent1 verdict sent2
          /\ run env (DamlApi.tryAllPackages issuer owner amount) s sent
             = ((conclude s ids verdict).1, (conclude s ids verdict).2, sent2)
  end.
Proof.
  intros Hheld Hpayload. unfold DamlApi.tryAllPackages. rewrite run_bind.
  pose proof (getPackages_state env s sent) as Hstate.
  destruct (run env DamlApi.getPackages s sent) as [[[packagesData|e] s1] sent1];
    cbn in Hstate; subst s1; [|reflexivity].
  intros ids Hresult. rewrite Hresult. cbn [lift].
  change (Ret ?x ≫= ?f) with (f x). cbn beta zeta.
  cbn [Js.orEmptyArray Js.truthy Js.lengthOf lift].
  change (Ret ?x ≫= ?f) with (f x). cbn beta.
  rewrite length_fmap.
  destruct (tryPackages_discovery env issuer owner amount payload s (JArr (JStr <$> ids))
              _ _ sent1 Hheld Hpayload (countdown_array ids))
    as (verdict & sent2 & Hdisc & Hloop).
  exists verdict, sent2. split; [exact Hdisc|].
  rewrite run_bind, Hloop. by destruct verdict.
Qed.
End Search.

Lemma Steady_token_run `{Host} {A} env (p : Prog Session A) K s sent :
  Safe (Steady K s) (Authorized s) p -> token (run env p s sent).1.2 = token s.
Proof.
  intros Hsafe.
  by destruct (Safe_run _ _ p env s sent Hsafe (Steady_refl _ s)) as (_ & _ & _ & Htok & _).
Qed.

(** [createSimpleToken] with a token held, stage by stage. *)
Lemma createSimpleToken_run `{Host} env issuer owner amount s sent :
  Js.truthyStr (token s) = true ->
  run env (DamlApi.createSimpleToken issuer owner amount) s sent
  = match run env DamlApi.findPackageId s sent with
    | (Thrown e, s1, sent1) => (Thrown e, s1, sent1)
    | (Returned packageId, s1, sent1) =>
        if Js.truthy packageId
        then
          match DamlApi.tokenPayload issuer owner amount with
          | inl e => (Thrown e, s1, sent1)
          | inr payload =>
              match run env (DamlApi.createContract
                               (DamlApi.simpleTokenTemplate (Js.toStringVal packageId))
                               payload) s1 sent1 with
              | (Returned result, s2, sent2) => (Returned result, s2, sent2)
              | (Thrown e, s2, sent2) =>
                  if DamlApi.isResolutionError e
                  then run env (DamlApi.tryAllPackages issuer owner amount)
                         (withoutItem "daml_package_id" s2) sent2
                  else (Thrown e, s2, sent2)
              end
          end
        else run env (DamlApi.tryAllPackages issuer owner amount) s1 sent1
    end.
Proof.
  intros Hheld. unfold DamlApi.createSimpleToken.
  cbn -[DamlApi.findPackageId DamlApi.createContract DamlApi.tryAllPackages].
  rewrite Hheld.
  cbn -[DamlApi.findPackageId DamlApi.createContract DamlApi.tryAllPackages].
  rewrite <- ?mbind_bind. rewrite run_bind.
  destruct (run env DamlApi.findPackageId s sent) as [[[packageId|e] s1] sent1]; [|reflexivity].
  destruct (Js.truthy packageId); [|reflexivity].
  rewrite run_bind, run_tryCatch.
  destruct (DamlApi.tokenPayload issuer owner amount) as [e|payload] eqn:Hpayload.
  - cbn. by rewrite (tokenPayload_error _ _ _ _ Hpayload).
  - cbn [lift]. change (Ret payload ≫= ?f) with (f payload). cbn beta.
    rewrite run_bind.
    destruct (run env (DamlApi.createContract _ payload) s1 sent1) as [[[result|e] s2] sent2];
      [reflexivity|].
    cbn -[DamlApi.tryAllPackages]. by destruct (DamlApi.isResolutionError e).
Qed.

(** C1.  Let a token be held and the payload build, and let [findPackageId]
    return [packageId].  If [packageId] is truthy and the create with
    [packageId:SimpleToken:SimpleToken] returns, or fails with an error that
    is no template-resolution error, that one create settles the call:
    [createSimpleToken] returns its result, or throws its error, and sends
    nothing after it; no package list is fetched.  If [packageId] is falsy,
    or the create with it fails with a template-resolution error (the stored
    id is then removed), [createSimpleToken] calls [getPackages]; an error
    of [getPackages] is thrown on; and when the result is the list [ids],
    the candidates are tried from the last to the first: the result of the
    first create that succeeds is returned and that candidate cached, only a
    template-resolution error moves on to the next candidate, any other
    error is thrown at once, and the 'Tried all n packages' error is thrown
    when every candidate fails to resolve. *)
Theorem createSimpleToken_searches_newest_first `{Host}
    (env : Env) (issuer owner amount : JsVal) (payload : JSON)
    (s s1 : Session) (sent sent1 : list Request) (packageId : JsVal) :
  Js.truthyStr (token s) = true ->
  DamlApi.tokenPayload issuer owner amount = inr payload ->
  run env DamlApi.findPackageId s sent = (Returned packageId, s1, sent1) ->
  let call := run env (DamlApi.createSimpleToken issuer owner amount) s sent in
  let first := attempt env s1 payload (Js.toStringVal packageId) sent1 in
  let create := attemptRequest s1 payload (Js.toStringVal packageId) in
  match afterFoundId env payload packageId s1 sent1 with
  | None =>
      Js.truthy packageId = true
      /\ call = (first, s1, (sent1 ++ [create])%list)
      /\ match first with
         | Returned _ => True
         | Thrown e => DamlApi.isResolutionError e = false
         end
  | Some (s2, sent2) =>
      (if Js.truthy packageId
       then (exists e, first = Thrown e /\ DamlApi.isResolutionError e = true)
            /\ s2 = withoutItem "daml_package_id" s1
            /\ sent2 = (sent1 ++ [create])%list
       else s2 = s1 /\ sent2 = sent1)
      /\ match run env DamlApi.getPackages s2 sent2 with
         | (Thrown e, _, sent3) => call = (Thrown e, s2, sent3)
         | (Returned packagesData, _, sent3) =>
             forall ids,
               Js.getProp packagesData "result" = inr (Some (JArr (JStr <$> ids))) ->
               exists verdict sent4,
                 Discovery env s2 payload (rev ids) sent3 verdict sent4
                 /\ call = ((conclude s2 ids verdict).1, (conclude s2 ids verdict).2, sent4)
         end
  end.
Proof.
  intros Hheld Hpayload Hfind call first create. subst call first create.
  assert (Htok1 : token s1 = token s).
  { pose proof (Steady_token_run env DamlApi.findPackageId [] s sent (findPackageId_safe [] s)) as Ht.
    by rewrite Hfind in Ht. }
  assert (Hheld1 : Js.truthyStr (token s1) = true) by (by rewrite Htok1).
  rewrite (createSimpleToken_run env issuer owner amount s sent Hheld), Hfind, Hpayload.
  unfold afterFoundId, attempt, attemptRequest.
  destruct (Js.truthy packageId) eqn:Htruthy.
  - rewrite (createContract_run env _ payload s1 sent1 Hheld1).
    destruct (run env (DamlApi.createContract _ payload) s1 sent1).1.1 as [result|e] eqn:Hfirst;
      cbn [fst snd]; [by repeat split|].
    destruct (DamlApi.isResolutionError e) eqn:Hres; [|by repeat split].
    split; [by eauto|].
    apply (tryAllPackages_discovery env issuer owner amount payload
             (withoutItem "daml_package_id" s1)); [exact Hheld1 | exact Hpayload].
  - split; [by split|].
    by apply (tryAllPackages_discovery env issuer owner amount payload s1).
Qed.

(** C1, a run: the id guessed by [findPackageId] does not resolve, and of
    the candidates a, b, c the search tries c, then b, which holds the
    template. *)
Lemma createSimpleToken_searches_newest_first_witness :
  let env := Scenario.templateIn ["a"; "b"; "c"] "b" in
  let s := Scenario.loggedIn "t" ∅ in
  let s1 := withItem "daml_package_id" "a" s in
  let sent1 := (run env DamlApi.findPackageId s []).2 in
  let packageId := Some (JStr "a") in
  let payload := Scenario.hundredForBob in
  let call :=
    run env (DamlApi.createSimpleToken Scenario.alice Scenario.bob Scenario.hundred) s [] in
  let first := attempt env s1 payload (Js.toStringVal packageId) sent1 in
  let create := attemptRequest s1 payload (Js.toStringVal packageId) in
  match afterFoundId env payload packageId s1 sent1 with
  | None =>
      Js.truthy packageId = true
      /\ call = (first, s1, (sent1 ++ [create])%list)
      /\ match first with
         | Returned _ => True
         | Thrown e => DamlApi.isResolutionError e = false
         end
  | Some (s2, sent2) =>
      (if Js.truthy packageId
       then (exists e, first = Thrown e /\ DamlApi.isResolutionError e = true)
            /\ s2 = withoutItem "daml_package_id" s1
            /\ sent2 = (sent1 ++ [create])%list
       else s2 = s1 /\ sent2 = sent1)
      /\ match run env DamlApi.getPackages s2 sent2 with
         | (Thrown e, _, sent3) => call = (Thrown e, s2, sent3)
         | (Returned packagesData, _, sent3) =>
             forall ids,
               Js.getProp packagesData "result" = inr (Some (JArr (JStr <$> ids))) ->
               exists verdict sent4,
                 Discovery env s2 payload (rev ids) sent3 verdict sent4
                 /\ call = ((conclude s2 ids verdict).1, (conclude s2 ids verdict).2, sent4)
         end
  end.
Proof.
  cbv zeta.
  apply (createSimpleToken_searches_newest_first
           (Scenario.templateIn ["a"; "b"; "c"] "b")
           Scenario.alice Scenario.bob Scenario.hundred Scenario.hundredForBob
           (Scenario.loggedIn "t" ∅)).
  - vm_compute; reflexivity.
  - vm_compute; reflexivity.
  - vm_compute; reflexivity.
Defined.

Example createSimpleToken_finds_b :
  let env := Scenario.templateIn ["a"; "b"; "c"] "b" in
  let '(o, s', sent') :=
    run env (DamlApi.createSimpleToken Scenario.alice Scenario.bob Scenario.hundred)
        (Scenario.loggedIn "t" ∅) [] in
  o = Returned (JObj [("result", JObj [("contractId", JStr "#7:0")])])
  /\ localStorage s' !! "daml_package_id" = Some "b"
  /\ url <$> sent' = ["/v1/query"; "/v1/packages"; "/v1/query"; "/v1/create";
                      "/v1/packages"; "/v1/create"; "/v1/create"].
Proof. vm_compute. repeat split. Qed.

(** The index loop reads [length] and the elements as properties: a package
    list that is an object with a [length] of its own is tried like an
    array, although [findPackageId] cannot iterate it. *)
Example createSimpleToken_tries_an_array_like_object :
  let env := Scenario.lengthOnly [("0", JStr "p1"); ("length", JNum 1)] in
  let '(o, s', sent') :=
    run env (DamlApi.createSimpleToken Scenario.alice Scenario.bob Scenario.hundred)
        (Scenario.loggedIn "t" ∅) [] in
  o = Returned (JObj [("result", JObj [("contractId", JStr "#9:0")])])
  /\ localStorage s' !! "daml_package_id" = Some "p1"
  /\ url <$> sent' = ["/v1/query"; "/v1/packages"; "/v1/packages"; "/v1/create"].
Proof. vm_compute. repeat split. Qed.

(** C1, counterexample to 'searches whenever the cached id yields no
    successful create'.  The create with the cached id p1 is answered
    'Unauthorized': [createSimpleToken] re-throws that error after this one
    request and never asks for the package list. *)
Lemma createSimpleToken_rethrows_without_searching :
  let s := Scenario.loggedIn "t" {["daml_package_id" := "p1"]} in
  let '(o, s', sent') :=
    run Scenario.unauthorized
        (DamlApi.createSimpleToken Scenario.alice Scenario.bob Scenario.hundred) s [] in
  o = Thrown (mkError "Create failed: Unauthorized")
  /\ sent' = [DamlApi.createRequest (DamlApi.bearer "t") "p1:SimpleToken:SimpleToken"
                Scenario.hundredForBob]
  /\ ~ In "/v1/packages" (url <$> sent').
Proof.
  vm_compute. split; [reflexivity|]. split; [reflexivity|]. intros [Heq|[]]. discriminate.
Qed.


(* ===================================================================== *)
(** ** Refresh and Clear Cache                                           *)
(* ===================================================================== *)

Lemma run_api `{Host} {A} env (p : Prog Session A) st sent :
  run env (Component.api p) st sent
  = let '(o, se, sent') := run env p (session st) sent in
    (o, mkState se (view st), sent').
Proof.
  unfold Component.api. revert st sent.
  induction p as [a|e|req k IH|k IH|g k IH|k IH]; intros st sent; cbn.
  - by destruct st.
  - by destruct st.
  - apply IH.
  - apply IH.
  - rewrite IH. reflexivity.
  - apply IH.
Qed.

Section Refresh.
Context `{Host}.

Lemma queryAll_NoThrow : NoThrow AppRevised.queryAll.
Proof. apply NoThrow_tryCatch. intros; exact Logic.I. Qed.

Lemma queryAll_sends s0 :
  Js.truthyStr (token s0) = true -> Sends (Steady sessionKeys s0) AppRevised.queryAll.
Proof. intros Hheld. apply Sends_tryCatch. by apply queryContracts_sends. Qed.

Lemma queryAll_safe K s0 : Safe (Steady K s0) (Authorized s0) AppRevised.queryAll.
Proof.
  apply Safe_tryCatch; [apply queryContracts_safe | intros; exact Logic.I].
Qed.

Lemma queryAll_with_cached_id env se sent cached :
  Js.truthyStr (token se) = true ->
  localStorage se !! "daml_package_id" = Some cached ->
  String.eqb cached "" = false ->
  exists reqs,
    (run env AppRevised.queryAll se sent).2
      = (sent ++ DamlApi.queryRequest (DamlApi.bearer (Js.toStringNullable (token se)))
                   [(cached ++ ":SimpleToken:SimpleToken")%string;
                    (cached ++ ":Escrow:Escrow")%string;
                    (cached ++ ":CollateralLock:CollateralLock")%string] :: reqs)%list
    /\ (run env AppRevised.queryAll se sent).1.2 = se.
Proof.
  intros Hheld Hcached Hnonempty.
  unfold AppRevised.queryAll, DamlApi.queryContracts, DamlApi.findPackageId.
  cbn. rewrite Hheld. cbn. rewrite Hcached. cbn. rewrite Hnonempty. cbn.
  repeat exec_step;
    try (rewrite Hnonempty in *; discriminate);
    (eexists; split; [rewrite <- ?app_assoc; cbn [app]; reflexivity | reflexivity]).
Qed.

Lemma findPackageId_first_request env s sent :
  Js.truthyStr (localStorage s !! "daml_package_id") = false ->
  exists rest,
    (run env DamlApi.findPackageId s sent).2
    = (sent ++ DamlApi.queryRequest (DamlApi.bearer (Js.toStringNullable (token s))) []
            :: rest)%list.
Proof.
  intros Hno. unfold DamlApi.findPackageId. cbn. rewrite Hno. cbn.
  rewrite run_tryCatch.
  match goal with
  | |- context [run env ?p s ?tr] =>
      destruct (run_extends env p s tr) as [rest Hrest];
      destruct (run env p s tr) as [[[v|e] s'] sent']
  end; cbn in *; subst; exists rest; by rewrite <- app_assoc.
Qed.

Lemma queryAll_after_findPackageId env se sent :
  Js.truthyStr (token se) = true ->
  exists result rest,
    run env AppRevised.queryAll se sent
    = (Returned result, (run env DamlApi.findPackageId se sent).1.2,
       ((run env DamlApi.findPackageId se sent).2 ++ rest)%list).
Proof.
  intros Hheld.
  pose proof (findPackageId_outcome env se sent) as Hfind.
  pose proof (Steady_token_run env DamlApi.findPackageId [] se sent (findPackageId_safe [] se))
    as Htok.
  unfold AppRevised.queryAll, DamlApi.queryContracts.
  cbn [run mbind Prog_bind bind read tryCatch]. rewrite Hheld. cbn [negb].
  cbn [DamlApi.noTemplateIds].
  rewrite run_tryCatch.
  change (bind (bind DamlApi.findPackageId ?f) ?g)
    with ((DamlApi.findPackageId ≫= f) ≫= g).
  rewrite run_bind, run_bind.
  destruct (run env DamlApi.findPackageId se sent) as [[[packageId|e] se1] sent1];
    [|destruct Hfind].
  cbn [fst snd] in *.
  destruct (Js.truthy packageId); cbn;
    repeat exec_step; eexists _, _; rewrite <- ?app_assoc; cbn [app];
    try reflexivity.
Qed.

Lemma refresh_run env st sent :
  Js.truthyStr (token (session st)) = true ->
  run env AppRevised.refresh st sent
  = let '(o, se', sent') := run env AppRevised.queryAll (session st) sent in
    let kept err :=
      mkView (user (view st)) false (Some (message err))
        (simpleTokens (view st)) (escrows (view st)) (collateralLocks (view st)) in
    (Returned tt,
     mkState se'
       (match o with
        | Returned allContractsResult =>
            match Js.getProp allContractsResult "result" with
            | inl err => kept err
            | inr result =>
                match AppRevised.splitByTemplate (Js.orEmptyArray result) with
                | inr (tokens, escrows, locks) =>
                    mkView (user (view st)) false None
                      (JArr tokens) (JArr escrows) (JArr locks)
                | inl err => kept err
                end
            end
        | Thrown err => kept err
        end),
     sent').
Proof.
  intros Hheld. unfold AppRevised.refresh, AppRevised.fetchAllContracts.
  rewrite run_bind, run_api. cbn [DamlApi.isAuthenticated read run]. rewrite Hheld.
  cbn [negb]. cbn -[AppRevised.queryAll Component.api tryCatch mbind].
  rewrite run_bind. cbn [Component.setLoading Component.setView update run].
  rewrite run_bind. cbn [Component.setError Component.setView update run].
  rewrite run_bind, run_tryCatch, run_bind, run_api. cbn [session view].
  destruct (run env AppRevised.queryAll (session st) sent) as [[[result|err] se'] sent'];
    [|reflexivity].
  destruct (Js.getProp result "result") as [err|contracts]; [reflexivity|].
  cbn [lift]. change (Ret contracts ≫= ?f) with (f contracts). cbn beta zeta.
  rewrite run_bind.
  destruct (AppRevised.splitByTemplate _) as [err|[[tokens escrows] locks]];
    reflexivity.
Qed.
End Refresh.

(** C4.  In the component with the Refresh and Clear Cache buttons, a
    Refresh with a token held runs one query for all contracts, which never
    throws and sends at least one request, and then replaces the three
    collections by the split of its fresh result, keeping no contract of the
    previous fetch; only when the result cannot be read (the query resolved
    to null) or the split throws are the old collections kept and the error
    message shown.  The guessed package id is not invalidated.  When a
    non-empty id is cached, the session is unchanged and the first request
    is the query with the template ids built from that id.  When none is
    cached, the first request is the query with no template ids, by which
    [findPackageId] searches, and the session ends as [findPackageId]
    leaves it: unchanged, or with the discovered id stored.  In neither case
    does Refresh remove an entry.  Clear Cache is a Refresh run after
    removing [daml_package_id].  Without a token Refresh does nothing. *)
Theorem refresh_replaces_collections_and_keeps_package_id `{Host}
    (env : Env) (st : State) (sent : list Request) :
  let se := session st in
  let old := view st in
  let kept err :=
    mkView (user old) false (Some (message err))
      (simpleTokens old) (escrows old) (collateralLocks old) in
  let query := DamlApi.queryRequest (DamlApi.bearer (Js.toStringNullable (token se))) in
  if Js.truthyStr (token se)
  then
    exists result se' reqs,
      run env AppRevised.queryAll se sent = (Returned result, se', (sent ++ reqs)%list)
      /\ reqs <> []
      /\ run env AppRevised.refresh st sent
         = (Returned tt,
            mkState se'
              (match Js.getProp result "result" with
               | inl err => kept err
               | inr contracts =>
                   match AppRevised.splitByTemplate (Js.orEmptyArray contracts) with
                   | inr (tokens, escrows, locks) =>
                       mkView (user old) false None (JArr tokens) (JArr escrows) (JArr locks)
                   | inl err => kept err
                   end
               end),
            (sent ++ reqs)%list)
      /\ (if Js.truthyStr (localStorage se !! "daml_package_id")
          then
            se' = se
            /\ exists cached,
                 localStorage se !! "daml_package_id" = Some cached
                 /\ head reqs = Some (query [cached ++ ":SimpleToken:SimpleToken";
                                             cached ++ ":Escrow:Escrow";
                                             cached ++ ":CollateralLock:CollateralLock"])
          else
            se' = (run env DamlApi.findPackageId se sent).1.2
            /\ head reqs = Some (query [])
            /\ (se' = se
                \/ exists discovered,
                     (run env DamlApi.findPackageId se sent).1.1
                       = Returned (Some discovered)
                     /\ se' = withItem "daml_package_id" (Js.toString discovered) se))
      /\ Keeps (packageKey :: sessionKeys) se se'
      /\ run env AppRevised.clearCache st sent
         = run env AppRevised.refresh
               (mkState (withoutItem "daml_package_id" se) old) sent
  else run env AppRevised.refresh st sent = (Returned tt, st, sent).
Proof.
  intros se old kept query. subst se old kept query.
  destruct (Js.truthyStr (token (session st))) eqn:Hheld.
  - pose proof (refresh_run env st sent Hheld) as Hrefresh.
    destruct (NoThrow_run AppRevised.queryAll env (session st) sent queryAll_NoThrow)
      as [result Hresult].
    destruct (Sends_run _ AppRevised.queryAll env (session st) sent
                (queryAll_sends (session st) Hheld) (Steady_refl _ _))
      as (reqs & Hsent & Hne).
    destruct (Safe_run _ _ AppRevised.queryAll env (session st) sent
                (queryAll_safe (packageKey :: sessionKeys) (session st)) (Steady_refl _ _))
      as (_ & _ & _ & _ & Hkeeps).
    destruct (run env AppRevised.queryAll (session st) sent) as [[o se'] sent'] eqn:Hrun.
    cbn in Hresult, Hsent, Hkeeps. subst o sent'.
    exists result, se', reqs.
    split; [reflexivity|]. split; [exact Hne|]. split; [exact Hrefresh|].
    split; [|split; [exact Hkeeps|]].
    + destruct (Js.truthyStr (localStorage (session st) !! "daml_package_id")) eqn:Hcache.
      * destruct (localStorage (session st) !! "daml_package_id") as [cached|] eqn:Hcached;
          [|discriminate].
        cbn in Hcache. apply negb_true_iff in Hcache.
        destruct (queryAll_with_cached_id env (session st) sent cached Hheld Hcached Hcache)
          as (reqs' & Hsent' & Hstate).
        rewrite Hrun in Hsent', Hstate. cbn in Hsent', Hstate.
        apply app_inv_head in Hsent'. subst. split; [reflexivity|]. by exists cached.
      * destruct (queryAll_after_findPackageId env (session st) sent Hheld)
          as (result' & rest & Hafter).
        destruct (findPackageId_first_request env (session st) sent Hcache) as (rest' & Hfirst).
        pose proof (findPackageId_outcome env (session st) sent) as Hfind.
        rewrite Hcache in Hfind.
        rewrite Hrun in Hafter.
        destruct (run env DamlApi.findPackageId (session st) sent) as [[[v|e] se1] sent1];
          [|destruct Hfind].
        cbn [fst snd] in *. subst sent1.
        injection Hafter as _ -> Hreqs.
        rewrite <- app_assoc in Hreqs. apply app_inv_head in Hreqs. subst reqs.
        split; [reflexivity|]. split; [reflexivity|].
        destruct Hfind as [[-> ->]|(discovered & -> & ->)]; [by left | right; eauto].
    + unfold AppRevised.clearCache. rewrite run_bind, run_api. reflexivity.
  - unfold AppRevised.refresh, AppRevised.fetchAllContracts.
    rewrite run_bind, run_api. cbn [DamlApi.isAuthenticated read run]. rewrite Hheld.
    cbn. by destruct st.
Qed.

(** C4, counterexample to 'the invalidation extends to the guessed package
    id'.  With the stale id cached, Refresh queries with template ids built
    from the stale id, shows three empty collections and leaves
    [daml_package_id] as it was. *)
Lemma refresh_keeps_the_guessed_package_id :
  let st := Scenario.showing (Scenario.loggedIn "t" {["daml_package_id" := "stale"]}) in
  let '(_, st', sent') := run (Scenario.templateIn [] "x") AppRevised.refresh st [] in
  collections (view st') = (JArr [], JArr [], JArr [])
  /\ localStorage (session st') !! "daml_package_id" = Some "stale"
  /\ body <$> sent'
     = [DamlApi.queryBody ["stale:SimpleToken:SimpleToken"; "stale:Escrow:Escrow";
                           "stale:CollateralLock:CollateralLock"]].
Proof. vm_compute. repeat split. Qed.

(** A Refresh whose query is answered with the JSON text null shows the
    error of reading its result and keeps the collections of the previous
    fetch. *)
Example refresh_of_a_null_answer :
  let st := Scenario.showing (Scenario.loggedIn "t" {["daml_package_id" := "p"]}) in
  let env := mkEnv (fun _ _ => Scenario.nullBody) 0 in
  let '(o, st', _) := run env AppRevised.refresh st [] in
  o = Returned tt
  /\ error (view st') = Some nullResult
  /\ collections (view st') = collections (view st).
Proof. vm_compute. repeat split. Qed.

(* ===================================================================== *)
(** ** What stays in localStorage                                        *)
(* ===================================================================== *)

Section Persistence.
Context `{Host}.
Arguments Steady : simpl never.
Arguments Authorized : simpl never.

End Persistence.





(* ===================================================================== *)
(** ** The three queries of the dashboard, in flight together            *)
(* ===================================================================== *)

Import Parallel.

Section Tasks.
Context `{Host}.

Lemma advance_tryCatch {S A} now who (p : Prog S A) h s log :
  advance now who (tryCatch p h) s log
  = match advance now who p s log with
    | (Waiting k, s', log') => (Waiting (fun r => tryCatch (k r) h), s', log')
    | (Settled (Returned a), s', log') => (Settled (Returned a), s', log')
    | (Settled (Thrown e), s', log') => advance now who (h e) s' log'
    end.
Proof.
  revert s log. induction p as [a|e|req k IH|k IH|g k IH|k IH]; intros s log; cbn; auto.
Qed.

Lemma advance_orEmpty now who p s log :
  advance now who (App.orEmpty p) s log
  = let '(slot, s', log') := advance now who p s log in (caught slot, s', log').
Proof.
  unfold App.orEmpty. rewrite advance_tryCatch.
  destruct (advance now who p s log) as [[[k|[r|e]] s'] log']; reflexivity.
Qed.

Lemma spawn_caught now tasks pool :
  spawn now (App.orEmpty <$> tasks) (caughtPool pool) = caughtPool (spawn now tasks pool).
Proof.
  revert pool. induction tasks as [|task rest IH]; intros pool; [reflexivity|].
  cbn [fmap list_fmap spawn]. cbn [caughtPool state sent slots].
  rewrite length_fmap, advance_orEmpty.
  destruct (advance now (length (slots pool)) task (state pool) (sent pool)) as [[slot s'] log'].
  specialize (IH (mkPool s' log' (slots pool ++ [slot]))).
  unfold caughtPool in IH. cbn [state sent slots] in IH. rewrite fmap_app in IH. exact IH.
Qed.

Lemma deliver_caught now who r pool :
  deliver now who r (caughtPool pool) = caughtPool (deliver now who r pool).
Proof.
  unfold deliver. cbn [caughtPool state sent slots]. rewrite list_lookup_fmap.
  destruct (slots pool !! who) as [[k|o]|] eqn:Hslot; cbn.
  - rewrite advance_orEmpty.
    destruct (advance now who (k r) (state pool) (sent pool)) as [[slot s'] log'].
    unfold caughtPool. cbn. by rewrite list_fmap_insert.
  - by destruct o.
  - reflexivity.
Qed.

Lemma Pool_run_caught now events pool :
  Pool_run now events (caughtPool pool) = caughtPool (Pool_run now events pool).
Proof.
  revert pool. induction events as [|[who r] events IH]; intros pool; [reflexivity|].
  cbn. rewrite deliver_caught. apply IH.
Qed.
End Tasks.

Ltac fallback_step :=
  first
    [ progress cbn
    | lazymatch goal with
      | |- True => exact Logic.I
      | |- _ = _ => reflexivity
      | |- _ /\ _ => split
      | |- forall _, _ => intro
      | |- Safe _ _ (lift ?x) => apply Safe_lift
      | |- Safe _ _ (if ?b then _ else _) => destruct b eqn:?
      | |- Safe _ _ (match ?x with _ => _ end) => destruct x eqn:?
      end
    | match goal with
      | |- Safe _ _ ?p =>
          match p with
          | context [if ?b then _ else _] =>
              lazymatch b with
              | true => fail
              | false => fail
              | _ => destruct b eqn:?
              end
          | context [lift ?x] =>
              lazymatch x with
              | inl _ => fail
              | inr _ => fail
              | _ => destruct x eqn:?
              end
          end
      end ].

Section Dashboard.
Context `{Host}.

Lemma Quiet_orEmpty_api (p : Prog Session JSON) : Quiet (App.orEmpty (Component.api p)).
Proof.
  unfold App.orEmpty, Component.api.
  induction p as [a|e|req k IH|k IH|g k IH|k IH]; cbn; auto.
Qed.

Lemma advance_Quiet {A} now who (p : Prog State A) st log :
  Quiet p ->
  QuietSlot (advance now who p st log).1.1
  /\ view (advance now who p st log).1.2 = view st.
Proof.
  revert st log. induction p as [a|e|req k IH|k IH|g k IH|k IH]; intros st log Hq; cbn in *.
  - by split.
  - destruct Hq.
  - by split.
  - by apply IH.
  - destruct Hq as [Hview Hk]. destruct (IH (g st) log Hk) as [Hslot Hv].
    split; [exact Hslot|]. by rewrite Hv.
  - by apply IH.
Qed.

(** The three queries are in flight and the body waits for them. *)
Lemma start_fetchAllContracts now st :
  Js.truthyStr (token (session st)) = true ->
  exists k0 k1 k2,
    start now App.fetchAllContracts st
    = mkConfig
        (caughtPool
           (mkPool (fetching st)
              (firstThree st)
              [Waiting k0; Waiting k1; Waiting k2]))
        (Gathering App.resume)
    /\ spawn now App.calls (mkPool (fetching st) [] [])
       = mkPool (fetching st)
              (firstThree st)
              [Waiting k0; Waiting k1; Waiting k2]
    /\ (forall r, Quiet (App.orEmpty (k0 r)) /\ Quiet (App.orEmpty (k1 r))
                  /\ Quiet (App.orEmpty (k2 r)))
    /\ (forall r, Safe (fun _ => True) IsFallback (k0 r)
                  /\ Safe (fun _ => True) IsFallback (k1 r)
                  /\ Safe (fun _ => True) IsFallback (k2 r)).
Proof.
  intros Hheld.
  assert (Hspawn : exists k0 k1 k2,
    spawn now App.calls (mkPool (fetching st) [] [])
    = mkPool (fetching st)
        (firstThree st)
        [Waiting k0; Waiting k1; Waiting k2]
    /\ (forall r, Quiet (App.orEmpty (k0 r)) /\ Quiet (App.orEmpty (k1 r))
                  /\ Quiet (App.orEmpty (k2 r)))
    /\ (forall r, Safe (fun _ => True) IsFallback (k0 r)
                  /\ Safe (fun _ => True) IsFallback (k1 r)
                  /\ Safe (fun _ => True) IsFallback (k2 r))).
  { unfold App.calls. cbn. repeat (rewrite Hheld; cbn).
    do 3 eexists. split; [reflexivity|]. split.
    - intros r. repeat split; apply Quiet_orEmpty_api.
    - intros r. repeat split; unfold IsFallback; repeat fallback_step. }
  destruct Hspawn as (k0 & k1 & k2 & Hspawn & Hquiet & Hsafe).
  exists k0, k1, k2. split; [|split; [exact Hspawn | split; [exact Hquiet | exact Hsafe]]].
  unfold start, App.fetchAllContracts.
  cbn -[App.queries spawn gather]. rewrite Hheld. cbn -[App.queries spawn gather].
  change (mkPool ?s [] []) with (caughtPool (mkPool s [] [])).
  unfold App.queries. rewrite spawn_caught.
  change {| session := session st; view := _ |} with (fetching st).
  rewrite Hspawn. reflexivity.
Qed.
End Dashboard.

Section Gathering.
Context `{Host}.

Lemma deliver_Quiet now who r (X : Pool State) :
  Forall QuietSlot (slots X) ->
  Forall QuietSlot (slots (deliver now who r X))
  /\ view (state (deliver now who r X)) = view (state X)
  /\ length (slots (deliver now who r X)) = length (slots X).
Proof.
  intros Hq. unfold deliver.
  destruct (slots X !! who) as [[k|o]|] eqn:Hslot; try done.
  pose proof (Forall_lookup_1 _ _ _ _ Hq Hslot) as Hk. cbn in Hk.
  destruct (advance_Quiet now who (k r) (state X) (sent X) (Hk r)) as [Hslot' Hview].
  destruct (advance now who (k r) (state X) (sent X)) as [[slot s'] log']. cbn in *.
  split; [by apply Forall_insert|]. split; [exact Hview|]. by rewrite length_insert.
Qed.

Lemma deliver_settled now who r (X : Pool State) :
  forallb isSettled (slots X) = true -> deliver now who r X = X.
Proof.
  intros Hall. unfold deliver.
  destruct (slots X !! who) as [[k|o]|] eqn:Hslot; try done.
  rewrite forallb_forall in Hall. apply list_elem_of_lookup_2, list_elem_of_In in Hslot.
  by apply Hall in Hslot.
Qed.

Lemma caught_settled (l : list (Slot State JSON)) :
  forallb isSettled (caught <$> l) = forallb isSettled l.
Proof.
  induction l as [|[k|[r|e]] l IH]; cbn; auto.
Qed.

(** The body after [Promise.all], run on the three values it resolved
    to. *)
Lemma resume_settled now who st log r0 r1 r2 :
  error (view st) = None ->
  advance now who (App.resume (inr [r0; r1; r2])) st log
  = (Settled (Returned tt),
     mkState (session st)
       (settledView (view st) (Returned r0) (Returned r1) (Returned r2)),
     log).
Proof.
  intros Herr. destruct st as [se [u l e t es ls]]. cbn in Herr. subst e.
  destruct r0; try reflexivity; destruct r1; try reflexivity; destruct r2; reflexivity.
Qed.

(** What [Promise.all] does with three tasks none of which can reject. *)
Lemma gather_three now (X : Pool State) a b c :
  slots X = [a; b; c] -> Forall QuietSlot (slots X) ->
  error (view (state X)) = None ->
  gather now (mkConfig X (Gathering App.resume))
  = match a, b, c with
    | Settled (Returned r0), Settled (Returned r1), Settled (Returned r2) =>
        mkConfig
          (mkPool
             (mkState (session (state X))
                (settledView (view (state X)) (Returned r0) (Returned r1) (Returned r2)))
             (sent X) (slots X))
          (Resumed (Settled (Returned tt)))
    | _, _, _ => mkConfig X (Gathering App.resume)
    end.
Proof.
  intros Hslots Hq Herr. rewrite Hslots in Hq.
  apply Forall_cons in Hq as [Ha Hq]. apply Forall_cons in Hq as [Hb Hq].
  apply Forall_cons in Hq as [Hc _].
  unfold gather. cbn [main pool]. rewrite Hslots.
  destruct a as [ka|[ra|ea]]; [| |destruct Ha];
  destruct b as [kb|[rb|eb]]; try (by destruct Hb);
  destruct c as [kc|[rc|ec]]; try (by destruct Hc); try reflexivity.
  cbn [firstRejection allResolved fmap option_fmap option_map length].
  by rewrite resume_settled.
Qed.
End Gathering.

Section Invariant.
Context `{Host}.

Lemma FetchInvariant_step now st c bare ev :
  FetchInvariant st c bare ->
  FetchInvariant st (step now c ev) (deliver now ev.1 ev.2 bare).
Proof.
  destruct ev as [who r]. cbn [fst snd].
  intros (Hslots & Hsent & Hlen & Hq & Hcase).
  unfold FetchInvariant, step. cbn [fst snd].
  destruct (pending c) eqn:Hpending.
  - destruct Hcase as (Hmain & Hstate & Hview).
    assert (Hpool : pool c = caughtPool bare).
    { destruct c as [[s l sl] m]. unfold caughtPool. cbn in *. by subst. }
    destruct (decide (who = length (slots (pool c)))) as [Hwho|Hwho].
    + rewrite Hmain.
      assert (Hnone : deliver now who r bare = bare).
      { unfold deliver. rewrite Hslots, length_fmap, Hlen in Hwho. subst who.
        rewrite lookup_ge_None_2; [reflexivity | rewrite Hlen; apply le_n]. }
      rewrite Hnone. rewrite Hpending. by repeat split.
    + rewrite Hmain, Hpool, deliver_caught.
      set (bare' := deliver now who r bare).
      assert (Hq' : Forall QuietSlot (slots (caughtPool bare'))
                    /\ view (state (caughtPool bare')) = view (state bare)
                    /\ length (slots (caughtPool bare')) = 3%nat).
      { subst bare'. rewrite <- deliver_caught, <- Hpool.
        destruct (deliver_Quiet now who r (pool c) Hq) as (Ha & Hb & Hc).
        repeat split; [exact Ha | by rewrite Hb, Hstate | by rewrite Hc, Hslots, length_fmap]. }
      destruct Hq' as (Hq' & Hview' & Hlen').
      cbn [caughtPool slots state] in Hview', Hlen'. rewrite length_fmap in Hlen'.
      destruct (slots bare') as [|a [|b [|d [|? ?]]]] eqn:Hbare'; try discriminate.
      rewrite (gather_three now (caughtPool bare') (caught a) (caught b) (caught d));
        [| by cbn; rewrite Hbare' | exact Hq'
         | by cbn [caughtPool state]; rewrite Hview', Hview].
      cbn [caughtPool slots] in Hq'. rewrite Hbare' in Hq'. cbn in Hq'.
      apply Forall_cons in Hq' as [Ha Hq']. apply Forall_cons in Hq' as [Hb Hq'].
      apply Forall_cons in Hq' as [Hd _].
      destruct a as [ka|[ra|ea]], b as [kb|[rb|eb]], d as [kd|[rd|ed]];
        unfold pending; cbn -[settledView]; rewrite ?Hbare'; cbn -[settledView];
        rewrite ?Hview', ?Hview; cbn -[settledView];
        (split; [reflexivity|]); (split; [reflexivity|]); (split; [reflexivity|]);
        (split; [repeat (apply Forall_cons; split; [assumption|]); apply Forall_nil|]);
        first [ by repeat split
              | (split; [reflexivity|]); do 3 eexists; split; reflexivity ].
  - destruct Hcase as (Hmain & o0 & o1 & o2 & Hbare & Hview).
    assert (Hall : forallb isSettled (slots (pool c)) = true)
      by (unfold pending in Hpending; by apply negb_false_iff in Hpending).
    assert (Hall' : forallb isSettled (slots bare) = true)
      by (by rewrite Hslots, caught_settled in Hall).
    rewrite (deliver_settled now who r bare Hall').
    rewrite (deliver_settled now who r (pool c) Hall).
    destruct (decide (who = length (slots (pool c)))) as [Hwho|Hwho].
    + rewrite Hmain. rewrite Hpending. split; [exact Hslots|]. split; [exact Hsent|].
      split; [exact Hlen|]. split; [exact Hq|]. split; [exact Hmain|]. eauto.
    + unfold gather. cbn [main pool]. rewrite Hmain.
      assert (Hc : {| pool := pool c; main := Resumed (Settled (Returned ())) |} = c)
        by (destruct c; cbn in *; by subst).
      rewrite Hc, Hpending. split; [exact Hslots|]. split; [exact Hsent|].
      split; [exact Hlen|]. split; [exact Hq|]. split; [exact Hmain|]. eauto.
Qed.

Lemma FetchInvariant_run now st events c bare :
  FetchInvariant st c bare ->
  FetchInvariant st (run_events now events c) (Pool_run now events bare).
Proof.
  revert c bare. induction events as [|ev events IH]; intros c bare Hinv; [exact Hinv|].
  cbn. apply IH. by apply FetchInvariant_step.
Qed.

Lemma FetchInvariant_start now st :
  Js.truthyStr (token (session st)) = true ->
  FetchInvariant st (start now App.fetchAllContracts st)
    (spawn now App.calls (mkPool (fetching st) [] [])).
Proof.
  intros Hheld.
  destruct (start_fetchAllContracts now st Hheld) as (k0 & k1 & k2 & Hstart & Hspawn & Hquiet & _).
  rewrite Hstart, Hspawn. unfold FetchInvariant. cbn.
  repeat split; try reflexivity.
  repeat constructor; intros r; apply Hquiet.
Qed.
End Invariant.

Section Fallback.
Context `{Host}.

Lemma advance_fallback now who (p : Prog State JSON) st log :
  Safe (fun _ => True) IsFallback p ->
  exists extra,
    (advance now who p st log).2 = (log ++ extra)%list
    /\ Forall (fun x => IsFallback x.2) extra
    /\ FallbackSlot (advance now who p st log).1.1.
Proof.
  revert st log. induction p as [a|e|req k IH|k IH|g k IH|k IH]; intros st log Hsafe; cbn in *.
  - exists []. by rewrite app_nil_r.
  - exists []. by rewrite app_nil_r.
  - destruct Hsafe as [Hreq Hk]. exists [(who, req)]. repeat split; [|exact Hk].
    by repeat constructor.
  - by apply IH, Hsafe.
  - by apply IH, Hsafe.
  - by apply IH, Hsafe.
Qed.

Lemma deliver_fallback now who r (X : Pool State) :
  Forall FallbackSlot (slots X) ->
  exists extra,
    sent (deliver now who r X) = (sent X ++ extra)%list
    /\ Forall (fun x => IsFallback x.2) extra
    /\ Forall FallbackSlot (slots (deliver now who r X)).
Proof.
  intros Hslots. unfold deliver.
  destruct (slots X !! who) as [[k|o]|] eqn:Hslot;
    try (exists []; by rewrite app_nil_r).
  pose proof (Forall_lookup_1 _ _ _ _ Hslots Hslot) as Hk. cbn in Hk.
  destruct (advance_fallback now who (k r) (state X) (sent X) (Hk r)) as (extra & Hsent & Hall & Hslot').
  destruct (advance now who (k r) (state X) (sent X)) as [[slot s'] log']. cbn in *.
  exists extra. repeat split; [exact Hsent | exact Hall | by apply Forall_insert].
Qed.

Lemma Pool_run_fallback now events (X : Pool State) :
  Forall FallbackSlot (slots X) ->
  exists extra,
    sent (Pool_run now events X) = (sent X ++ extra)%list
    /\ Forall (fun x => IsFallback x.2) extra.
Proof.
  revert X. induction events as [|[who r] events IH]; intros X Hslots.
  - exists []. by rewrite app_nil_r.
  - change (Pool_run now ((who, r) :: events) X)
      with (Pool_run now events (deliver now who r X)).
    destruct (deliver_fallback now who r X Hslots) as (extra & Hsent & Hall & Hslots').
    destruct (IH _ Hslots') as (extra' & Hsent' & Hall').
    exists (extra ++ extra')%list. rewrite Hsent', Hsent, app_assoc.
    split; [reflexivity | by apply Forall_app].
Qed.
End Fallback.

Lemma run_events_finished {S} now events (s : S) o :
  run_events now events (mkConfig (mkPool s [] []) (Resumed (Settled o)))
  = mkConfig (mkPool s [] []) (Resumed (Settled o)).
Proof.
  induction events as [|[who r] events IH]; [reflexivity|].
  unfold run_events in *. cbn [fold_left].
  replace (step now _ (who, r)) with (mkConfig (mkPool s [] []) (Resumed (Settled o))); [exact IH|].
  unfold step. cbn. by destruct (decide (who = 0%nat)).
Qed.

(** C3.  With a token held, [fetchAllContracts] sends the three queries as
    it is called and then waits.  Whatever answers arrive, in whatever
    order: as long as one query is pending the view is the one set before
    the queries (loading, no error, the old collections) and the function
    body is still waiting; when none is pending the body has run to its
    end, all three tasks are settled and loading is false.  The queries
    may settle in any order: for every arrangement i, j, k of the three
    tasks there is a run in which i settles first, then j, then k.  Without
    a token the call ends at once. *)
Theorem view_changes_only_after_all_three_settle `{Host} (now : Z) (st : State) :
  let c0 := start now App.fetchAllContracts st in
  if Js.truthyStr (token (session st))
  then
    sent (pool c0) = firstThree st
    /\ (forall events : list Event,
          let c := run_events now events c0 in
          if pending c
          then view (state (pool c)) = view (fetching st)
               /\ collections (view (state (pool c))) = collections (view st)
               /\ main c = Gathering App.resume
          else main c = Resumed (Settled (Returned tt))
               /\ settledTasks c = [0; 1; 2]%nat
               /\ loading (view (state (pool c))) = false)
    /\ (forall (i j k : nat) (r0 r1 r2 : Exc Response),
          (i < 3)%nat -> (j < 3)%nat -> (k < 3)%nat -> i <> j -> j <> k -> i <> k ->
          settlesAtOnce r0 = true -> settlesAtOnce r1 = true -> settlesAtOnce r2 = true ->
          settledTasks c0 = []
          /\ settledTasks (run_events now [(i, r0)] c0) = [i]
          /\ settledTasks (run_events now [(i, r0); (j, r1)] c0) ≡ₚ [i; j]
          /\ pending (run_events now [(i, r0); (j, r1)] c0) = true
          /\ pending (run_events now [(i, r0); (j, r1); (k, r2)] c0) = false)
  else forall events : list Event,
         run_events now events c0
         = mkConfig (mkPool st [] []) (Resumed (Settled (Returned tt))).
Proof.
  intros c0. destruct (Js.truthyStr (token (session st))) eqn:Hheld.
  - split; [|split].
    + subst c0. destruct (start_fetchAllContracts now st Hheld) as (k0 & k1 & k2 & -> & _).
      reflexivity.
    + intros events c.
      pose proof (FetchInvariant_run now st events _ _ (FetchInvariant_start now st Hheld))
        as (Hslots & Hsent & Hlen & Hq & Hcase).
      fold c0 in Hslots, Hsent, Hlen, Hq, Hcase. fold c in Hslots, Hsent, Hlen, Hq, Hcase.
      destruct (pending c).
      * destruct Hcase as (Hmain & Hstate & Hview). rewrite Hstate.
        repeat split; [exact Hview | unfold collections; by rewrite Hview | exact Hmain].
      * destruct Hcase as (Hmain & o0 & o1 & o2 & Hbare & Hview).
        split; [exact Hmain|]. split.
        -- unfold settledTasks, outcomeOf. rewrite Hslots, Hbare. cbn.
           by destruct o0, o1, o2.
        -- rewrite Hview. unfold settledView.
           by destruct (unreadable o0), (unreadable o1), (unreadable o2).
    + intros i j k r0 r1 r2 Hi Hj Hk Hij Hjk Hik H0 H1 H2.
      assert (Hbare : forall events,
                let seen :=
                  mkConfig
                    (caughtPool
                       (Pool_run now events (spawn now App.calls (mkPool (fetching st) [] []))))
                    (Gathering App.resume) in
                settledTasks (run_events now events c0) = settledTasks seen
                /\ pending (run_events now events c0) = pending seen).
      { intros events.
        destruct (FetchInvariant_run now st events _ _ (FetchInvariant_start now st Hheld))
          as (Hslots & _).
        fold c0 in Hslots.
        unfold settledTasks, outcomeOf, pending. cbn [pool caughtPool slots].
        by rewrite Hslots. }
      change c0 with (run_events now [] c0) at 1.
      rewrite !(proj1 (Hbare _)), !(proj2 (Hbare _)).
      unfold App.calls.
      cbn. repeat (rewrite Hheld; cbn).
      destruct i as [|[|[|i]]]; [| | |lia];
        (destruct j as [|[|[|j]]]; [| | |lia]; try congruence);
        (destruct k as [|[|[|k]]]; [| | |lia]; try congruence);
        destruct r0 as [e0|[ok0 t0 [j0|j0]]]; cbn in H0; subst;
        destruct r1 as [e1|[ok1 t1 [j1|j1]]]; cbn in H1; subst;
        destruct r2 as [e2|[ok2 t2 [j2|j2]]]; cbn in H2; subst;
        repeat split; first [reflexivity | apply perm_swap].
  - intros events. subst c0. unfold start, App.fetchAllContracts. cbn. rewrite Hheld. cbn.
    apply run_events_finished.
Qed.


(* ===================================================================== *)
(** ** The token and the session across a reload                          *)
(* ===================================================================== *)

Lemma includes_single_cons c a rest :
  Js.includes (String a rest) (String c "")
  = Ascii.eqb c a || Js.includes rest (String c "").
Proof.
  cbn [Js.includes String.prefix].
  destruct (ascii_dec c a) as [->|Hne].
  - rewrite Ascii.eqb_refl. by destruct rest.
  - apply Ascii.eqb_neq in Hne. rewrite Hne. reflexivity.
Qed.

Lemma includes_single_app c a b :
  Js.includes (a ++ b) (String c "")
  = Js.includes a (String c "") || Js.includes b (String c "").
Proof.
  induction a as [|x a IH].
  - reflexivity.
  - change (String x a ++ b) with (String x (a ++ b)).
    rewrite !includes_single_cons, IH. by rewrite orb_assoc.
Qed.

Lemma stripPadding_clean s : Js.includes (Js.stripPadding s) "=" = false.
Proof.
  induction s as [|c s IH]; [reflexivity|].
  cbn [Js.stripPadding]. destruct (Ascii.eqb c "=") eqn:Hc; [exact IH|].
  rewrite includes_single_cons, IH, Ascii.eqb_sym, Hc. reflexivity.
Qed.

Lemma dotted_nonempty a b : Js.truthyStr (Some (a ++ "." ++ b)) = true.
Proof. by destruct a. Qed.

(** X1.  [createSimpleJWT] sends nothing and changes nothing; the token it
    returns is [header.payload.] with an empty signature, holds no padding
    character [=], is never the empty string, and its header is the same
    for every user, party and moment. *)
Theorem createSimpleJWT_token_has_no_padding `{Host}
    (env : Env) (userId : string) (party : JsVal) (s : Session) (sent : list Request) :
  exists header payload,
    run env (DamlApi.createSimpleJWT userId party) s sent
    = (Returned (header ++ "." ++ payload ++ "."), s, sent)
    /\ Js.includes (header ++ "." ++ payload ++ ".") "=" = false
    /\ Js.truthyStr (Some (header ++ "." ++ payload ++ ".")) = true
    /\ (forall userId' party' s' sent',
          exists payload',
            run env (DamlApi.createSimpleJWT userId' party') s' sent'
            = (Returned (header ++ "." ++ payload' ++ "."), s', sent')).
Proof.
  unfold DamlApi.createSimpleJWT. cbn [run].
  do 2 eexists. split; [reflexivity|]. split; [|split].
  - rewrite !includes_single_app, !stripPadding_clean. reflexivity.
  - apply dotted_nonempty.
  - intros. eexists. reflexivity.
Qed.



(** X3.  After [logout] a page reload finds nothing to restore: the
    constructor gives back the logged-out session itself, [isAuthenticated]
    is false, every ledger operation throws 'Not authenticated' without
    sending, and the cached package id is still there. *)
Theorem reload_after_logout_stays_logged_out `{Host}
    (env : Env) (s : Session) (sent : list Request) :
  let s' := (run env DamlApi.logout s sent).1.2 in
  let reloaded := DamlApi.constructor (localStorage s') in
  reloaded = s'
  /\ run env DamlApi.isAuthenticated reloaded sent = (Returned false, reloaded, sent)
  /\ (forall op, run env (perform op) reloaded sent
                 = (Thrown DamlApi.NotAuthenticated, reloaded, sent))
  /\ localStorage reloaded !! "daml_package_id" = localStorage s !! "daml_package_id".
Proof.
  cbn. unfold DamlApi.constructor. cbn.
  rewrite lookup_delete_ne, lookup_delete_ne, lookup_delete_eq by done.
  rewrite (lookup_delete_ne _ "daml_party_identifier" "daml_user_id") by done.
  rewrite lookup_delete_eq, lookup_delete_eq.
  repeat split.
  - intros op. by apply perform_unauthenticated.
  - by rewrite !lookup_delete_ne.
Qed.

(* ===================================================================== *)
(** ** What the ledger operations leave alone                             *)
(* ===================================================================== *)

Lemma ChangesOnlyPackageId_refl s : ChangesOnlyPackageId s s.
Proof. by repeat split. Qed.

Lemma ChangesOnlyPackageId_setItem s0 s value :
  ChangesOnlyPackageId s0 s ->
  ChangesOnlyPackageId s0
    (mkSession (token s) (userId s) (partyIdentifier s)
       (<["daml_package_id" := value]> (localStorage s))).
Proof.
  intros (Ht & Hu & Hp & Hl). repeat split; try assumption.
  intros key Hkey. cbn. rewrite lookup_insert_ne by done. by apply Hl.
Qed.

Lemma ChangesOnlyPackageId_removeItem s0 s :
  ChangesOnlyPackageId s0 s ->
  ChangesOnlyPackageId s0
    (mkSession (token s) (userId s) (partyIdentifier s)
       (delete "daml_package_id" (localStorage s))).
Proof.
  intros (Ht & Hu & Hp & Hl). repeat split; try assumption.
  intros key Hkey. cbn. rewrite lookup_delete_ne by done. by apply Hl.
Qed.

Ltac walk_step leaf :=
  first
    [ progress cbn
    | lazymatch goal with
      | |- True => exact Logic.I
      | |- _ /\ _ => split
      | |- forall _, _ => intro
      | |- Safe _ _ (lift ?x) => apply Safe_lift
      | |- Safe _ _ (if ?b then _ else _) => destruct b eqn:?
      | |- Safe _ _ (match ?x with _ => _ end) => destruct x eqn:?
      end
    | lazymatch goal with |- Safe _ _ _ => solve [auto with walk] end
    | match goal with
      | |- Safe _ _ ?p =>
          match p with
          | context [if ?b then _ else _] =>
              lazymatch b with
              | true => fail
              | false => fail
              | _ => destruct b eqn:?
              end
          | context [lift ?x] =>
              lazymatch x with
              | inl _ => fail
              | inr _ => fail
              | _ => destruct x eqn:?
              end
          | tryCatch _ _ => apply Safe_tryCatch
          | bind _ _ => apply Safe_bind
          | _ ≫= _ => apply Safe_bind
          end
      end
    | lazymatch goal with
      | |- Safe _ _ _ => fail
      | |- _ => solve [leaf]
      end ].

Ltac frame_leaf :=
  first [ assumption
        | apply ChangesOnlyPackageId_setItem; assumption
        | apply ChangesOnlyPackageId_removeItem; assumption ].

Ltac frame := repeat walk_step frame_leaf.

Create HintDb walk.

Section Frame.
Context `{Host}.
Arguments ChangesOnlyPackageId : simpl never.
Variable s0 : Session.

Lemma getPackages_frame :
  Safe (ChangesOnlyPackageId s0) (fun _ => True) DamlApi.getPackages.
Proof. unfold DamlApi.getPackages. frame. Qed.
#[local] Hint Resolve getPackages_frame : walk.

Lemma createContract_frame a b :
  Safe (ChangesOnlyPackageId s0) (fun _ => True) (DamlApi.createContract a b).
Proof. unfold DamlApi.createContract. frame. Qed.
#[local] Hint Resolve createContract_frame : walk.

Lemma exerciseChoice_frame a b c :
  Safe (ChangesOnlyPackageId s0) (fun _ => True) (DamlApi.exerciseChoice a b c).
Proof. unfold DamlApi.exerciseChoice. frame. Qed.
#[local] Hint Resolve exerciseChoice_frame : walk.

Lemma scanContracts_frame l :
  Safe (ChangesOnlyPackageId s0) (fun _ => True) (DamlApi.scanContracts l).
Proof.
  induction l as [|c l IH]; [exact Logic.I|].
  cbn [DamlApi.scanContracts]. frame; try exact IH.
Qed.
#[local] Hint Resolve scanContracts_frame : walk.

Lemma probePackages_frame l :
  Safe (ChangesOnlyPackageId s0) (fun _ => True) (DamlApi.probePackages l).
Proof.
  induction l as [|c l IH]; [exact Logic.I|].
  cbn [DamlApi.probePackages]. frame; try exact IH.
Qed.
#[local] Hint Resolve probePackages_frame : walk.

Lemma findPackageId_frame :
  Safe (ChangesOnlyPackageId s0) (fun _ => True) DamlApi.findPackageId.
Proof.
  unfold DamlApi.findPackageId. frame; auto.
Qed.
#[local] Hint Resolve findPackageId_frame : walk.

Lemma queryContracts_frame ids :
  Safe (ChangesOnlyPackageId s0) (fun _ => True) (DamlApi.queryContracts ids).
Proof.
  unfold DamlApi.queryContracts. frame; auto.
Qed.
#[local] Hint Resolve queryContracts_frame : walk.

Lemma tryPackages_frame issuer owner amount packageIds l :
  Safe (ChangesOnlyPackageId s0) (fun _ => True)
    (DamlApi.tryPackages issuer owner amount packageIds l).
Proof.
  induction l as [|c l IH]; [exact Logic.I|].
  cbn [DamlApi.tryPackages]. frame; auto.
Qed.
#[local] Hint Resolve tryPackages_frame : walk.

Lemma createSimpleToken_frame issuer owner amount :
  Safe (ChangesOnlyPackageId s0) (fun _ => True) (DamlApi.createSimpleToken issuer owner amount).
Proof.
  unfold DamlApi.createSimpleToken. frame; auto.
Qed.

Lemma perform_frame op :
  Safe (ChangesOnlyPackageId s0) (fun _ => True) (perform op).
Proof.
  destruct op; cbn [perform];
    auto using queryContracts_frame, createContract_frame, exerciseChoice_frame,
               getPackages_frame, createSimpleToken_frame.
Qed.
End Frame.

Lemma perform_changes `{Host} env op s sent :
  ChangesOnlyPackageId s (run env (perform op) s sent).1.2.
Proof.
  destruct (Safe_run _ _ (perform op) env s sent (perform_frame s op)
              (ChangesOnlyPackageId_refl s)) as (_ & _ & _ & Hframe).
  exact Hframe.
Qed.

Lemma findPackageId_changes `{Host} env s sent :
  ChangesOnlyPackageId s (run env DamlApi.findPackageId s sent).1.2.
Proof.
  destruct (Safe_run _ _ DamlApi.findPackageId env s sent (findPackageId_frame s)
              (ChangesOnlyPackageId_refl s)) as (_ & _ & _ & Hframe).
  exact Hframe.
Qed.

(** X4.  A ledger operation, and [findPackageId], change nothing of the
    session but the [daml_package_id] entry: the token, the user id, the
    party identifier and every other entry of localStorage are what they
    were.  [createContract], [exerciseChoice], [getPackages] and
    [queryContracts] called with template ids change nothing at all. *)
Theorem ledger_operations_change_only_the_package_id `{Host}
    (env : Env) (s : Session) (sent : list Request) :
  (forall op, ChangesOnlyPackageId s (run env (perform op) s sent).1.2)
  /\ ChangesOnlyPackageId s (run env DamlApi.findPackageId s sent).1.2
  /\ (forall op,
        match op with
        | CreateContract _ _ | ExerciseChoice _ _ _ | GetPackages
        | QueryContracts (Some (_ :: _)) => (run env (perform op) s sent).1.2 = s
        | _ => True
        end).
Proof.
  split; [|split].
  - intros op. apply perform_changes.
  - apply findPackageId_changes.
  - intros [[[|id ids]|]| | | |]; try exact Logic.I; cbn;
      destruct (Js.truthyStr (token s)); cbn; try reflexivity;
      repeat exec_step; reflexivity.
Qed.



(* ===================================================================== *)
(** ** The requests of createSimpleToken                                  *)
(* ===================================================================== *)

Ltac token_leaf :=
  first
    [ exact Logic.I
    | split;
      [ in_list
      | let t := fresh "t" in
        let Ht := fresh "Ht" in
        intros t Ht; cbn in Ht;
        repeat match type of Ht with
               | _ \/ _ => destruct Ht as [Ht|Ht]
               end;
        first [ subst t; eexists; reflexivity
              | exfalso; exact Ht ] ] ].

Ltac tokens := repeat walk_step token_leaf.

Section TokenRequests.
Context `{Host}.
Arguments TokenRequest : simpl never.

Lemma getPackages_tokens : Safe (fun _ => True) TokenRequest DamlApi.getPackages.
Proof. unfold DamlApi.getPackages. tokens. Qed.
#[local] Hint Resolve getPackages_tokens : walk.

Lemma createContract_tokens p payload :
  Safe (fun _ => True) TokenRequest
    (DamlApi.createContract (DamlApi.simpleTokenTemplate p) payload).
Proof. unfold DamlApi.createContract. tokens. Qed.
#[local] Hint Resolve createContract_tokens : walk.

Lemma scanContracts_tokens l : Safe (fun _ => True) TokenRequest (DamlApi.scanContracts l).
Proof.
  induction l as [|c l IH]; [exact Logic.I|].
  cbn [DamlApi.scanContracts]. tokens; try exact IH.
Qed.
#[local] Hint Resolve scanContracts_tokens : walk.

Lemma probePackages_tokens l : Safe (fun _ => True) TokenRequest (DamlApi.probePackages l).
Proof.
  induction l as [|c l IH]; [exact Logic.I|].
  cbn [DamlApi.probePackages]. tokens; try exact IH.
Qed.
#[local] Hint Resolve probePackages_tokens : walk.

Lemma findPackageId_tokens : Safe (fun _ => True) TokenRequest DamlApi.findPackageId.
Proof. unfold DamlApi.findPackageId. tokens; auto. Qed.
#[local] Hint Resolve findPackageId_tokens : walk.

Lemma tryPackages_tokens issuer owner amount packageIds l :
  Safe (fun _ => True) TokenRequest
    (DamlApi.tryPackages issuer owner amount packageIds l).
Proof.
  induction l as [|c l IH]; [exact Logic.I|].
  cbn [DamlApi.tryPackages]. tokens; auto.
Qed.
#[local] Hint Resolve tryPackages_tokens : walk.

Lemma createSimpleToken_tokens issuer owner amount :
  Safe (fun _ => True) TokenRequest (DamlApi.createSimpleToken issuer owner amount).
Proof. unfold DamlApi.createSimpleToken. tokens; auto. Qed.
End TokenRequests.

Lemma append_cancel (a b c : string) : (a ++ b)%string = (a ++ c)%string -> b = c.
Proof.
  induction a as [|x a IH]; [auto|]. cbn. intros Heq. injection Heq as Heq. auto.
Qed.

(** X6.  Whatever the gateway answers, every request [createSimpleToken]
    sends goes to [/query], [/packages] or [/create], and every template a
    request names, as the [templateId] of a create or among the
    [templateIds] of a query, is [<package>:SimpleToken:SimpleToken]; it
    never calls [/exercise] or [/parties]. *)
Theorem createSimpleToken_creates_nothing_but_tokens `{Host}
    (env : Env) (issuer owner amount : JsVal) (s : Session) (sent : list Request) :
  exists reqs,
    (run env (DamlApi.createSimpleToken issuer owner amount) s sent).2 = (sent ++ reqs)%list
    /\ Forall TokenRequest reqs
    /\ Forall (fun req => url req <> DamlApi.API_BASE_URL ++ "/exercise"
                          /\ url req <> DamlApi.API_BASE_URL ++ "/parties") reqs.
Proof.
  destruct (Safe_run _ _ _ env s sent (createSimpleToken_tokens issuer owner amount) Logic.I)
    as (reqs & Hsent & Hreqs & _).
  exists reqs. split; [exact Hsent|]. split; [exact Hreqs|].
  eapply Forall_impl; [exact Hreqs|].
  intros req [Hurl _]. cbn [In] in Hurl.
  split; intros Heq; rewrite Heq in Hurl;
    destruct Hurl as [Hu|[Hu|[Hu|[]]]];
    apply append_cancel in Hu; discriminate.
Qed.

(* ===================================================================== *)
(** ** One request, one answer                                            *)
(* ===================================================================== *)

(** X7.  With a token held, [getPackages], [createContract] and
    [exerciseChoice] each send exactly one request, leave the session as it
    is, and end as the one answer decides: a rejected fetch or an unreadable
    body is thrown as it comes, a non-OK answer is thrown as
    '<operation> failed: <text>', and an OK answer returns its JSON body. *)
Theorem single_request_operations `{Host}
    (env : Env) (s : Session) (sent : list Request)
    (templateId : string) (payload : JSON) (contractId choice : string) (argument : JsVal) :
  Js.truthyStr (token s) = true ->
  let auth := DamlApi.bearer (Js.toStringNullable (token s)) in
  (exists req,
      url req = DamlApi.API_BASE_URL ++ "/packages" /\ method req = "GET"
      /\ headers req = [auth] /\ body req = None
      /\ run env DamlApi.getPackages s sent
         = (answered "Failed to fetch packages: " (server env sent req), s,
            (sent ++ [req])%list))
  /\ (let req := DamlApi.createRequest auth templateId payload in
      run env (DamlApi.createContract templateId payload) s sent
      = (answered "Create failed: " (server env sent req), s, (sent ++ [req])%list))
  /\ (exists req,
        url req = DamlApi.API_BASE_URL ++ "/exercise" /\ method req = "POST"
        /\ headers req = [DamlApi.contentType; auth]
        /\ run env (DamlApi.exerciseChoice contractId choice argument) s sent
           = (answered "Exercise failed: " (server env sent req), s, (sent ++ [req])%list)).
Proof.
  intros Hheld auth. subst auth. split; [|split].
  - exists (mkRequest (DamlApi.API_BASE_URL ++ "/packages") "GET"
              [DamlApi.bearer (Js.toStringNullable (token s))] None).
    do 4 (split; [reflexivity|]).
    unfold DamlApi.getPackages. cbn. rewrite Hheld. cbn.
    unfold answered.
    match goal with
    | |- context [server ?e ?t ?r] => destruct (server e t r) as [?|[[] [?|?] [?|?]]]
    end; reflexivity.
  - unfold DamlApi.createContract. cbn. rewrite Hheld. cbn.
    unfold answered.
    match goal with
    | |- context [server ?e ?t ?r] => destruct (server e t r) as [?|[[] [?|?] [?|?]]]
    end; reflexivity.
  - exists (mkRequest (DamlApi.API_BASE_URL ++ "/exercise") "POST"
              [DamlApi.contentType; DamlApi.bearer (Js.toStringNullable (token s))]
              (Some (JObj (DamlApi.object [("contractId", Some (JStr contractId));
                                           ("choice", Some (JStr choice));
                                           ("argument", argument)])))).
    do 3 (split; [reflexivity|]).
    unfold DamlApi.exerciseChoice. cbn. rewrite Hheld. cbn.
    unfold answered.
    match goal with
    | |- context [server ?e ?t ?r] => destruct (server e t r) as [?|[[] [?|?] [?|?]]]
    end; reflexivity.
Qed.

Lemma single_request_operations_witness :
  let s := Scenario.loggedIn "t" ∅ in
  run Scenario.unreachable (DamlApi.createContract "p:Escrow:Escrow" JNull) s []
  = (Thrown (mkError "Failed to fetch"), s,
     [DamlApi.createRequest (DamlApi.bearer "t") "p:Escrow:Escrow" JNull]).
Proof.
  intros s.
  exact (proj1 (proj2 (single_request_operations Scenario.unreachable s []
                         "p:Escrow:Escrow" JNull "#1:0" "Approve" None eq_refl))).
Defined.

(** X8.  With a token held, [queryContracts] called with template ids
    leaves the session as it is and sends its query followed by at most one
    more request, the same query with no template ids.  The second request
    is sent exactly when the first answer is not OK and its text contains
    'templateIds', 'Package ID' or 'Cannot resolve'.  Without it the outcome
    is that of the one answer; with it, a refused fallback gives
    [{result: []}] instead of an error, and an accepted one gives the
    contracts of its [result] that pass the template-name filter, or throws
    when the result cannot be read or filtered. *)
Theorem explicit_query_falls_back_at_most_once `{Host}
    (env : Env) (id : string) (ids : list string) (s : Session) (sent : list Request) :
  Js.truthyStr (token s) = true ->
  let auth := DamlApi.bearer (Js.toStringNullable (token s)) in
  let query := DamlApi.queryRequest auth (id :: ids) in
  let fallback := DamlApi.queryRequest auth [] in
  exists o reqs,
    run env (DamlApi.queryContracts (Some (id :: ids))) s sent
    = (o, s, (sent ++ query :: reqs)%list)
    /\ (reqs = [] \/ reqs = [fallback])
    /\ (reqs = [fallback]
        <-> exists response error,
              server env sent query = inr response /\ ok response = false
              /\ text response = inr error /\ DamlApi.isTemplateFormatText error = true)
    /\ (reqs = [] -> o = answered "Query failed: " (server env sent query))
    /\ (reqs = [fallback] ->
        match server env (sent ++ [query]) fallback with
        | inl e => o = Thrown e
        | inr response =>
            if ok response
            then match json response with
                 | inl e => o = Thrown e
                 | inr allContracts =>
                     match Js.getProp allContracts "result" with
                     | inl e => o = Thrown e
                     | inr result =>
                         match DamlApi.filter "(allContracts.result || [])"
                                 DamlApi.isKnownTemplate (Js.orEmptyArray result) with
                         | inl e => o = Thrown e
                         | inr kept => o = Returned (JObj [("result", JArr kept)])
                         end
                     end
                 end
            else o = Returned DamlApi.emptyResult
        end).
Proof.
  intros Hheld auth query fallback.
  unfold DamlApi.queryContracts. cbn. rewrite Hheld. cbn.
  fold auth. fold query. fold fallback.
  destruct (server env sent query) as [e|[okay txt js]] eqn:Hfirst; cbn.
  { exists (Thrown e), []. repeat split; auto.
    - intros Hreqs; discriminate.
    - intros (? & ? & ? & _); discriminate.
    - intros Hreqs; discriminate. }
  destruct okay; cbn.
  { destruct js as [e|data]; cbn; eexists _, []; repeat split; auto;
      try (intros Hreqs; discriminate);
      intros (? & ? & Heq & Hok & _); injection Heq as <-; discriminate. }
  destruct txt as [e|error]; cbn.
  { exists (Thrown e), []. repeat split; auto;
      try (intros Hreqs; discriminate).
    intros (? & ? & Heq & _ & Htxt & _). injection Heq as <-. discriminate. }
  destruct (DamlApi.isTemplateFormatText error) eqn:Hformat; cbn.
  - fold auth. fold fallback.
    assert (Hwhy : exists response error0,
               @inr Error Response {| ok := false; text := inr error; json := js |}
               = inr response
               /\ ok response = false /\ text response = inr error0
               /\ DamlApi.isTemplateFormatText error0 = true) by eauto 6.
    destruct (server env (sent ++ [query]) fallback) as [e|[okay' txt' js']] eqn:Hsecond; cbn.
    { exists (Thrown e), [fallback]. rewrite <- app_assoc. repeat split; auto.
      intros Hreqs; discriminate. }
    destruct okay'; cbn.
    + destruct js' as [e|allContracts]; cbn.
      { exists (Thrown e), [fallback]. rewrite <- app_assoc. repeat split; auto.
        intros Hreqs; discriminate. }
      destruct (Js.getProp allContracts "result") as [e|result]; cbn.
      { exists (Thrown e), [fallback]. rewrite <- app_assoc. repeat split; auto.
        intros Hreqs; discriminate. }
      destruct (DamlApi.filter "(allContracts.result || [])" DamlApi.isKnownTemplate
                  (Js.orEmptyArray result)) as [e|kept]; cbn;
        eexists _, [fallback]; rewrite <- app_assoc; repeat split; auto;
        intros Hreqs; discriminate.
    + exists (Returned DamlApi.emptyResult), [fallback]. rewrite <- app_assoc.
      repeat split; auto. intros Hreqs; discriminate.
  - exists (Thrown (mkError ("Query failed: " ++ error))), []. repeat split; auto;
      try (intros Hreqs; discriminate).
    intros (? & ? & Heq & _ & Htxt & Hfmt). injection Heq as <-. cbn in Htxt.
    injection Htxt as <-. congruence.
Qed.

Lemma explicit_query_falls_back_at_most_once_witness :
  let s := Scenario.loggedIn "t" ∅ in
  let query := DamlApi.queryRequest (DamlApi.bearer "t") ["Escrow:Escrow"] in
  exists o reqs,
    run Scenario.refusesQueries (DamlApi.queryContracts (Some ["Escrow:Escrow"])) s []
    = (o, s, query :: reqs)
    /\ (reqs = [] \/ reqs = [DamlApi.queryRequest (DamlApi.bearer "t") []]).
Proof.
  intros s query.
  destruct (explicit_query_falls_back_at_most_once Scenario.refusesQueries
              "Escrow:Escrow" [] s [] eq_refl) as (o & reqs & Hrun & Hreqs & _).
  exists o, reqs. split; [exact Hrun | exact Hreqs].
Defined.

(* ===================================================================== *)
(** ** The two loops of findPackageId                                     *)
(* ===================================================================== *)

Lemma split_nonempty sep s : Js.split sep s <> [].
Proof.
  destruct s as [|c rest]; cbn; [discriminate|].
  destruct (Ascii.eqb c sep); [discriminate|].
  destruct (Js.split sep rest); discriminate.
Qed.

Lemma join_cons sep x l :
  l <> [] -> Js.join sep (x :: l) = (x ++ sep ++ Js.join sep l)%string.
Proof. destruct l; [congruence | reflexivity]. Qed.

Lemma join_split sep s : Js.join (String sep "") (Js.split sep s) = s.
Proof.
  induction s as [|c rest IH]; [reflexivity|].
  cbn [Js.split]. destruct (Ascii.eqb c sep) eqn:Hc.
  - apply Ascii.eqb_eq in Hc. subst c.
    rewrite join_cons by apply split_nonempty. cbn. by rewrite IH.
  - pose proof (split_nonempty sep rest) as Hne.
    destruct (Js.split sep rest) as [|hd tl]; [congruence|].
    destruct tl as [|hd' tl].
    + cbn in *. by rewrite IH.
    + change (Js.join (String sep "") (String c hd :: hd' :: tl))
        with (String c (Js.join (String sep "") (hd :: hd' :: tl))).
      by rewrite IH.
Qed.

Lemma split_parts sep s :
  Forall (fun part => Js.includes part (String sep "") = false) (Js.split sep s).
Proof.
  induction s as [|c rest IH]; [by repeat constructor|].
  cbn [Js.split]. destruct (Ascii.eqb c sep) eqn:Hc.
  - constructor; [reflexivity | exact IH].
  - destruct (Js.split sep rest) as [|hd tl].
    { constructor; [|constructor].
      rewrite includes_single_cons, Ascii.eqb_sym, Hc. reflexivity. }
    inversion IH as [|? ? Hhd Htl]; subst. constructor; [|exact Htl].
    rewrite includes_single_cons, Hhd, Ascii.eqb_sym, Hc. reflexivity.
Qed.

Lemma split_three sep s a b c :
  Js.split sep s = [a; b; c] ->
  s = (a ++ String sep (b ++ String sep c))%string
  /\ Js.includes a (String sep "") = false
  /\ Js.includes c (String sep "") = false.
Proof.
  intros Hsplit. pose proof (join_split sep s) as Hjoin.
  pose proof (split_parts sep s) as Hparts. rewrite Hsplit in Hjoin, Hparts.
  cbn in Hjoin. split; [by rewrite <- Hjoin|].
  inversion Hparts as [|? ? Ha Hrest]; subst.
  inversion Hrest as [|? ? Hb Hrest']; subst.
  inversion Hrest' as [|? ? Hc _]; subst. by split.
Qed.

Lemma scanContracts_found `{Host} env contracts s sent v s' sent' :
  run env (DamlApi.scanContracts contracts) s sent = (Returned (Some v), s', sent') ->
  exists packageId rest contract before after,
    v = Some (JStr packageId)
    /\ contracts = (before ++ contract :: after)%list
    /\ Js.getProp contract "templateId"
       = inr (Some (JStr (packageId ++ ":SimpleToken:" ++ rest)))
    /\ Js.includes packageId ":" = false
    /\ Js.includes rest ":" = false
    /\ run env (DamlApi.scanContracts before) s sent = (Returned None, s, sent)
    /\ s' = withItem "daml_package_id" packageId s
    /\ sent' = sent.
Proof.
  induction contracts as [|c contracts IH]; [discriminate|].
  cbn [DamlApi.scanContracts]. rewrite run_bind.
  assert (Hnext :
    run env (DamlApi.scanContracts contracts) s sent = (Returned (Some v), s', sent') ->
    run env (DamlApi.scanContracts [c]) s sent = (Returned None, s, sent) ->
    exists packageId rest contract before after,
      v = Some (JStr packageId)
      /\ c :: contracts = (before ++ contract :: after)%list
      /\ Js.getProp contract "templateId"
         = inr (Some (JStr (packageId ++ ":SimpleToken:" ++ rest)))
      /\ Js.includes packageId ":" = false
      /\ Js.includes rest ":" = false
      /\ run env (DamlApi.scanContracts before) s sent = (Returned None, s, sent)
      /\ s' = withItem "daml_package_id" packageId s
      /\ sent' = sent).
  { intros Hrun Hskip.
    destruct (IH Hrun) as (p & rest & contract & before & after & -> & -> & Hprop & Hp & Hr
                           & Hbefore & -> & ->).
    exists p, rest, contract, (c :: before), after. repeat split; auto.
    revert Hskip. cbn [DamlApi.scanContracts]. rewrite !run_bind.
    destruct (Js.getProp c "templateId") as [e|t]; cbn; [discriminate|].
    destruct (Js.truthy t); cbn; [|auto].
    rewrite !run_bind.
    destruct (DamlApi.splitTemplateId (DamlApi.element t)) as [e|parts]; cbn; [discriminate|].
    destruct parts as [|a [|b [|x [|y parts]]]]; cbn; auto.
    destruct (String.eqb b "SimpleToken"); cbn; [discriminate | auto]. }
  destruct (Js.getProp c "templateId") as [e|t] eqn:Hprop; cbn; [discriminate|].
  destruct (Js.truthy t) eqn:Htruthy; cbn.
  2:{ intros Hrun. apply Hnext; [exact Hrun|].
      cbn. rewrite Hprop. cbn. by rewrite Htruthy. }
  rewrite run_bind.
  destruct (DamlApi.splitTemplateId (DamlApi.element t)) as [e|parts] eqn:Hsplit; cbn;
    [discriminate|].
  assert (Hskip :
            match parts with
            | [_; entity; _] => String.eqb entity "SimpleToken" = false
            | _ => True
            end ->
            run env (DamlApi.scanContracts [c]) s sent = (Returned None, s, sent)).
  { intros Hparts. cbn. rewrite Hprop. cbn. rewrite Htruthy. cbn. rewrite Hsplit. cbn.
    destruct parts as [|a [|b [|x [|y parts]]]]; cbn; auto. by rewrite Hparts. }
  destruct parts as [|a [|b [|x [|y parts]]]]; cbn;
    try (intros Hrun; apply Hnext; [exact Hrun | by apply Hskip]).
  destruct (String.eqb b "SimpleToken") eqn:Hentity; cbn.
  - intros Hrun. injection Hrun as <- <- <-.
    apply String.eqb_eq in Hentity. subst b.
    destruct t as [[| | |str| |]|]; try discriminate. cbn in Hsplit.
    injection Hsplit as Hsplit. apply split_three in Hsplit as (-> & Ha & Hx).
    exists a, x, c, [], contracts. repeat split; auto.
  - intros Hrun. apply Hnext; [exact Hrun | by apply Hskip].
Qed.

(** X9.  The first loop of [findPackageId] sends nothing.  When it returns
    a package id, that id is the part before the first colon of the
    template id [<id>:SimpleToken:<entity>] of one of the contracts, no
    contract before that one has a template id of this form, and the id is
    stored under [daml_package_id]; otherwise the session is unchanged. *)
Theorem scanned_package_id_comes_from_a_token_contract `{Host}
    (env : Env) (contracts : list JSON) (s : Session) (sent : list Request) :
  match run env (DamlApi.scanContracts contracts) s sent with
  | (Returned (Some v), s', sent') =>
      exists packageId rest contract before after,
        v = Some (JStr packageId)
        /\ contracts = (before ++ contract :: after)%list
        /\ Js.getProp contract "templateId"
           = inr (Some (JStr (packageId ++ ":SimpleToken:" ++ rest)))
        /\ Js.includes packageId ":" = false
        /\ Js.includes rest ":" = false
        /\ run env (DamlApi.scanContracts before) s sent = (Returned None, s, sent)
        /\ s' = withItem "daml_package_id" packageId s
        /\ sent' = sent
  | (_, s', sent') => s' = s /\ sent' = sent
  end.
Proof.
  pose proof (scanContracts_outcome env contracts s sent) as Hout.
  destruct (run env (DamlApi.scanContracts contracts) s sent) as [[[[v|]|e] s'] sent'] eqn:Hrun.
  - by apply (scanContracts_found env contracts s sent).
  - exact Hout.
  - exact Hout.
Qed.


Import Parallel.

(* ===================================================================== *)
(** ** The dashboard's queries, counted                                   *)
(* ===================================================================== *)

Ltac budget_step :=
  first
    [ progress cbn
    | lazymatch goal with
      | |- True => exact Logic.I
      | |- _ /\ _ => split
      | |- forall _, _ => intro
      | |- AtMost _ (lift ?x) => destruct x
      | |- AtMost _ (if ?b then _ else _) => destruct b eqn:?
      | |- AtMost _ (match ?x with _ => _ end) => destruct x eqn:?
      end
    | match goal with
      | |- AtMost _ ?p =>
          match p with
          | context [if ?b then _ else _] =>
              lazymatch b with
              | true => fail
              | false => fail
              | _ => destruct b eqn:?
              end
          | context [lift ?x] =>
              lazymatch x with
              | inl _ => fail
              | inr _ => fail
              | _ => destruct x eqn:?
              end
          end
      end ].

Lemma requestsOf_app who a b :
  requestsOf who (a ++ b)%list = (requestsOf who a ++ requestsOf who b)%list.
Proof. unfold requestsOf. by rewrite List.filter_app, fmap_app. Qed.

Lemma requestsOf_own who req : requestsOf who [(who, req)] = [req].
Proof. unfold requestsOf. cbn. by rewrite Nat.eqb_refl. Qed.

Lemma requestsOf_other who other req : other <> who -> requestsOf who [(other, req)] = [].
Proof.
  intros Hne. unfold requestsOf. cbn.
  destruct (Nat.eqb other who) eqn:Heq; [|reflexivity].
  apply Nat.eqb_eq in Heq. congruence.
Qed.

Lemma advance_budget {A} now who (p : Prog State A) n st log :
  AtMost n p ->
  (exists o, (advance now who p st log).1.1 = Settled o
             /\ (advance now who p st log).2 = log)
  \/ (exists req k m,
        n = Datatypes.S m
        /\ (advance now who p st log).1.1 = Waiting k
        /\ (advance now who p st log).2 = (log ++ [(who, req)])%list
        /\ forall r, AtMost m (k r)).
Proof.
  revert st log. induction p as [a|e|req k IH|k IH|g k IH|k IH]; intros st log Hp; cbn in *.
  - left. eauto.
  - left. eauto.
  - right. destruct n as [|m]; [destruct Hp|]. exists req, k, m. auto.
  - apply IH, Hp.
  - apply IH, Hp.
  - apply IH, Hp.
Qed.

Lemma deliver_budget now who r (X : Pool State) :
  (forall i, WithinBudget X i) -> forall i, WithinBudget (deliver now who r X) i.
Proof.
  intros HX i. unfold deliver.
  destruct (slots X !! who) as [[k|o]|] eqn:Hslot; try apply HX.
  destruct (HX who) as (left & Hcount & Hk). rewrite Hslot in Hk.
  pose proof (advance_budget now who (k r) left (state X) (sent X) (Hk r)) as Hadv.
  destruct (advance now who (k r) (state X) (sent X)) as [[slot s'] log']. cbn in Hadv.
  destruct (decide (i = who)) as [->|Hne].
  - destruct Hadv as [(o & -> & ->)|(req & k' & m & -> & -> & -> & Hk')].
    + exists left. cbn [sent slots]. split; [exact Hcount|].
      rewrite list_lookup_insert_eq; [exact Logic.I|].
      by apply lookup_lt_Some in Hslot.
    + exists m. cbn [sent slots]. split.
      * rewrite requestsOf_app, requestsOf_own, length_app. cbn [length]. lia.
      * rewrite list_lookup_insert_eq; [exact Hk'|].
        by apply lookup_lt_Some in Hslot.
  - destruct (HX i) as (left' & Hcount' & Hk'').
    exists left'. cbn [sent slots]. rewrite list_lookup_insert_ne by done.
    split; [|exact Hk''].
    destruct Hadv as [(o & _ & ->)|(req & k' & m & _ & _ & -> & _)]; [exact Hcount'|].
    rewrite requestsOf_app, requestsOf_other by done. by rewrite app_nil_r.
Qed.

Lemma Pool_run_budget now events (X : Pool State) :
  (forall i, WithinBudget X i) -> forall i, WithinBudget (Pool_run now events X) i.
Proof.
  revert X. induction events as [|[who r] events IH]; intros X HX; [exact HX|].
  change (Pool_run now ((who, r) :: events) X)
    with (Pool_run now events (deliver now who r X)).
  apply IH. by apply deliver_budget.
Qed.

Lemma spawn_calls_budget `{Host} now st :
  Js.truthyStr (token (session st)) = true ->
  forall i, WithinBudget (spawn now App.calls (mkPool (fetching st) [] [])) i.
Proof.
  intros Hheld i. unfold App.calls. cbn. repeat (rewrite Hheld; cbn).
  destruct i as [|[|[|i]]].
  1-3: exists 1%nat; split; [cbn; lia|]; cbn; repeat budget_step.
  exists 2%nat. split; [cbn; lia | exact Logic.I].
Qed.

Lemma deliver_senders now who r (X : Pool State) :
  length (slots X) = 3%nat ->
  Forall (fun entry => (entry.1 < 3)%nat) (sent X) ->
  length (slots (deliver now who r X)) = 3%nat
  /\ Forall (fun entry => (entry.1 < 3)%nat) (sent (deliver now who r X)).
Proof.
  intros Hlen Hsent. unfold deliver.
  destruct (slots X !! who) as [[k|o]|] eqn:Hslot; try by split.
  assert (Hwho : (who < 3)%nat) by (rewrite <- Hlen; by apply lookup_lt_Some in Hslot).
  assert (Hadv : forall A (p : Prog State A) st log,
            Forall (fun entry => (entry.1 < 3)%nat) log ->
            Forall (fun entry => (entry.1 < 3)%nat) (advance now who p st log).2).
  { intros A p. induction p as [a|e|req k' IH|k' IH|g k' IH|k' IH]; intros st log Hlog; cbn; auto.
    apply Forall_app. split; [exact Hlog|]. constructor; [exact Hwho | constructor]. }
  specialize (Hadv _ (k r) (state X) (sent X) Hsent).
  destruct (advance now who (k r) (state X) (sent X)) as [[slot s'] log']. cbn in *.
  split; [by rewrite length_insert | exact Hadv].
Qed.

Lemma Pool_run_senders now events (X : Pool State) :
  length (slots X) = 3%nat ->
  Forall (fun entry => (entry.1 < 3)%nat) (sent X) ->
  Forall (fun entry => (entry.1 < 3)%nat) (sent (Pool_run now events X)).
Proof.
  revert X. induction events as [|[who r] events IH]; intros X Hlen Hsent; [exact Hsent|].
  change (Pool_run now ((who, r) :: events) X)
    with (Pool_run now events (deliver now who r X)).
  destruct (deliver_senders now who r X Hlen Hsent) as [Hlen' Hsent'].
  by apply IH.
Qed.

Lemma log_by_sender (log : Log) :
  Forall (fun entry => (entry.1 < 3)%nat) log ->
  length log
  = (length (requestsOf 0 log) + length (requestsOf 1 log) + length (requestsOf 2 log))%nat.
Proof.
  induction log as [|[who req] log IH]; intros Hlog; [reflexivity|].
  inversion Hlog as [|? ? Hwho Hrest]; subst. specialize (IH Hrest).
  change ((who, req) :: log) with ([(who, req)] ++ log)%list.
  rewrite !requestsOf_app, !length_app. cbn in Hwho.
  destruct who as [|[|[|who]]]; [| | |lia]; cbn; lia.
Qed.

Lemma spawn_calls_senders `{Host} now st :
  Js.truthyStr (token (session st)) = true ->
  length (slots (spawn now App.calls (mkPool (fetching st) [] []))) = 3%nat
  /\ Forall (fun entry => (entry.1 < 3)%nat)
       (sent (spawn now App.calls (mkPool (fetching st) [] []))).
Proof.
  intros Hheld. unfold App.calls. cbn. repeat (rewrite Hheld; cbn).
  split; [reflexivity|]. repeat constructor; cbn; lia.
Qed.

(** X11.  During a dashboard fetch, whatever answers arrive and in whatever
    order, each of the three queries sends at most two requests (the query
    and at most one fallback), so at most six requests are sent in all, and
    at least the three queries when a token is held; without a token nothing
    is sent. *)
Theorem dashboard_query_sends_at_most_two_requests `{Host}
    (now : Z) (st : State) (events : list Event) :
  let c := run_events now events (start now App.fetchAllContracts st) in
  (forall who, (length (requestsOf who (sent (pool c))) <= 2)%nat)
  /\ (length (sent (pool c)) <= 6)%nat
  /\ (if Js.truthyStr (token (session st))
      then (3 <= length (sent (pool c)))%nat
      else sent (pool c) = []).
Proof.
  intros c. destruct (Js.truthyStr (token (session st))) eqn:Hheld.
  - pose proof (FetchInvariant_run now st events _ _ (FetchInvariant_start now st Hheld))
      as (_ & Hsent & _).
    fold c in Hsent. rewrite Hsent.
    pose proof (Pool_run_budget now events _ (spawn_calls_budget now st Hheld)) as Hbudget.
    assert (Hwho : forall who,
              (length (requestsOf who
                 (sent (Pool_run now events
                          (spawn now App.calls (mkPool (fetching st) [] []))))) <= 2)%nat).
    { intros who. destruct (Hbudget who) as (left & Hcount & _). lia. }
    split; [exact Hwho|].
    destruct (spawn_calls_senders now st Hheld) as [Hlen Hsenders].
    pose proof (Pool_run_senders now events _ Hlen Hsenders) as Hall.
    split.
    + rewrite (log_by_sender _ Hall).
      pose proof (Hwho 0%nat). pose proof (Hwho 1%nat). pose proof (Hwho 2%nat). lia.
    + destruct (start_fetchAllContracts now st Hheld) as (k0 & k1 & k2 & _ & Hspawn & _ & Hsafe).
      rewrite Hspawn.
      destruct (Pool_run_fallback now events
                  (mkPool (fetching st) (firstThree st) [Waiting k0; Waiting k1; Waiting k2]))
        as (extra & -> & _).
      { cbn. repeat constructor; intros r; apply Hsafe. }
      cbn [sent]. rewrite length_app. unfold firstThree. cbn [length]. lia.
  - assert (Hc : c = mkConfig (mkPool st [] []) (Resumed (Settled (Returned tt)))).
    { subst c. unfold start, App.fetchAllContracts. cbn. rewrite Hheld. cbn.
      apply run_events_finished. }
    rewrite Hc. cbn. repeat split; lia.
Qed.





Import Parallel.

(* ===================================================================== *)
(** ** The component's handlers                                           *)
(* ===================================================================== *)

Lemma run_inApp {A} env (p : Prog State A) d sent :
  run env (AppRevised.inApp p) d sent
  = let '(o, st, sent') := run env p (AppRevised.app d) sent in
    (o, AppRevised.mkDashboard st (AppRevised.showCreateToken d)
          (AppRevised.createTokenForm d), sent').
Proof.
  unfold AppRevised.inApp. revert d sent.
  induction p as [a|e|req k IH|k IH|g k IH|k IH]; intros d sent; cbn.
  - by destruct d.
  - by destruct d.
  - apply IH.
  - apply IH.
  - rewrite IH. reflexivity.
  - apply IH.
Qed.

(** X12.  The Logout button, in both revisions of the component: the
    singleton is logged out, the user, the error and the three collections
    are reset, [loading] keeps its value, and nothing is sent.  A fetch
    started afterwards does nothing, and the cached package id is still
    stored. *)
Theorem dashboard_logout_resets_the_view `{Host}
    (env : Env) (st : State) (sent : list Request) :
  let st' :=
    mkState (run env DamlApi.logout (session st) sent).1.2
      (mkView None (loading (view st)) None (JArr []) (JArr []) (JArr [])) in
  run env App.logout st sent = (Returned tt, st', sent)
  /\ run env AppRevised.logout st sent = (Returned tt, st', sent)
  /\ (forall now events,
        run_events now events (start now App.fetchAllContracts st')
        = mkConfig (mkPool st' [] []) (Resumed (Settled (Returned tt))))
  /\ run env AppRevised.refresh st' sent = (Returned tt, st', sent)
  /\ localStorage (session st') !! "daml_package_id"
     = localStorage (session st) !! "daml_package_id".
Proof.
  cbn. repeat split.
  - intros now events. unfold start. cbn. apply run_events_finished.
  - by rewrite !lookup_delete_ne.
Qed.

(** X13.  On mount after a page reload: when a non-empty [daml_token] is
    stored, the user shown is the stored [daml_user_id], [loading] is set,
    and the three queries leave under the stored token; otherwise nothing
    is sent and the view stays the initial one. *)
Theorem mount_restores_the_dashboard `{Host} (now : Z) (storage : gmap string string) :
  let st0 := mkState (DamlApi.constructor storage) Component.initialView in
  let c0 := start now App.mount st0 in
  if Js.truthyStr (storage !! "daml_token")
  then
    sent (pool c0) = firstThree st0
    /\ state (pool c0)
       = mkState (DamlApi.constructor storage)
           (mkView (storage !! "daml_user_id") true None (JArr []) (JArr []) (JArr []))
    /\ main c0 = Gathering App.resume
    /\ pending c0 = true
  else c0 = mkConfig (mkPool st0 [] []) (Resumed (Settled (Returned tt))).
Proof.
  intros st0 c0. subst c0 st0.
  destruct (Js.truthyStr (storage !! "daml_token")) eqn:Hheld.
  - unfold start, App.mount, App.fetchAllContracts, App.queries, App.calls.
    cbn. repeat (rewrite Hheld; cbn). repeat split.
  - unfold start, App.mount. cbn. rewrite Hheld. cbn. reflexivity.
Qed.

Lemma createSimpleToken_returns_with_token `{Host} env issuer owner amount se sent :
  match run env (DamlApi.createSimpleToken issuer owner amount) se sent with
  | (Returned _, se', _) => Js.truthyStr (token se') = true
  | (Thrown _, _, _) => True
  end.
Proof.
  pose proof (perform_changes env (CreateSimpleToken issuer owner amount) se sent)
    as (Htok & _).
  cbn [perform] in Htok.
  destruct (Js.truthyStr (token se)) eqn:Hheld.
  - destruct (run env (DamlApi.createSimpleToken issuer owner amount) se sent)
      as [[[r|e] se'] sent']; [|exact Logic.I].
    cbn in Htok. by rewrite Htok.
  - pose proof (perform_unauthenticated env (CreateSimpleToken issuer owner amount)
                  se sent Hheld) as Hrun.
    cbn [perform] in Hrun. by rewrite Hrun.
Qed.


Lemma onSubmit_run `{Host} env issuer owner amount d sent :
  run env (AppRevised.onSubmit issuer owner amount) d sent
  = match run env (DamlApi.createSimpleToken issuer owner amount)
            (session (AppRevised.app d)) sent with
    | (Thrown e, se', sent') =>
        (Returned tt,
         AppRevised.mkDashboard
           (mkState se'
              (mkView (user (view (AppRevised.app d))) false
                 (Some (AppRevised.submitError e))
                 (simpleTokens (view (AppRevised.app d)))
                 (escrows (view (AppRevised.app d)))
                 (collateralLocks (view (AppRevised.app d)))))
           (AppRevised.showCreateToken d) (AppRevised.createTokenForm d),
         sent')
    | (Returned _, se', sent') =>
        match run env AppRevised.fetchAllContracts
                (mkState se' (view (fetching (AppRevised.app d)))) sent' with
        | (Returned _, st', sent'') =>
            (Returned tt,
             AppRevised.mkDashboard
               (mkState (session st')
                  (mkView (user (view st')) false (error (view st'))
                     (simpleTokens (view st')) (escrows (view st'))
                     (collateralLocks (view st'))))
               false ("", ""),
             sent'')
        | (Thrown err, st', sent'') =>
            (Returned tt,
             AppRevised.mkDashboard
               (mkState (session st')
                  (mkView (user (view st')) false (Some (AppRevised.submitError err))
                     (simpleTokens (view st')) (escrows (view st'))
                     (collateralLocks (view st'))))
               false ("", ""),
             sent'')
        end
    end.
Proof.
  unfold AppRevised.onSubmit.
  rewrite (run_bind env (AppRevised.inApp (Component.setLoading true))).
  rewrite (run_inApp env (Component.setLoading true) d sent).
  cbn [Component.setLoading Component.setView update run].
  rewrite (run_bind env (AppRevised.inApp (Component.setError None))), run_inApp.
  cbn [Component.setError Component.setView update run].
  cbn [AppRevised.app AppRevised.showCreateToken AppRevised.createTokenForm session view
       user loading error simpleTokens escrows collateralLocks].
  rewrite (run_bind env (tryCatch _ _)), run_tryCatch.
  rewrite (run_bind env (AppRevised.inApp (Component.api _))), run_inApp, run_api.
  cbn [AppRevised.app session view].
  destruct (run env (DamlApi.createSimpleToken issuer owner amount)
              (session (AppRevised.app d)) sent) as [[[r|e] se'] sent'].
  - cbn [AppRevised.showCreateToken AppRevised.createTokenForm].
    rewrite (run_bind env (AppRevised.setShowCreateToken false)).
    cbn [AppRevised.setShowCreateToken update run].
    rewrite (run_bind env (AppRevised.setCreateTokenForm _)).
    cbn [AppRevised.setCreateTokenForm update run].
    rewrite run_inApp.
    cbn [AppRevised.app AppRevised.showCreateToken AppRevised.createTokenForm].
    unfold fetching. cbn [session view user simpleTokens escrows collateralLocks].
    destruct (run env AppRevised.fetchAllContracts _ sent') as [[[[]|err] st'] sent''].
    + repeat first [rewrite run_inApp | progress cbn]. reflexivity.
    + repeat first [rewrite run_inApp | progress cbn]. reflexivity.
  - repeat first [rewrite run_inApp | progress cbn]. reflexivity.
Qed.

(** X15.  The form's [onSubmit] never throws.  When [createSimpleToken]
    throws, the form stays as it is (still shown, its fields kept), the
    collections are unchanged, and the error shown is the message, with the
    hint when it applies; when it returns, the form is hidden, its fields
    are emptied, and the view is the one a Refresh gives. *)
Theorem token_form_submit_shows_the_outcome `{Host}
    (env : Env) (issuer owner amount : JsVal) (d : AppRevised.Dashboard)
    (sent : list Request) :
  let st := AppRevised.app d in
  match run env (DamlApi.createSimpleToken issuer owner amount) (session st) sent with
  | (Thrown e, se', sent') =>
      run env (AppRevised.onSubmit issuer owner amount) d sent
      = (Returned tt,
         AppRevised.mkDashboard
           (mkState se'
              (mkView (user (view st)) false (Some (AppRevised.submitError e))
                 (simpleTokens (view st)) (escrows (view st)) (collateralLocks (view st))))
           (AppRevised.showCreateToken d) (AppRevised.createTokenForm d),
         sent')
  | (Returned _, se', sent') =>
      let '(_, st', sent'') :=
        run env AppRevised.refresh (mkState se' (view (fetching st))) sent' in
      run env (AppRevised.onSubmit issuer owner amount) d sent
      = (Returned tt, AppRevised.mkDashboard st' false ("", ""), sent'')
  end.
Proof.
  intros st. subst st.
  pose proof (createSimpleToken_returns_with_token env issuer owner amount
                (session (AppRevised.app d)) sent) as Htok.
  rewrite onSubmit_run.
  destruct (run env (DamlApi.createSimpleToken issuer owner amount)
              (session (AppRevised.app d)) sent) as [[[r|e] se'] sent']; [|reflexivity].
  change (AppRevised.fetchAllContracts) with (AppRevised.refresh).
  rewrite !refresh_run by exact Htok. cbn [session view].
  destruct (run env AppRevised.queryAll se' sent') as [[[result|err] se''] sent''].
  - destruct (Js.getProp result "result") as [err|contracts]; [reflexivity|].
    destruct (AppRevised.splitByTemplate _) as [err|[[tokens escrows] locks]]; reflexivity.
  - reflexivity.
Qed.

Lemma includes_skip d needle x y :
  Js.includes x (String d "") = false ->
  Js.includes (x ++ y) (String d needle) = Js.includes y (String d needle).
Proof.
  induction x as [|c x IH]; [reflexivity|].
  rewrite includes_single_cons. intros Hx. apply orb_false_iff in Hx as [Hc Hx].
  change (String c x ++ y)%string with (String c (x ++ y)).
  cbn [Js.includes String.prefix].
  destruct (ascii_dec d c) as [->|Hne]; [by rewrite Ascii.eqb_refl in Hc|].
  cbn [orb]. by apply IH.
Qed.

Lemma allDigits_no_letter s c :
  allDigits s = true -> (57 < nat_of_ascii c)%nat -> Js.includes s (String c "") = false.
Proof.
  intros Hs Hc. induction s as [|x s IH]; [reflexivity|].
  cbn [allDigits] in Hs. apply andb_true_iff in Hs as [Hx Hs].
  apply andb_true_iff in Hx as [_ Hx]. apply Nat.leb_le in Hx.
  rewrite includes_single_cons, IH by exact Hs.
  destruct (Ascii.eqb c x) eqn:Heq; [|reflexivity].
  apply Ascii.eqb_eq in Heq. subst x. lia.
Qed.

Lemma pretty_N_go_digits x s : allDigits s = true -> allDigits (pretty_N_go x s) = true.
Proof.
  revert s. induction (N.lt_wf_0 x) as [x _ IH]; intros s Hs.
  destruct (decide (x = 0)%N) as [->|Hx]; [by rewrite pretty_N_go_0|].
  rewrite pretty_N_go_step by lia. apply IH.
  - apply N.div_lt; lia.
  - cbn [allDigits]. rewrite Hs, andb_true_r.
    unfold pretty_N_char. by repeat case_match.
Qed.

Lemma pretty_nat_digits (n : nat) : allDigits (pretty n) = true.
Proof.
  unfold pretty, pretty_nat, pretty, pretty_N.
  destruct (decide (N.of_nat n = 0%N)); [reflexivity|].
  by apply pretty_N_go_digits.
Qed.


(* ===================================================================== *)
(** ** The template filters of the revised component                      *)
(* ===================================================================== *)

Lemma append_assoc (a b c : string) : ((a ++ b) ++ c = a ++ (b ++ c))%string.
Proof.
  induction a as [|x a IH]; [reflexivity|].
  change (String x ((a ++ b) ++ c) = String x (a ++ (b ++ c)))%string. by f_equal.
Qed.

Lemma append_empty_r (a : string) : (a ++ "")%string = a.
Proof.
  induction a as [|x a IH]; [reflexivity|].
  change (String x (a ++ "") = String x a)%string. by f_equal.
Qed.

Lemma rev_app_append s1 s2 : String.rev_app s1 s2 = (String.rev s1 ++ s2)%string.
Proof.
  unfold String.rev. revert s2. induction s1 as [|a s1 IH]; intros s2; [reflexivity|].
  cbn [String.rev_app]. rewrite (IH (String a s2)), (IH (String a "")).
  by rewrite append_assoc.
Qed.

Lemma rev_cons a s : String.rev (String a s) = (String.rev s ++ String a "")%string.
Proof. unfold String.rev at 1. cbn [String.rev_app]. apply rev_app_append. Qed.

Lemma rev_append a b : String.rev (a ++ b) = (String.rev b ++ String.rev a)%string.
Proof.
  induction a as [|x a IH]; [by rewrite append_empty_r|].
  change (String x a ++ b)%string with (String x (a ++ b)).
  by rewrite !rev_cons, IH, append_assoc.
Qed.

Lemma rev_involutive s : String.rev (String.rev s) = s.
Proof.
  induction s as [|a s IH]; [reflexivity|].
  by rewrite rev_cons, rev_append, IH.
Qed.

Lemma prefix_append a b : String.prefix a b = true -> exists c, b = (a ++ c)%string.
Proof.
  revert b. induction a as [|x a IH]; intros b; [by exists b|].
  destruct b as [|y b]; [discriminate|]. cbn [String.prefix].
  destruct (ascii_dec x y) as [->|]; [|discriminate].
  intros Hp. destruct (IH b Hp) as [c ->]. by exists c.
Qed.

Lemma prefix_refl a b : String.prefix a (a ++ b) = true.
Proof.
  induction a as [|x a IH]; [by destruct b|].
  change (String x a ++ b)%string with (String x (a ++ b)). cbn [String.prefix].
  destruct (ascii_dec x x); [exact IH | congruence].
Qed.

Lemma includes_unfold haystack needle :
  Js.includes haystack needle
  = String.prefix needle haystack
    || match haystack with
       | EmptyString => false
       | String _ rest => Js.includes rest needle
       end.
Proof. by destruct haystack. Qed.

Lemma includes_here a b : Js.includes (a ++ b) a = true.
Proof. by rewrite includes_unfold, prefix_refl. Qed.

Lemma includes_later a b needle :
  Js.includes b needle = true -> Js.includes (a ++ b) needle = true.
Proof.
  intros Hb. induction a as [|x a IH]; [exact Hb|].
  change (String x a ++ b)%string with (String x (a ++ b)).
  cbn [Js.includes]. by rewrite IH, orb_true_r.
Qed.

Lemma endsWith_includes s name :
  Js.endsWith s (":" ++ name) = true -> Js.includes s name = true.
Proof.
  unfold Js.endsWith. intros Hp. apply prefix_append in Hp as [c Hc].
  apply (f_equal String.rev) in Hc. rewrite rev_involutive, rev_append, rev_involutive in Hc.
  subst s. apply includes_later. apply (includes_later ":").
  rewrite <- (append_empty_r name) at 1. apply includes_here.
Qed.

(** X17.  In the three filters of the revised [fetchAllContracts] the
    [endsWith] alternative selects nothing that [includes] has not already
    selected: a contract is kept exactly when its template id includes the
    name, a string template id is tested by [includes] alone, and a missing
    or empty one is tested as the empty string. *)
Theorem endsWith_test_selects_nothing_more (name : string) (c : JSON) :
  (AppRevised.isTemplate name c = inr true
   <-> exists t, Js.getProp c "templateId" = inr t
                 /\ DamlApi.valueIncludes (Js.orEmptyString t) name = inr true)
  /\ (forall s, Js.getProp c "templateId" = inr (Some (JStr s)) ->
                AppRevised.isTemplate name c = inr (Js.includes s name))
  /\ (forall t, Js.getProp c "templateId" = inr t -> Js.truthy t = false ->
                AppRevised.isTemplate name c = inr (Js.includes "" name)).
Proof.
  unfold AppRevised.isTemplate.
  destruct (Js.getProp c "templateId") as [e|t]; cbv beta iota zeta.
  { split; [split; [discriminate | intros (? & ? & _); discriminate]|].
    split; intros; discriminate. }
  assert (Hstr : forall s,
            DamlApi.orElse (DamlApi.valueIncludes (JStr s) name)
              (AppRevised.valueEndsWith (JStr s) (":" ++ name))
            = inr (Js.includes s name)).
  { intros s. cbn. destruct (Js.includes s name) eqn:Hinc; [reflexivity|].
    destruct (Js.endsWith s (":" ++ name)) eqn:Hends; [|reflexivity].
    apply endsWith_includes in Hends. congruence. }
  split; [|split].
  - split.
    + intros Hsel. exists t. split; [reflexivity|].
      destruct (Js.orEmptyString t) as [|b|n|s|items|fields];
        [ cbn in Hsel; discriminate | cbn in Hsel; discriminate | cbn in Hsel; discriminate
        | rewrite Hstr in Hsel; cbn; exact Hsel
        | cbn in Hsel |- *; destruct (existsb _ items); [reflexivity | discriminate]
        | cbn in Hsel; discriminate ].
    + intros (t' & Heq & Hinc). injection Heq as <-.
      by rewrite Hinc.
  - intros s Heq. injection Heq as ->. unfold Js.orEmptyString, Js.truthy.
    destruct (String.eqb s "") eqn:Hs; cbn [negb].
    + apply String.eqb_eq in Hs. subst s. apply Hstr.
    + apply Hstr.
  - intros t' Heq Hfalsy. injection Heq as <-.
    unfold Js.orEmptyString. destruct t as [j|]; [|apply Hstr].
    rewrite Hfalsy. apply Hstr.
Qed.

(* ===================================================================== *)
(** ** The hint of the token form                                         *)
(* ===================================================================== *)

Lemma includes_app_l a b needle :
  Js.includes a needle = true -> Js.includes (a ++ b) needle = true.
Proof.
  induction a as [|x a IH].
  - destruct needle; [by destruct b | discriminate].
  - rewrite (includes_unfold (String x a)). intros Hinc.
    apply orb_true_iff in Hinc as [Hp|Hrest].
    + apply prefix_append in Hp as [c ->]. rewrite append_assoc. apply includes_here.
    + change (String x a ++ b)%string with (String x (a ++ b)).
      cbn [Js.includes]. by rewrite IH, orb_true_r.
Qed.

Lemma pretty_Z_no_letter (n : Z) c :
  (57 < nat_of_ascii c)%nat -> Js.includes (pretty n) (String c "") = false.
Proof.
  intros Hc.
  assert (Hpos : forall p, Js.includes (pretty (Npos p)) (String c "") = false).
  { intros p. apply allDigits_no_letter; [|exact Hc].
    unfold pretty, pretty_N. destruct (decide (N.pos p = 0%N)); [reflexivity|].
    by apply pretty_N_go_digits. }
  destruct n as [|p|p].
  - apply allDigits_no_letter; [reflexivity | exact Hc].
  - apply Hpos.
  - change (pretty (Z.neg p)) with ("-" ++ pretty (Npos p))%string.
    rewrite includes_single_app, Hpos, orb_false_r, includes_single_cons.
    destruct (Ascii.eqb c "-") eqn:Heq; [|reflexivity].
    apply Ascii.eqb_eq in Heq. subst c. apply Nat.ltb_lt in Hc. discriminate.
Qed.

(** X16.  The hint of [onSubmit] and the 'Tried all n packages' error of
    [createSimpleToken], n being the [length] read from the package list.
    The hint is not added when that length is a number, a boolean, null,
    undefined or an object, which is so whenever the package list is an
    array or a string: only an object can hold a length that is text.  Nor
    is it added to 'Not authenticated'.  It is added to every message
    containing 'DAR file is not uploaded', hence to the 'Tried all' error
    when the length read contains that phrase: a gateway listing its
    packages as an object with such a [length] gets the hint shown. *)
Theorem tried_all_error_gets_no_hint :
  let hint := " Try running `daml start` in your terminal to upload the DAR file." in
  (forall len,
      textualLength len = false ->
      AppRevised.submitError (DamlApi.triedAll len) = message (DamlApi.triedAll len))
  /\ (forall packageIds len,
        Js.lengthOf packageIds = inr len -> textualLength len = true ->
        exists fields, packageIds = JObj fields)
  /\ AppRevised.submitError DamlApi.NotAuthenticated = "Not authenticated"
  /\ (forall e,
        Js.includes (message e) "DAR file is not uploaded" = true ->
        AppRevised.submitError e = (message e ++ hint)%string)
  /\ (forall len,
        Js.includes (Js.toStringVal len) "DAR file is not uploaded" = true ->
        AppRevised.submitError (DamlApi.triedAll len)
        = (message (DamlApi.triedAll len) ++ hint)%string)
  /\ (let len := JStr "DAR file is not uploaded" in
      let env := Scenario.lengthOnly [("length", len)] in
      let d := AppRevised.mkDashboard (Scenario.showing (Scenario.loggedIn "t" ∅))
                 true ("bob::1220", "100") in
      (run env (DamlApi.createSimpleToken Scenario.alice Scenario.bob Scenario.hundred)
           (Scenario.loggedIn "t" ∅) []).1.1
      = Thrown (DamlApi.triedAll (Some len))
      /\ error (view (AppRevised.app
                        (run env (AppRevised.onSubmit Scenario.alice Scenario.bob
                                    Scenario.hundred) d []).1.2))
         = Some (message (DamlApi.triedAll (Some len)) ++ hint)%string).
Proof.
  intros hint. subst hint.
  assert (Hhint : forall e,
            Js.includes (message e) "DAR file is not uploaded" = true ->
            AppRevised.submitError e
            = (message e
               ++ " Try running `daml start` in your terminal to upload the DAR file.")%string).
  { intros e He. unfold AppRevised.submitError. by rewrite He, orb_true_r. }
  split; [|split; [|split; [reflexivity|split; [exact Hhint|split]]]].
  - intros len Hplain.
    destruct len as [[|[]|n|text|items|fields]|]; try discriminate; try reflexivity.
    unfold AppRevised.submitError, DamlApi.triedAll. cbn [message Js.toStringVal Js.toString].
    rewrite !(includes_skip _ _ "Tried all ") by reflexivity.
    rewrite (includes_skip "C" _ (pretty n))
      by (apply pretty_Z_no_letter; apply Nat.ltb_lt; reflexivity).
    rewrite (includes_skip "D" _ (pretty n))
      by (apply pretty_Z_no_letter; apply Nat.ltb_lt; reflexivity).
    reflexivity.
  - intros packageIds len Hlen Htext.
    destruct packageIds as [|b|n|text|items|fields]; cbn in Hlen;
      try discriminate; try (injection Hlen as <-; discriminate).
    by exists fields.
  - intros len Hlen. apply Hhint. unfold DamlApi.triedAll. cbn [message].
    apply (includes_later "Tried all "). by apply includes_app_l.
  - vm_compute. split; reflexivity.
Qed.


(* ===================================================================== *)
(** ** The token form                                                     *)
(* ===================================================================== *)

(** X18.  The mount effect of the token form never throws and sends
    exactly one request, to the literal path [/v1/parties] with the stored
    [daml_token] as bearer ('Bearer null' when none is stored); afterwards
    [loadingParties] is false, and the party list is replaced only by
    [result || []] of an OK answer with a JSON body other than null.  The
    API client, by
    contrast, addresses [<REACT_APP_API_URL>/parties] when that variable is
    set. *)
Theorem form_fetches_the_party_list_once
    (env : Env) (f : TokenForm.Form) (sent : list Request) :
  let req := TokenForm.partiesRequest (TokenForm.storage f !! "daml_token") in
  let shown :=
    match server env sent req with
    | inr response =>
        if ok response
        then match json response with
             | inr data =>
                 match Js.getProp data "result" with
                 | inr result => Js.orEmptyArray result
                 | inl _ => TokenForm.parties f
                 end
             | inl _ => TokenForm.parties f
             end
        else TokenForm.parties f
    | inl _ => TokenForm.parties f
    end in
  run env TokenForm.fetchParties f sent
  = (Returned tt,
     TokenForm.mkForm (TokenForm.storage f) (TokenForm.owner f) (TokenForm.amount f)
       (TokenForm.submitting f) shown false,
     (sent ++ [req])%list)
  /\ url req = "/v1/parties"
  /\ headers req
     = [("Authorization",
         "Bearer " ++ Js.toStringNullable (TokenForm.storage f !! "daml_token"))]
  /\ (forall (H : Host) (configured tok : string),
        REACT_APP_API_URL = Some configured -> configured <> "" ->
        url (DamlApi.partiesRequest tok) = configured ++ "/parties").
Proof.
  intros req shown. subst req shown. split; [|split; [reflexivity|split; [reflexivity|]]].
  - unfold TokenForm.fetchParties. cbn.
    destruct (server env sent _) as [e|[[] txt [e|data]]]; try reflexivity.
    cbn. by destruct (Js.getProp data "result").
  - intros H configured tok Hconf Hne. cbn. unfold DamlApi.API_BASE_URL.
    rewrite Hconf. cbn. apply String.eqb_neq in Hne. by rewrite Hne.
Qed.

Lemma run_inDashboard {S A} env (p : Prog S A) (d : S) (f : TokenForm.Form) sent :
  run env (TokenForm.inDashboard p) (d, f) sent
  = let '(o, d', sent') := run env p d sent in (o, (d', f), sent').
Proof.
  unfold TokenForm.inDashboard. revert d sent.
  induction p as [a|e|req k IH|k IH|g k IH|k IH]; intros d sent; cbn; auto.
Qed.

(** X19.  [handleSubmit] with an empty owner or amount alerts and does
    nothing else: [onSubmit] is not called and nothing changes.  Otherwise
    [onSubmit] is called once, with the party identifier as issuer, the
    owner, and [parseFloat] of the amount; whatever it does, and even when
    it throws, [handleSubmit] returns with [submitting] false. *)
Theorem form_submit_needs_both_fields {S : Type}
    (parseFloat : string -> JsVal) (onSubmit : JsVal -> JsVal -> JsVal -> Prog S unit)
    (env : Env) (partyIdentifier : JsVal) (d : S) (f : TokenForm.Form)
    (sent : list Request) :
  if String.eqb (TokenForm.owner f) "" || String.eqb (TokenForm.amount f) ""
  then
    run env (TokenForm.handleSubmit parseFloat onSubmit partyIdentifier) (d, f) sent
    = (Returned (Some "Please fill in all fields"), (d, f), sent)
  else
    let '(_, d', sent') :=
      run env (onSubmit partyIdentifier (Some (JStr (TokenForm.owner f)))
                 (parseFloat (TokenForm.amount f))) d sent in
    run env (TokenForm.handleSubmit parseFloat onSubmit partyIdentifier) (d, f) sent
    = (Returned None,
       (d', TokenForm.mkForm (TokenForm.storage f) (TokenForm.owner f)
              (TokenForm.amount f) false (TokenForm.parties f)
              (TokenForm.loadingParties f)),
       sent').
Proof.
  unfold TokenForm.handleSubmit. cbn.
  destruct (String.eqb (TokenForm.owner f) "" || String.eqb (TokenForm.amount f) "");
    [reflexivity|].
  cbn. rewrite run_bind, run_tryCatch.
  rewrite (run_inDashboard env _ d _ sent).
  destruct (run env (onSubmit _ _ _) d sent) as [[[[]|e] d'] sent']; reflexivity.
Qed.

(* ===================================================================== *)
(** ** The earlier client                                                 *)
(* ===================================================================== *)





(* ===================================================================== *)
(** ** Clear Cache                                                        *)
(* ===================================================================== *)

(** X23.  Clear Cache with a token held never throws and first sends the
    query with no template ids, by which [findPackageId] looks for the
    package id again; [loading] ends false, the user is kept, nothing of
    the session changes but [daml_package_id], and that entry ends either
    absent or holding the id [findPackageId] has just discovered. *)
Theorem clear_cache_rediscovers_the_package_id `{Host}
    (env : Env) (st : State) (sent : list Request) :
  Js.truthyStr (token (session st)) = true ->
  let bare :=
    DamlApi.queryRequest (DamlApi.bearer (Js.toStringNullable (token (session st)))) [] in
  exists st' reqs,
    run env AppRevised.clearCache st sent = (Returned tt, st', (sent ++ bare :: reqs)%list)
    /\ loading (view st') = false
    /\ user (view st') = user (view st)
    /\ ChangesOnlyPackageId (session st) (session st')
    /\ (localStorage (session st') !! "daml_package_id" = None
        \/ exists discovered,
             run env DamlApi.findPackageId (withoutItem "daml_package_id" (session st)) sent
             = (Returned (Some discovered),
                withItem "daml_package_id" (Js.toString discovered)
                  (withoutItem "daml_package_id" (session st)),
                (run env DamlApi.findPackageId
                     (withoutItem "daml_package_id" (session st)) sent).2)
             /\ localStorage (session st') !! "daml_package_id"
                = Some (Js.toString discovered)).
Proof.
  intros Hheld bare. subst bare.
  set (se0 := withoutItem "daml_package_id" (session st)).
  assert (Hheld0 : Js.truthyStr (token se0) = true) by exact Hheld.
  assert (Hno : Js.truthyStr (localStorage se0 !! "daml_package_id") = false).
  { unfold se0. cbn. by rewrite lookup_delete_eq. }
  unfold AppRevised.clearCache.
  rewrite run_bind, run_api. cbn [Storage.removeItem update run].
  change (mkSession (token (session st)) (userId (session st))
            (partyIdentifier (session st))
            (delete "daml_package_id" (localStorage (session st))))
    with se0.
  change (AppRevised.fetchAllContracts) with (AppRevised.refresh).
  rewrite refresh_run by exact Hheld0. cbn [session view].
  destruct (queryAll_after_findPackageId env se0 sent Hheld0) as (result & rest & ->).
  destruct (findPackageId_first_request env se0 sent Hno) as (rest' & Hfirst).
  pose proof (findPackageId_outcome env se0 sent) as Hfind.
  rewrite Hno in Hfind.
  destruct (run env DamlApi.findPackageId se0 sent) as [[[v|e] se1] sent1] eqn:Hrun;
    [|destruct Hfind].
  cbn [fst snd] in *. subst sent1.
  cbv zeta.
  assert (Hshape : exists view',
            match Js.getProp result "result" with
            | inl err =>
                mkView (user (view st)) false (Some (message err))
                  (simpleTokens (view st)) (escrows (view st))
                  (collateralLocks (view st))
            | inr contracts =>
                match AppRevised.splitByTemplate (Js.orEmptyArray contracts) with
                | inr (tokens, escrows, locks) =>
                    mkView (user (view st)) false None (JArr tokens) (JArr escrows)
                      (JArr locks)
                | inl err =>
                    mkView (user (view st)) false (Some (message err))
                      (simpleTokens (view st)) (escrows (view st))
                      (collateralLocks (view st))
                end
            end = view'
            /\ loading view' = false /\ user view' = user (view st)).
  { destruct (Js.getProp result "result") as [err|contracts];
      [eexists; (split; [reflexivity|]); split; reflexivity|].
    destruct (AppRevised.splitByTemplate _) as [err|[[tokens escrows] locks]];
      eexists; (split; [reflexivity|]); split; reflexivity. }
  destruct Hshape as (view' & -> & Hloading & Huser).
  exists (mkState se1 view'), (rest' ++ rest)%list.
  rewrite <- app_assoc. cbn [app]. split; [reflexivity|].
  split; [exact Hloading|]. split; [exact Huser|].
  cbn [session].
  assert (Hframe : ChangesOnlyPackageId (session st) se0).
  { unfold se0. repeat split. intros key Hkey. cbn. by rewrite lookup_delete_ne. }
  destruct Hfind as [[-> ->]|(discovered & -> & ->)].
  - split; [exact Hframe|]. left. unfold se0. cbn. by rewrite lookup_delete_eq.
  - split.
    + destruct Hframe as (Ht & Hu & Hp & Hl). repeat split; try assumption.
      intros key Hkey. cbn. rewrite lookup_insert_ne by done. by apply Hl.
    + right. exists discovered. split; [reflexivity|]. cbn. by rewrite lookup_insert_eq.
Qed.

Lemma clear_cache_rediscovers_the_package_id_witness :
  let st := Scenario.showing (Scenario.loggedIn "t" {["daml_package_id" := "stale"]}) in
  exists st' reqs,
    run (Scenario.templateIn [] "x") AppRevised.clearCache st []
    = (Returned tt, st', DamlApi.queryRequest (DamlApi.bearer "t") [] :: reqs)
    /\ loading (view st') = false.
Proof.
  intros st.
  destruct (clear_cache_rediscovers_the_package_id (Scenario.templateIn [] "x") st []
              eq_refl) as (st' & reqs & Hrun & Hloading & _).
  exists st', reqs. split; [exact Hrun | exact Hloading].
Defined.

(* ===================================================================== *)
(** ** How login fails                                                    *)
(* ===================================================================== *)



(** X25.  [login] looks the party up by the lower-cased user id only: two
    user ids with the same lower-case form match the same parties, find the
    same party in any list, and, given the same party list, log in with the
    same party identifier. *)
Theorem login_matches_the_user_id_by_lower_case `{Host} (uid uid' : string) :
  toLowerCase uid = toLowerCase uid' ->
  (forall party, DamlApi.matchesUser uid party = DamlApi.matchesUser uid' party)
  /\ (forall parties,
        DamlApi.find (DamlApi.matchesUser uid) parties
        = DamlApi.find (DamlApi.matchesUser uid') parties)
  /\ (forall env s sent,
        server env sent (DamlApi.partiesRequest uid)
        = server env sent (DamlApi.partiesRequest uid') ->
        match run env (DamlApi.login uid) s sent, run env (DamlApi.login uid') s sent with
        | (Returned _, s1, _), (Returned _, s2, _) =>
            partyIdentifier s1 = partyIdentifier s2
        | _, _ => True
        end).
Proof.
  intros Hlower.
  assert (Hmatch : forall party,
            DamlApi.matchesUser uid party = DamlApi.matchesUser uid' party).
  { intros party. unfold DamlApi.matchesUser. by rewrite Hlower. }
  assert (Hfind : forall parties,
            DamlApi.find (DamlApi.matchesUser uid) parties
            = DamlApi.find (DamlApi.matchesUser uid') parties).
  { intros [| | | |items|]; try reflexivity. cbn.
    induction items as [|x items IH]; [reflexivity|].
    cbn. rewrite Hmatch. destruct (DamlApi.matchesUser uid' x) as [e|[]]; auto. }
  split; [exact Hmatch|]. split; [exact Hfind|].
  intros env s sent Hsame.
  pose proof (login_outcome env uid s sent) as H1.
  pose proof (login_outcome env uid' s sent) as H2.
  destruct (run env (DamlApi.login uid) s sent) as [[[tok1|e1] s1] sent1];
    destruct (run env (DamlApi.login uid') s sent) as [[[tok2|e2] s2] sent2];
    try exact Logic.I.
  destruct H1 as (first1 & _ & party1 & id1 & Hf1 & _
                  & (data1 & result1 & Hj1 & Hr1 & Hp1) & Hid1 & _ & _ & _ & ->).
  destruct H2 as (first2 & _ & party2 & id2 & Hf2 & _
                  & (data2 & result2 & Hj2 & Hr2 & Hp2) & Hid2 & _ & _ & _ & ->).
  cbn. rewrite Hsame, Hf2 in Hf1. injection Hf1 as <-.
  rewrite Hj2 in Hj1. injection Hj1 as <-.
  rewrite Hr2 in Hr1. injection Hr1 as <-.
  rewrite Hfind, Hp2 in Hp1. injection Hp1 as <-.
  rewrite Hid2 in Hid1. by injection Hid1.
Qed.

Lemma login_matches_the_user_id_by_lower_case_witness :
  DamlApi.find (DamlApi.matchesUser "ALICE")
    (JArr [JObj [("identifier", JStr "bob::1220"); ("displayName", JStr "Bob")];
           JObj [("identifier", JStr "alice::1220"); ("displayName", JStr "Alice")]])
  = DamlApi.find (DamlApi.matchesUser "alice")
      (JArr [JObj [("identifier", JStr "bob::1220"); ("displayName", JStr "Bob")];
             JObj [("identifier", JStr "alice::1220"); ("displayName", JStr "Alice")]]).
Proof.
  exact (proj1 (proj2 (login_matches_the_user_id_by_lower_case "ALICE" "alice" eq_refl)) _).
Defined.

(* ===================================================================== *)
(** ** The error slot of the dashboard fetch                              *)
(* ===================================================================== *)

(** X26.  The dashboard fetch of [App.js] shows no error but one.  With a
    token held, at every point of the call the user is kept and [loading]
    is true exactly while a query is pending; while one is pending the error
    slot is empty; and once all have settled it is empty unless a query
    resolved to null, when it holds the message of the [TypeError] of reading
    that result.  A query that rejects never fills it: its [.catch] swallows
    the failure.  Without a token the state is untouched. *)
Theorem dashboard_fetch_reports_only_a_null_result `{Host}
    (now : Z) (st : State) (events : list Parallel.Event) :
  let c := Parallel.run_events now events (Parallel.start now App.fetchAllContracts st) in
  let bare :=
    Parallel.Pool_run now events
      (Parallel.spawn now App.calls (Parallel.mkPool (fetching st) [] [])) in
  let shown := view (Parallel.state (Parallel.pool c)) in
  if Js.truthyStr (token (session st))
  then
    user shown = user (view st)
    /\ loading shown = Parallel.pending c
    /\ (if Parallel.pending c
        then error shown = None
        else exists o0 o1 o2,
               outcomeOf bare 0 = Some o0 /\ outcomeOf bare 1 = Some o1
               /\ outcomeOf bare 2 = Some o2
               /\ error shown
                  = if unreadable o0 || unreadable o1 || unreadable o2
                    then Some nullResult
                    else None)
  else Parallel.state (Parallel.pool c) = st.
Proof.
  intros c bare shown. subst shown.
  destruct (Js.truthyStr (token (session st))) eqn:Hheld.
  - pose proof (FetchInvariant_run now st events _ _ (FetchInvariant_start now st Hheld))
      as (_ & _ & _ & _ & Hcase).
    fold c bare in Hcase. destruct (Parallel.pending c).
    + destruct Hcase as (_ & -> & ->). by repeat split.
    + destruct Hcase as (_ & o0 & o1 & o2 & Hbare & ->).
      unfold settledView.
      split; [by destruct (unreadable o0), (unreadable o1), (unreadable o2)|].
      split; [by destruct (unreadable o0), (unreadable o1), (unreadable o2)|].
      exists o0, o1, o2. unfold outcomeOf. rewrite Hbare. cbn [lookup list_lookup].
      do 3 (split; [reflexivity|]).
      by destruct (unreadable o0), (unreadable o1), (unreadable o2).
  - subst c. unfold Parallel.start, App.fetchAllContracts. cbn. rewrite Hheld. cbn.
    by rewrite run_events_finished.
Qed.
